(** * A shallow embedding of the HD wallet orchestrator (src/wallet/wallet.ts)

    The development follows the TypeScript class [Wallet]:

    - [JS]      the fragment of the JavaScript run time the wallet leans on:
                numbers, [Number::toString], [parseInt], truthiness;
    - [Run]     the effect monad: wallet state is threaded, an exception leaves
                the mutations made so far in place, an [await] on an unsettled
                promise blocks;
    - the collaborators that live in other modules (address manager, UTXO
      set, transaction store, RPC client, kaspacore) are interfaces, as they are
      for wallet.ts itself;
    - the methods [createUID], [sync], [addressDiscovery], [composeTx],
      [estimateTransaction], [buildTransaction], [submitTransaction] are
      translated statement by statement; logging is left out except where the
      evaluation of a log argument can itself raise.

    Sompi amounts, byte counts and indices are JavaScript numbers that hold
    integers; they are modelled in [Z], which is exact for every safe integer.
    A listener the wallet registers on a collaborator runs when that
    collaborator decides so; such call-backs and fire-and-forget promises are
    not interleaved with the method bodies modelled here. *)

From Stdlib Require Import ZArith List String Ascii Bool Lia.
From stdpp Require Import gmap strings.
Import ListNotations.

Local Open Scope Z_scope.

(* ===================================================================== *)
(** ** The JavaScript fragment                                            *)
(* ===================================================================== *)

Module JS.

(** A Number that is the result of integer arithmetic or of [parseInt]:
    [None] is NaN, [Some z] the integer [z]. *)
Definition JsNumber := option Z.

Definition jsAdd (a b : JsNumber) : JsNumber :=
  match a, b with
  | Some x, Some y => Some (x + y)
  | _, _ => None
  end.

Definition jsSub (a b : JsNumber) : JsNumber :=
  match a, b with
  | Some x, Some y => Some (x - y)
  | _, _ => None
  end.

(** A Number as [Number::toString] sees it.  A finite non-zero value is given
    by its sign and by the integers of the standard: the decimal digits
    [digits] of [s] (most significant first, [k] of them, [k] as small as
    possible) and the exponent [n], for the value [s * 10^(n-k)]. *)
Inductive Num :=
| NumNaN
| NumInfinity (neg : bool)
| NumZero
| NumFinite (neg : bool) (digits : list nat) (n : Z).

(** The values [composeTx] can receive in [amount] and [fee], which it casts
    [as any] before handing them to [parseInt]. *)
Inductive JsValue :=
| JsUndefined
| JsNum (x : Num)
| JsString (s : string).

Definition digitChar (d : nat) : ascii := ascii_of_nat (48 + d).

Fixpoint digitString (ds : list nat) : string :=
  match ds with
  | [] => EmptyString
  | d :: r => String (digitChar d) (digitString r)
  end.

Fixpoint zeros (n : nat) : list nat :=
  match n with
  | O => []
  | S m => 0%nat :: zeros m
  end.

(** Value of a digit sequence read in base ten, continuing from [acc]. *)
Definition digitsValue (acc : Z) (ds : list nat) : Z :=
  fold_left (fun a d => 10 * a + Z.of_nat d) ds acc.

(** The decimal digits of a non-negative integer, most significant first.
    The fuel is the bit length, which bounds the digit count. *)
Fixpoint digitsOfAux (fuel : nat) (z : Z) (acc : list nat) : list nat :=
  match fuel with
  | O => acc
  | S f =>
      if z <? 10 then Z.to_nat z :: acc
      else digitsOfAux f (z / 10) (Z.to_nat (z mod 10) :: acc)
  end.

Definition digitsOf (z : Z) : list nat :=
  digitsOfAux (S (Z.to_nat (Z.log2 z))) z [].

Fixpoint dropZeros (ds : list nat) : list nat :=
  match ds with
  | O :: r => dropZeros r
  | _ => ds
  end.

(** Digits without the trailing zeros: the [s] with the least [k]. *)
Definition stripTrailingZeros (ds : list nat) : list nat :=
  rev (dropZeros (rev ds)).

(** The Number holding the integer [z]. *)
Definition numOfZ (z : Z) : Num :=
  if z =? 0 then NumZero
  else
    let ds := digitsOf (Z.abs z) in
    NumFinite (z <? 0) (stripTrailingZeros ds) (Z.of_nat (length ds)).

Definition valueOfNumber (a : JsNumber) : JsValue :=
  match a with
  | None => JsNum NumNaN
  | Some z => JsNum (numOfZ z)
  end.

(** [Number::toString] for radix ten (ECMA-262, 6.1.6.1.20), on the digits
    [ds] and exponent [n] of a positive finite value. *)
Definition finiteToString (ds : list nat) (n : Z) : string :=
  let k := Z.of_nat (length ds) in
  if (k <=? n) && (n <=? 21) then
    digitString (ds ++ zeros (Z.to_nat (n - k)))
  else if (0 <? n) && (n <=? 21) then
    digitString (firstn (Z.to_nat n) ds) +:+ "." +:+ digitString (skipn (Z.to_nat n) ds)
  else if (-6 <? n) && (n <=? 0) then
    "0." +:+ digitString (zeros (Z.to_nat (- n)) ++ ds)
  else
    let e := n - 1 in
    let expo := (if e <? 0 then "-" else "+") +:+ digitString (digitsOf (Z.abs e)) in
    match ds with
    | [d] => digitString [d] +:+ "e" +:+ expo
    | _ => digitString (firstn 1 ds) +:+ "." +:+ digitString (skipn 1 ds) +:+ "e" +:+ expo
    end.

Definition numToString (x : Num) : string :=
  match x with
  | NumNaN => "NaN"
  | NumInfinity neg => if neg then "-Infinity" else "Infinity"
  | NumZero => "0"
  | NumFinite neg ds n =>
      if neg then "-" +:+ finiteToString ds n else finiteToString ds n
  end.

Definition toString (v : JsValue) : string :=
  match v with
  | JsUndefined => "undefined"
  | JsNum x => numToString x
  | JsString s => s
  end.

(** White space that [parseInt] skips; only the one-byte code points are
    covered by the byte strings used here. *)
Definition isWhiteSpace (c : ascii) : bool :=
  let n := nat_of_ascii c in
  ((9 <=? n) && (n <=? 13))%nat || (n =? 32)%nat.

Fixpoint trimStart (s : string) : string :=
  match s with
  | String c r => if isWhiteSpace c then trimStart r else s
  | EmptyString => s
  end.

(** Value of a character as a digit of a radix up to 36. *)
Definition digitOfChar (c : ascii) : option Z :=
  let n := nat_of_ascii c in
  if ((48 <=? n) && (n <=? 57))%nat then Some (Z.of_nat n - 48)
  else if ((97 <=? n) && (n <=? 122))%nat then Some (Z.of_nat n - 87)
  else if ((65 <=? n) && (n <=? 90))%nat then Some (Z.of_nat n - 55)
  else None.

(** The longest prefix of radix-[R] digits, as an integer; [acc] is [None]
    as long as no digit was read. *)
Fixpoint parseDigits (R : Z) (s : string) (acc : option Z) : option Z :=
  match s with
  | EmptyString => acc
  | String c r =>
      match digitOfChar c with
      | Some d =>
          if d <? R
          then parseDigits R r (Some (R * (match acc with Some a => a | None => 0 end) + d))
          else acc
      | None => acc
      end
  end.

(** [parseInt(string)] with the radix left undefined (ECMA-262, 19.2.5). *)
Definition parseIntString (input : string) : JsNumber :=
  let s := trimStart input in
  let '(sign, s) :=
    match s with
    | String "-" r => (-1, r)
    | String "+" r => (1, r)
    | _ => (1, s)
    end in
  let '(R, s) :=
    match s with
    | String "0" (String "x" r) => (16, r)
    | String "0" (String "X" r) => (16, r)
    | _ => (10, s)
    end in
  match parseDigits R s None with
  | None => None
  | Some m => Some (sign * m)
  end.

Definition parseInt (v : JsValue) : JsNumber := parseIntString (toString v).

(** Truncation toward zero of the real value of a finite Number. *)
Definition truncFinite (neg : bool) (ds : list nat) (n : Z) : Z :=
  let k := Z.of_nat (length ds) in
  let s := digitsValue 0 ds in
  let m := if k <=? n then s * 10 ^ (n - k) else s / 10 ^ (k - n) in
  if neg then - m else m.

(** The digit sequences [Number::toString] works on. *)
Definition wfDigits (ds : list nat) : Prop :=
  ds <> [] /\ Forall (fun d => (d < 10)%nat) ds /\ hd 0%nat ds <> 0%nat.

(** [Number.MAX_SAFE_INTEGER] and [Number.isSafeInteger]: the Number is an
    integer, as every [Z] is, of magnitude 2^53 - 1 at most.  On safe integers
    with a safe result the sums, differences and products of [Z] are those of
    JavaScript, and [parseInt] returns the integer it reads; beyond them
    JavaScript rounds to the nearest double, which the integers of this file
    do not.  A statement that depends on the value of such a result carries
    the bound. *)
Definition MAX_SAFE_INTEGER : Z := 2 ^ 53 - 1.

Definition safeInteger (z : Z) : Prop := Z.abs z <= MAX_SAFE_INTEGER.


Definition accValue (acc : option Z) : Z :=
  match acc with Some a => a | None => 0 end.

(** What ends a run of decimal digits. *)
Definition stops (rest : string) : Prop :=
  forall acc, parseDigits 10 rest acc = acc.

End JS.

Import JS.

(* ===================================================================== *)
(** ** Outcomes and the effect monad                                      *)
(* ===================================================================== *)

(** What a collaborator call gives back: a value, or an exception carrying
    the collaborator's message. *)
Inductive ExtResult (A : Type) :=
| ExtOk (a : A)
| ExtThrow (msg : string).
Arguments ExtOk {A} a.
Arguments ExtThrow {A} msg.

(** The errors wallet.ts constructs itself, each at one [throw] site, the
    run-time error of reading a property of [undefined], and the exceptions
    that come out of collaborators. *)
Inductive WalletError :=
| SyncAlreadyRunning
| FeeMaxBelowMinimum (networkFeeMax dataFee : Z)
| MaxNetworkFeeExceeded (dataFee networkFeeMax : Z)
| MinimumFeeRequired (dataFee : Z)
| MassLimitReached
| TypeError (what : string)
| External (msg : string).

(** How a method call ends.  [Blocked]: it awaits a promise that is not
    settled.  [OutOfFuel]: a loop or recursion without a bound in the source
    was cut off by the fuel of the model. *)
Inductive Outcome (A : Type) :=
| Ok (a : A)
| Throw (e : WalletError)
| Blocked
| OutOfFuel.
Arguments Ok {A} a.
Arguments Throw {A} e.
Arguments Blocked {A}.
Arguments OutOfFuel {A}.

Module Run.

Definition M (S A : Type) : Type := S -> Outcome A * S.

Definition ret {S A} (a : A) : M S A := fun s => (Ok a, s).

Definition bind {S A B} (m : M S A) (k : A -> M S B) : M S B :=
  fun s =>
    match m s with
    | (Ok a, s') => k a s'
    | (Throw e, s') => (Throw e, s')
    | (Blocked, s') => (Blocked, s')
    | (OutOfFuel, s') => (OutOfFuel, s')
    end.

Definition throw {S A} (e : WalletError) : M S A := fun s => (Throw e, s).

Definition blocked {S A} : M S A := fun s => (Blocked, s).

Definition outOfFuel {S A} : M S A := fun s => (OutOfFuel, s).

Definition gets {S A} (f : S -> A) : M S A := fun s => (Ok (f s), s).

Definition modify {S} (f : S -> S) : M S unit := fun s => (Ok tt, f s).

(** [try { m } catch (e) { h e }]: only an exception is caught. *)
Definition tryCatch {S A} (m : M S A) (h : WalletError -> M S A) : M S A :=
  fun s =>
    match m s with
    | (Throw e, s') => h e s'
    | r => r
    end.

(** The value or exception of a collaborator, inside the wallet. *)
Definition liftExt {S A} (r : ExtResult A) : M S A :=
  match r with
  | ExtOk a => ret a
  | ExtThrow msg => throw (External msg)
  end.

Definition when {S} (b : bool) (m : M S unit) : M S unit :=
  if b then m else ret tt.

End Run.

Declare Scope run_scope.
Delimit Scope run_scope with run.
Notation "x <- m ;; k" := (Run.bind m (fun x => k))
  (at level 100, m at next level, right associativity) : run_scope.
Notation "m ;;; k" := (Run.bind m (fun _ => k))
  (at level 100, right associativity) : run_scope.

(* ===================================================================== *)
(** ** Data                                                               *)
(* ===================================================================== *)

(** The request and reply shapes of the RPC layer (types/custom-types). *)
Module RPC.

Record Outpoint := { transactionId : string; index : Z }.

Record ScriptPublicKey := { spk_version : Z; scriptPublicKey : string }.

Record TransactionInput := {
  previousOutpoint : Outpoint;
  signatureScript : string;
  sequence : Z }.

Record TransactionOutput := {
  amount : Z;
  out_scriptPublicKey : ScriptPublicKey }.

Record Transaction := {
  version : Z;
  inputs : list TransactionInput;
  outputs : list TransactionOutput;
  lockTime : Z;
  payloadHash : string;
  subnetworkId : string;
  fee : JsNumber }.

Record SubmitTransactionRequest := { transaction : Transaction }.

End RPC.

(** An entry the node lists for an address. *)
Record ApiUtxo := { api_transactionId : string; api_index : Z; api_amount : Z }.

(** An unspent output held by the UTXO set. *)
Record UnspentOutput := {
  uo_txId : string;
  uo_outputIndex : Z;
  uo_address : string;
  uo_satoshis : Z;
  uo_script : string }.

(** Inputs and outputs of a kaspacore transaction, as wallet.ts reads them;
    identifiers and scripts are byte buffers. *)
Record TxInput := {
  prevTxId : string;
  outputIndex : Z;
  in_script : string;
  sequenceNumber : Z }.

Record TxOutput := { satoshis : Z; out_script : string }.

Inductive DeriveType := Receive | Change.

(** Result of [selectUtxos]; [collectUtxos] adds the aggregated amount. *)
Record Selection := {
  sel_utxos : list UnspentOutput;
  sel_utxoIds : list string;
  sel_mass : Z }.

(** [TxSend], once with the fields as the TypeScript type declares them
    ([V := JsNumber]) and once as [composeTx] treats them ([V := JsValue]).
    With [V := JsNumber] an amount or fee is an integer of sompi or NaN: a
    request with a fractional amount or fee has no counterpart here. *)
Record TxSend (V : Type) := {
  toAddr : string;
  amount : V;
  fee : V;
  changeAddrOverride : option string;
  skipSign : option bool;
  privKeysInfo : option bool;
  compoundingUTXO : bool;
  compoundingUTXOMaxCount : option Z;
  networkFeeMax : option Z;
  calculateNetworkFee : bool;
  inclusiveFee : bool;
  skipUTXOInUseMark : bool;
  note : option string }.
Arguments toAddr {V} _.
Arguments amount {V} _.
Arguments fee {V} _.
Arguments changeAddrOverride {V} _.
Arguments skipSign {V} _.
Arguments privKeysInfo {V} _.
Arguments compoundingUTXO {V} _.
Arguments compoundingUTXOMaxCount {V} _.
Arguments networkFeeMax {V} _.
Arguments calculateNetworkFee {V} _.
Arguments inclusiveFee {V} _.
Arguments skipUTXOInUseMark {V} _.
Arguments note {V} _.

Record WalletOpt := {
  skipSyncBalance : bool;
  opt_syncOnce : bool;
  addressDiscoveryExtent : Z;
  disableAddressDerivation : bool }.

Record WalletCache := {
  cache_inUse : list string;
  receiveCounter : Z;
  changeCounter : Z }.

(** The events wallet.ts emits with [this.emit]. *)
Inductive Event :=
| SyncStart
| SyncFinish
| Ready (available pending total confirmedUtxosCount : Z)
| BalanceUpdate (available pending total : Z)
| BlueScoreChanged (blueScore : Z)
| NewAddress (receive change : option string)
| StateUpdate (cache : WalletCache)
| DebugInfo (satoshis count : Z).

Record TxStoreEntry := {
  tse_in : bool;
  tse_ts : Z;
  tse_id : string;
  tse_amount : JsNumber;
  tse_address : string;
  tse_note : string;
  tse_blueScore : Z;
  tse_tx : RPC.Transaction;
  tse_myAddress : bool }.

Definition COMPOUND_UTXO_MAX_COUNT : Z := 500.
Definition MaxMassAcceptedByBlock : Z := 500000.

(* ===================================================================== *)
(** ** The wallet and its collaborators                                   *)
(* ===================================================================== *)

(** State of the objects wallet.ts holds but does not implement. *)
Class Carriers := {
  HDKey : Type;          (* kaspacore.HDPrivateKey *)
  PrivKey : Type;        (* kaspacore.PrivateKey *)
  KTransaction : Type;   (* kaspacore.Transaction *)
  AM : Type;             (* AddressManager *)
  US : Type;             (* UtxoSet.utxos: the confirmed, pending and used maps *)
  TS : Type;             (* TXStore *)
  API : Type             (* KaspaAPI and the node behind it *)
}.

(** The part of the UTXO set wallet.ts reads and writes directly, next to the
    maps the set keeps for itself. *)
Record UtxoSet `{Carriers} := {
  inUse : list string;
  utxoStorage : gmap string (list ApiUtxo);
  utxos : US }.

Record Wallet `{Carriers} := mkWallet {
  HDWallet : HDKey;
  network : string;
  defaultFee : Z;                              (* sompi per byte, an integer *)
  loggerLevel : Z;
  options : WalletOpt;
  clock : Z;                                   (* what Date.now() returns *)
  blueScore : Z;
  syncVirtualSelectedParentBlueScoreStarted : bool;
  syncInProggress : bool;
  syncOnce : option bool;                      (* undefined before the first sync *)
  syncSignal : option bool;                    (* undefined, or a Deferred: resolved? *)
  connectSignal : bool;                        (* the Deferred is resolved *)
  addressManagerInitialized : bool;
  disableBalanceNotifications : bool;
  balanceConfirmed : Z;
  balancePending : Z;
  lastBalanceNotification : Z * Z;
  lastAddressNotification : option string * option string;
  debugInfo : Z * Z;                           (* inUseUTXOs: satoshis, count *)
  addressManager : AM;
  utxoSet : UtxoSet;
  txStore : TS;
  api : API;
  emitted : list Event }.

Section Setters.
Context `{Carriers}.

Definition set_inUse (v : list string) (u : UtxoSet) : UtxoSet :=
  {| inUse := v; utxoStorage := utxoStorage u; utxos := utxos u |}.

Definition set_utxoStorage (v : gmap string (list ApiUtxo)) (u : UtxoSet) : UtxoSet :=
  {| inUse := inUse u; utxoStorage := v; utxos := utxos u |}.

Definition set_utxos (v : US) (u : UtxoSet) : UtxoSet :=
  {| inUse := inUse u; utxoStorage := utxoStorage u; utxos := v |}.

Definition set_blueScore (v : _) (w : Wallet) : Wallet :=
  {| HDWallet := HDWallet w; network := network w; defaultFee := defaultFee w;
     loggerLevel := loggerLevel w; options := options w; clock := clock w; blueScore := v;
     syncVirtualSelectedParentBlueScoreStarted := syncVirtualSelectedParentBlueScoreStarted w;
     syncInProggress := syncInProggress w; syncOnce := syncOnce w;
     syncSignal := syncSignal w; connectSignal := connectSignal w;
     addressManagerInitialized := addressManagerInitialized w;
     disableBalanceNotifications := disableBalanceNotifications w;
     balanceConfirmed := balanceConfirmed w; balancePending := balancePending w;
     lastBalanceNotification := lastBalanceNotification w;
     lastAddressNotification := lastAddressNotification w; debugInfo := debugInfo w;
     addressManager := addressManager w; utxoSet := utxoSet w; txStore := txStore w;
     api := api w; emitted := emitted w |}.

Definition set_syncVirtualSelectedParentBlueScoreStarted (v : _) (w : Wallet) : Wallet :=
  {| HDWallet := HDWallet w; network := network w; defaultFee := defaultFee w;
     loggerLevel := loggerLevel w; options := options w; clock := clock w;
     blueScore := blueScore w; syncVirtualSelectedParentBlueScoreStarted := v;
     syncInProggress := syncInProggress w; syncOnce := syncOnce w;
     syncSignal := syncSignal w; connectSignal := connectSignal w;
     addressManagerInitialized := addressManagerInitialized w;
     disableBalanceNotifications := disableBalanceNotifications w;
     balanceConfirmed := balanceConfirmed w; balancePending := balancePending w;
     lastBalanceNotification := lastBalanceNotification w;
     lastAddressNotification := lastAddressNotification w; debugInfo := debugInfo w;
     addressManager := addressManager w; utxoSet := utxoSet w; txStore := txStore w;
     api := api w; emitted := emitted w |}.

Definition set_syncInProggress (v : _) (w : Wallet) : Wallet :=
  {| HDWallet := HDWallet w; network := network w; defaultFee := defaultFee w;
     loggerLevel := loggerLevel w; options := options w; clock := clock w;
     blueScore := blueScore w;
     syncVirtualSelectedParentBlueScoreStarted := syncVirtualSelectedParentBlueScoreStarted w;
     syncInProggress := v; syncOnce := syncOnce w; syncSignal := syncSignal w;
     connectSignal := connectSignal w;
     addressManagerInitialized := addressManagerInitialized w;
     disableBalanceNotifications := disableBalanceNotifications w;
     balanceConfirmed := balanceConfirmed w; balancePending := balancePending w;
     lastBalanceNotification := lastBalanceNotification w;
     lastAddressNotification := lastAddressNotification w; debugInfo := debugInfo w;
     addressManager := addressManager w; utxoSet := utxoSet w; txStore := txStore w;
     api := api w; emitted := emitted w |}.

Definition set_syncOnce (v : _) (w : Wallet) : Wallet :=
  {| HDWallet := HDWallet w; network := network w; defaultFee := defaultFee w;
     loggerLevel := loggerLevel w; options := options w; clock := clock w;
     blueScore := blueScore w;
     syncVirtualSelectedParentBlueScoreStarted := syncVirtualSelectedParentBlueScoreStarted w;
     syncInProggress := syncInProggress w; syncOnce := v; syncSignal := syncSignal w;
     connectSignal := connectSignal w;
     addressManagerInitialized := addressManagerInitialized w;
     disableBalanceNotifications := disableBalanceNotifications w;
     balanceConfirmed := balanceConfirmed w; balancePending := balancePending w;
     lastBalanceNotification := lastBalanceNotification w;
     lastAddressNotification := lastAddressNotification w; debugInfo := debugInfo w;
     addressManager := addressManager w; utxoSet := utxoSet w; txStore := txStore w;
     api := api w; emitted := emitted w |}.

Definition set_syncSignal (v : _) (w : Wallet) : Wallet :=
  {| HDWallet := HDWallet w; network := network w; defaultFee := defaultFee w;
     loggerLevel := loggerLevel w; options := options w; clock := clock w;
     blueScore := blueScore w;
     syncVirtualSelectedParentBlueScoreStarted := syncVirtualSelectedParentBlueScoreStarted w;
     syncInProggress := syncInProggress w; syncOnce := syncOnce w; syncSignal := v;
     connectSignal := connectSignal w;
     addressManagerInitialized := addressManagerInitialized w;
     disableBalanceNotifications := disableBalanceNotifications w;
     balanceConfirmed := balanceConfirmed w; balancePending := balancePending w;
     lastBalanceNotification := lastBalanceNotification w;
     lastAddressNotification := lastAddressNotification w; debugInfo := debugInfo w;
     addressManager := addressManager w; utxoSet := utxoSet w; txStore := txStore w;
     api := api w; emitted := emitted w |}.

Definition set_addressManagerInitialized (v : _) (w : Wallet) : Wallet :=
  {| HDWallet := HDWallet w; network := network w; defaultFee := defaultFee w;
     loggerLevel := loggerLevel w; options := options w; clock := clock w;
     blueScore := blueScore w;
     syncVirtualSelectedParentBlueScoreStarted := syncVirtualSelectedParentBlueScoreStarted w;
     syncInProggress := syncInProggress w; syncOnce := syncOnce w;
     syncSignal := syncSignal w; connectSignal := connectSignal w;
     addressManagerInitialized := v;
     disableBalanceNotifications := disableBalanceNotifications w;
     balanceConfirmed := balanceConfirmed w; balancePending := balancePending w;
     lastBalanceNotification := lastBalanceNotification w;
     lastAddressNotification := lastAddressNotification w; debugInfo := debugInfo w;
     addressManager := addressManager w; utxoSet := utxoSet w; txStore := txStore w;
     api := api w; emitted := emitted w |}.

Definition set_disableBalanceNotifications (v : _) (w : Wallet) : Wallet :=
  {| HDWallet := HDWallet w; network := network w; defaultFee := defaultFee w;
     loggerLevel := loggerLevel w; options := options w; clock := clock w;
     blueScore := blueScore w;
     syncVirtualSelectedParentBlueScoreStarted := syncVirtualSelectedParentBlueScoreStarted w;
     syncInProggress := syncInProggress w; syncOnce := syncOnce w;
     syncSignal := syncSignal w; connectSignal := connectSignal w;
     addressManagerInitialized := addressManagerInitialized w;
     disableBalanceNotifications := v; balanceConfirmed := balanceConfirmed w;
     balancePending := balancePending w;
     lastBalanceNotification := lastBalanceNotification w;
     lastAddressNotification := lastAddressNotification w; debugInfo := debugInfo w;
     addressManager := addressManager w; utxoSet := utxoSet w; txStore := txStore w;
     api := api w; emitted := emitted w |}.

Definition set_lastBalanceNotification (v : _) (w : Wallet) : Wallet :=
  {| HDWallet := HDWallet w; network := network w; defaultFee := defaultFee w;
     loggerLevel := loggerLevel w; options := options w; clock := clock w;
     blueScore := blueScore w;
     syncVirtualSelectedParentBlueScoreStarted := syncVirtualSelectedParentBlueScoreStarted w;
     syncInProggress := syncInProggress w; syncOnce := syncOnce w;
     syncSignal := syncSignal w; connectSignal := connectSignal w;
     addressManagerInitialized := addressManagerInitialized w;
     disableBalanceNotifications := disableBalanceNotifications w;
     balanceConfirmed := balanceConfirmed w; balancePending := balancePending w;
     lastBalanceNotification := v; lastAddressNotification := lastAddressNotification w;
     debugInfo := debugInfo w; addressManager := addressManager w; utxoSet := utxoSet w;
     txStore := txStore w; api := api w; emitted := emitted w |}.

Definition set_lastAddressNotification (v : _) (w : Wallet) : Wallet :=
  {| HDWallet := HDWallet w; network := network w; defaultFee := defaultFee w;
     loggerLevel := loggerLevel w; options := options w; clock := clock w;
     blueScore := blueScore w;
     syncVirtualSelectedParentBlueScoreStarted := syncVirtualSelectedParentBlueScoreStarted w;
     syncInProggress := syncInProggress w; syncOnce := syncOnce w;
     syncSignal := syncSignal w; connectSignal := connectSignal w;
     addressManagerInitialized := addressManagerInitialized w;
     disableBalanceNotifications := disableBalanceNotifications w;
     balanceConfirmed := balanceConfirmed w; balancePending := balancePending w;
     lastBalanceNotification := lastBalanceNotification w; lastAddressNotification := v;
     debugInfo := debugInfo w; addressManager := addressManager w; utxoSet := utxoSet w;
     txStore := txStore w; api := api w; emitted := emitted w |}.

Definition set_debugInfo (v : _) (w : Wallet) : Wallet :=
  {| HDWallet := HDWallet w; network := network w; defaultFee := defaultFee w;
     loggerLevel := loggerLevel w; options := options w; clock := clock w;
     blueScore := blueScore w;
     syncVirtualSelectedParentBlueScoreStarted := syncVirtualSelectedParentBlueScoreStarted w;
     syncInProggress := syncInProggress w; syncOnce := syncOnce w;
     syncSignal := syncSignal w; connectSignal := connectSignal w;
     addressManagerInitialized := addressManagerInitialized w;
     disableBalanceNotifications := disableBalanceNotifications w;
     balanceConfirmed := balanceConfirmed w; balancePending := balancePending w;
     lastBalanceNotification := lastBalanceNotification w;
     lastAddressNotification := lastAddressNotification w; debugInfo := v;
     addressManager := addressManager w; utxoSet := utxoSet w; txStore := txStore w;
     api := api w; emitted := emitted w |}.

Definition set_addressManager (v : _) (w : Wallet) : Wallet :=
  {| HDWallet := HDWallet w; network := network w; defaultFee := defaultFee w;
     loggerLevel := loggerLevel w; options := options w; clock := clock w;
     blueScore := blueScore w;
     syncVirtualSelectedParentBlueScoreStarted := syncVirtualSelectedParentBlueScoreStarted w;
     syncInProggress := syncInProggress w; syncOnce := syncOnce w;
     syncSignal := syncSignal w; connectSignal := connectSignal w;
     addressManagerInitialized := addressManagerInitialized w;
     disableBalanceNotifications := disableBalanceNotifications w;
     balanceConfirmed := balanceConfirmed w; balancePending := balancePending w;
     lastBalanceNotification := lastBalanceNotification w;
     lastAddressNotification := lastAddressNotification w; debugInfo := debugInfo w;
     addressManager := v; utxoSet := utxoSet w; txStore := txStore w; api := api w;
     emitted := emitted w |}.

Definition set_utxoSet (v : _) (w : Wallet) : Wallet :=
  {| HDWallet := HDWallet w; network := network w; defaultFee := defaultFee w;
     loggerLevel := loggerLevel w; options := options w; clock := clock w;
     blueScore := blueScore w;
     syncVirtualSelectedParentBlueScoreStarted := syncVirtualSelectedParentBlueScoreStarted w;
     syncInProggress := syncInProggress w; syncOnce := syncOnce w;
     syncSignal := syncSignal w; connectSignal := connectSignal w;
     addressManagerInitialized := addressManagerInitialized w;
     disableBalanceNotifications := disableBalanceNotifications w;
     balanceConfirmed := balanceConfirmed w; balancePending := balancePending w;
     lastBalanceNotification := lastBalanceNotification w;
     lastAddressNotification := lastAddressNotification w; debugInfo := debugInfo w;
     addressManager := addressManager w; utxoSet := v; txStore := txStore w; api := api w;
     emitted := emitted w |}.

Definition set_txStore (v : _) (w : Wallet) : Wallet :=
  {| HDWallet := HDWallet w; network := network w; defaultFee := defaultFee w;
     loggerLevel := loggerLevel w; options := options w; clock := clock w;
     blueScore := blueScore w;
     syncVirtualSelectedParentBlueScoreStarted := syncVirtualSelectedParentBlueScoreStarted w;
     syncInProggress := syncInProggress w; syncOnce := syncOnce w;
     syncSignal := syncSignal w; connectSignal := connectSignal w;
     addressManagerInitialized := addressManagerInitialized w;
     disableBalanceNotifications := disableBalanceNotifications w;
     balanceConfirmed := balanceConfirmed w; balancePending := balancePending w;
     lastBalanceNotification := lastBalanceNotification w;
     lastAddressNotification := lastAddressNotification w; debugInfo := debugInfo w;
     addressManager := addressManager w; utxoSet := utxoSet w; txStore := v; api := api w;
     emitted := emitted w |}.

Definition set_api (v : _) (w : Wallet) : Wallet :=
  {| HDWallet := HDWallet w; network := network w; defaultFee := defaultFee w;
     loggerLevel := loggerLevel w; options := options w; clock := clock w;
     blueScore := blueScore w;
     syncVirtualSelectedParentBlueScoreStarted := syncVirtualSelectedParentBlueScoreStarted w;
     syncInProggress := syncInProggress w; syncOnce := syncOnce w;
     syncSignal := syncSignal w; connectSignal := connectSignal w;
     addressManagerInitialized := addressManagerInitialized w;
     disableBalanceNotifications := disableBalanceNotifications w;
     balanceConfirmed := balanceConfirmed w; balancePending := balancePending w;
     lastBalanceNotification := lastBalanceNotification w;
     lastAddressNotification := lastAddressNotification w; debugInfo := debugInfo w;
     addressManager := addressManager w; utxoSet := utxoSet w; txStore := txStore w;
     api := v; emitted := emitted w |}.

Definition set_emitted (v : _) (w : Wallet) : Wallet :=
  {| HDWallet := HDWallet w; network := network w; defaultFee := defaultFee w;
     loggerLevel := loggerLevel w; options := options w; clock := clock w;
     blueScore := blueScore w;
     syncVirtualSelectedParentBlueScoreStarted := syncVirtualSelectedParentBlueScoreStarted w;
     syncInProggress := syncInProggress w; syncOnce := syncOnce w;
     syncSignal := syncSignal w; connectSignal := connectSignal w;
     addressManagerInitialized := addressManagerInitialized w;
     disableBalanceNotifications := disableBalanceNotifications w;
     balanceConfirmed := balanceConfirmed w; balancePending := balancePending w;
     lastBalanceNotification := lastBalanceNotification w;
     lastAddressNotification := lastAddressNotification w; debugInfo := debugInfo w;
     addressManager := addressManager w; utxoSet := utxoSet w; txStore := txStore w;
     api := api w; emitted := v |}.

End Setters.

(** The operations of the collaborators, as wallet.ts calls them.  A method
    of the UTXO set or of the transaction store that reaches back into the
    wallet it was constructed with (balance slots, events) acts on the whole
    wallet; the others act on the state of their own object. *)
Class Collaborators `{Carriers} := {
  (* kaspacore *)
  deriveChild : HDKey -> string -> PrivKey;
  toAddress : PrivKey -> string -> string;
  txAssemble : list UnspentOutput -> string -> JsNumber -> JsNumber -> string ->
               ExtResult KTransaction;
  txSign : list (option PrivKey) -> KTransaction -> ExtResult KTransaction;
  txId : KTransaction -> string;
  txToString : KTransaction -> string;
  txBufferLength : KTransaction -> bool -> Z;
  txInputs : KTransaction -> list TxInput;
  txOutputs : KTransaction -> list TxOutput;
  txVersion : KTransaction -> Z;
  txLockTime : KTransaction -> Z;
  txGetMass : KTransaction -> Z;
  (* utils/helper and config.json *)
  createHash : option string -> string;
  KAS : Z -> string;
  DEFAULT_FEE : JsValue;
  (* AddressManager *)
  am_getAddresses : Z -> DeriveType -> Z -> AM -> list (Z * string) * AM;
  am_current : DeriveType -> AM -> option string;
  am_next : DeriveType -> AM -> string * AM;
  am_reverse : DeriveType -> AM -> AM;
  am_advance : DeriveType -> Z -> AM -> AM;
  am_all : AM -> string -> option PrivKey;
  am_isOur : AM -> string -> bool;
  am_counter : DeriveType -> AM -> Z;
  (* UtxoSet *)
  us_selectUtxos : UtxoSet -> JsNumber -> ExtResult Selection;
  us_collectUtxos : UtxoSet -> Z -> ExtResult (Selection * Z);
  us_updateUsed : list UnspentOutput -> Wallet -> Wallet;
  us_confirmed : US -> string -> option UnspentOutput;
  us_pending : US -> string -> option UnspentOutput;
  us_used : US -> string -> option UnspentOutput;
  us_count : UtxoSet -> Z;
  us_confirmedCount : UtxoSet -> Z;
  us_add : list ApiUtxo -> string -> Wallet -> Wallet;
  us_updateUtxoBalance : Wallet -> Wallet;
  us_syncAddressesUtxos : list (option string) -> Wallet -> Wallet;
  us_utxoSubscribe : Wallet -> ExtResult unit * Wallet;
  us_clearMissing : Wallet -> bool * Wallet;
  (* TXStore *)
  ts_add : TxStoreEntry -> TS -> TS;
  ts_emitTxs : Wallet -> Wallet;
  (* KaspaAPI *)
  api_getUtxosByAddresses : list string -> API -> ExtResult (list (string * list ApiUtxo)) * API;
  api_submitTransaction : RPC.SubmitTransactionRequest -> API -> ExtResult (option string) * API;
  api_getVirtualSelectedParentBlueScore : API -> ExtResult Z * API;
  api_subscribeVirtualSelectedParentBlueScoreChanged : API -> API
}.

(** The text of each error, as the [throw] sites build it. *)
Definition errorMessage `{Collaborators} (e : WalletError) : string :=
  match e with
  | SyncAlreadyRunning => "Wallet sync process already running."
  | FeeMaxBelowMinimum m d =>
      "Fee max is " +:+ numToString (numOfZ m) +:+ " but the minimum fee required for this transaction is "
      +:+ KAS d +:+ " KAS"
  | MaxNetworkFeeExceeded d m =>
      "Maximum network fee exceeded; need: " +:+ KAS d +:+ " KAS maximum is: " +:+ KAS m +:+ " KAS"
  | MinimumFeeRequired d =>
      "Minimum fee required for this transaction is " +:+ KAS d +:+ " KAS"
  | MassLimitReached =>
      "Transaction size/mass limit reached. Please reduce this transaction amount."
  | TypeError what => what
  | External msg => msg
  end.

(* ===================================================================== *)
(** ** The methods of [Wallet]                                            *)
(* ===================================================================== *)

Section Methods.
Context `{Co : Collaborators}.
Import Run.
Local Open Scope run_scope.

(** *** JavaScript idioms *)

(** [!!s] for a string that may be undefined. *)
Definition truthyString (s : option string) : bool :=
  match s with
  | Some t => negb (String.eqb t EmptyString)
  | None => false
  end.

(** [a == b] for strings that may be undefined. *)
Definition looseEqString (a b : option string) : bool :=
  match a, b with
  | Some x, Some y => String.eqb x y
  | None, None => true
  | _, _ => false
  end.

(** [x || alt] for a number that may be undefined. *)
Definition orNumber (x : option Z) (alt : Z) : Z :=
  match x with
  | Some v => if v =? 0 then alt else v
  | None => alt
  end.

(** [obj[key]] takes the key as a string. *)
Definition propertyKey (s : option string) : string :=
  match s with
  | Some t => t
  | None => "undefined"
  end.

(** [s.split(c)] for a one-character separator. *)
Fixpoint split (sep : ascii) (s : string) : list string :=
  match s with
  | EmptyString => [EmptyString]
  | String c r =>
      if Ascii.eqb c sep then EmptyString :: split sep r
      else match split sep r with
           | h :: t => String c h :: t
           | [] => [String c EmptyString]
           end
  end.

(** *** Access to the collaborators *)

Definition emit (e : Event) : M Wallet unit :=
  modify (fun w => set_emitted (emitted w ++ [e]) w).

Definition onAddressManager {A} (f : AM -> A * AM) : M Wallet A :=
  fun w => let '(a, am) := f (addressManager w) in (Ok a, set_addressManager am w).

Definition onApi {A} (f : API -> ExtResult A * API) : M Wallet A :=
  fun w => let '(r, a) := f (api w) in liftExt r (set_api a w).

Definition receiveAddress (w : Wallet) : option string :=
  am_current Receive (addressManager w).

Definition changeAddress (w : Wallet) : option string :=
  am_current Change (addressManager w).

(** *** createUID *)

Definition uidPath : string := "m/44'/972/0'/1'/0'".

Definition createUID (w : Wallet) : string :=
  let privateKey := deriveChild (HDWallet w) uidPath in
  let address := nth_error (split ":" (toAddress privateKey (network w))) 1 in
  createHash address.

(** *** Notifications *)

Definition emitBalance : M Wallet unit :=
  available <- gets balanceConfirmed ;;
  pending <- gets balancePending ;;
  last <- gets lastBalanceNotification ;;
  if (available =? fst last) && (pending =? snd last) then ret tt
  else
    modify (set_lastBalanceNotification (available, pending)) ;;;
    emit (BalanceUpdate available pending (available + pending)).

Definition emitAddress : M Wallet unit :=
  receive <- gets receiveAddress ;;
  change <- gets changeAddress ;;
  last <- gets lastAddressNotification ;;
  if looseEqString receive (fst last) && looseEqString change (snd last) then ret tt
  else
    modify (set_lastAddressNotification (receive, change)) ;;;
    emit (NewAddress receive change).

Definition updateDebugInfo : M Wallet unit :=
  u <- gets utxoSet ;;
  let satoshisOf (utxoId : string) : Z :=
    orNumber (uo_satoshis <$> us_confirmed (utxos u) utxoId)
      (orNumber (uo_satoshis <$> us_pending (utxos u) utxoId)
         (orNumber (uo_satoshis <$> us_used (utxos u) utxoId) 0)) in
  let total := fold_left (fun acc utxoId => acc + satoshisOf utxoId) (inUse u) 0 in
  let count := Z.of_nat (length (inUse u)) in
  modify (set_debugInfo (total, count)) ;;;
  emit (DebugInfo total count).

Definition cache (w : Wallet) : WalletCache :=
  {| cache_inUse := inUse (utxoSet w);
     receiveCounter := am_counter Receive (addressManager w);
     changeCounter := am_counter Change (addressManager w) |}.

Definition emitCache : M Wallet unit :=
  c <- gets cache ;;
  emit (StateUpdate c).

(** *** Address discovery *)

(** The loop of [findUtxos] over the entries the node returned. *)
Fixpoint storeUtxos (utxosMap : list (string * list ApiUtxo)) (addressesWithUTXOs : list string)
  : M Wallet (list string) :=
  match utxosMap with
  | [] => ret addressesWithUTXOs
  | (address, us) :: rest =>
      if (length us =? 0)%nat then storeUtxos rest addressesWithUTXOs
      else
        modify (set_disableBalanceNotifications true) ;;;
        modify (fun w =>
          set_utxoSet (set_utxoStorage (<[address := us]> (utxoStorage (utxoSet w))) (utxoSet w)) w) ;;;
        modify (us_add us address) ;;;
        modify (set_disableBalanceNotifications false) ;;;
        emitBalance ;;;
        storeUtxos rest (addressesWithUTXOs ++ [address])
  end.

(** [findUtxos]; the map built for the debug mode is the only thing left
    out.  Returns [addressesWithUTXOs]. *)
Definition findUtxos (addresses : list string) : M Wallet (list string) :=
  utxosMap <- onApi (api_getUtxosByAddresses addresses) ;;
  addressesWithUTXOs <- storeUtxos utxosMap [] ;;
  w <- gets id ;;
  let isActivityOnReceiveAddr :=
    bool_decide (is_Some (utxoStorage (utxoSet w) !! propertyKey (receiveAddress w))) in
  (if isActivityOnReceiveAddr
   then (_ <- onAddressManager (am_next Receive) ;; ret tt)
   else ret tt) ;;;
  ret addressesWithUTXOs.

(** The recursive closure [doDiscovery] of [addressDiscovery]; the source
    recurses as long as a window shows activity. *)
Fixpoint doDiscovery (fuel : nat) (threshold n : Z) (deriveType : DeriveType) (offset : Z)
  : M Wallet Z :=
  match fuel with
  | O => outOfFuel
  | S fuel' =>
      derivedAddresses <- onAddressManager (am_getAddresses n deriveType offset) ;;
      let addresses := map snd derivedAddresses in
      (* the log line reads derivedAddresses[0].index *)
      (if (length derivedAddresses =? 0)%nat
       then throw (TypeError "Cannot read properties of undefined (reading 'index')")
       else ret tt) ;;;
      addressesWithUTXOs <- findUtxos addresses ;;
      if (length addressesWithUTXOs =? 0)%nat then
        let lastAddressIndexWithTx := offset - (threshold - n) - 1 in
        ret lastAddressIndexWithTx
      else
        let nAddressesLeft :=
          fold_left (fun prev cur => Z.max prev (fst cur))
            (filter (fun obj => existsb (String.eqb (snd obj)) addressesWithUTXOs) derivedAddresses)
            0 + 1 in
        doDiscovery fuel' threshold nAddressesLeft deriveType (offset + n)
  end.

Definition utxoSubscribe : M Wallet unit :=
  fun w => let '(r, w') := us_utxoSubscribe w in liftExt r w'.

(** [addressDiscovery]; the debug map it resolves to is left out. *)
Definition addressDiscovery (fuel : nat) (threshold : Z) : M Wallet unit :=
  highestReceiveIndex <- doDiscovery fuel threshold threshold Receive 0 ;;
  highestChangeIndex <- doDiscovery fuel threshold threshold Change 0 ;;
  modify (fun w => set_addressManager
                     (am_advance Receive (highestReceiveIndex + 1) (addressManager w)) w) ;;;
  modify (fun w => set_addressManager
                     (am_advance Change (highestChangeIndex + 1) (addressManager w)) w) ;;;
  once <- gets syncOnce ;;
  inProgress <- gets syncInProggress ;;
  when (negb (default false once) && negb inProgress) utxoSubscribe.

(** *** sync *)

Definition initBlueScoreSync (once : bool) : M Wallet unit :=
  started <- gets syncVirtualSelectedParentBlueScoreStarted ;;
  if started then ret tt
  else
    modify (set_syncVirtualSelectedParentBlueScoreStarted true) ;;;
    score <- onApi api_getVirtualSelectedParentBlueScore ;;
    modify (set_blueScore score) ;;;
    emit (BlueScoreChanged score) ;;;
    modify us_updateUtxoBalance ;;;
    if once then modify (set_syncVirtualSelectedParentBlueScoreStarted false)
    else modify (fun w => set_api (api_subscribeVirtualSelectedParentBlueScoreChanged (api w)) w).

(** The listener on [new-address] is registered here; see the note on
    call-backs at the head of the file. *)
Definition initAddressManager : M Wallet unit :=
  initialized <- gets addressManagerInitialized ;;
  if initialized then ret tt
  else
    modify (set_addressManagerInitialized true) ;;;
    receive <- gets receiveAddress ;;
    if truthyString receive then ret tt
    else (_ <- onAddressManager (am_next Receive) ;; ret tt).

(** [sync] from [this.syncOnce = syncOnce] on, after the guard. *)
Definition syncAfterGuard (fuel : nat) (syncOnce' : bool) (opts : WalletOpt) : M Wallet unit :=
  modify (set_syncOnce (Some syncOnce')) ;;;
  initAddressManager ;;;
  tryCatch (initBlueScoreSync syncOnce') (fun _ => ret tt) ;;;
  (if disableAddressDerivation opts
   then (receive <- gets receiveAddress ;; modify (us_syncAddressesUtxos [receive]))
   else tryCatch (addressDiscovery fuel (addressDiscoveryExtent opts)) (fun _ => ret tt)) ;;;
  modify (set_syncInProggress false) ;;;
  when (negb syncOnce') utxoSubscribe ;;;
  emit SyncFinish ;;;
  w <- gets id ;;
  emit (Ready (balanceConfirmed w) (balancePending w)
              (balanceConfirmed w + balancePending w) (us_confirmedCount (utxoSet w))) ;;;
  emitBalance ;;;
  emitAddress ;;;
  modify ts_emitTxs ;;;
  modify (set_syncSignal (Some true)) ;;;
  missing <- (fun w => let '(b, w') := us_clearMissing w in (Ok b, w')) ;;
  when (negb missing) updateDebugInfo.

(** The guard: [this.syncOnce === false && syncOnce]. *)
Definition continuousSyncActive (last : option bool) : bool :=
  match last with
  | Some false => true
  | _ => false
  end.

Definition sync (fuel : nat) (syncOnceArg : option bool) : M Wallet unit :=
  modify (set_syncSignal (Some false)) ;;;
  connected <- gets connectSignal ;;
  if negb connected then blocked
  else
    opts <- gets options ;;
    let syncOnce' := match syncOnceArg with
                     | None => opt_syncOnce opts
                     | Some b => b
                     end in
    modify (set_syncInProggress true) ;;;
    emit SyncStart ;;;
    last <- gets syncOnce ;;
    if continuousSyncActive last && syncOnce'
    then throw SyncAlreadyRunning
    else syncAfterGuard fuel syncOnce' opts.

Definition waitOrSync (fuel : nat) : M Wallet unit :=
  signal <- gets syncSignal ;;
  match signal with
  | Some resolved => if resolved then ret tt else blocked
  | None => sync fuel None
  end.

(** *** composeTx *)

Record ComposeTxInfo := {
  ci_tx : KTransaction;
  ci_id : string;
  ci_rawTx : string;
  ci_utxoIds : list string;
  ci_amount : JsNumber;
  ci_fee : JsNumber;
  ci_utxos : list UnspentOutput;
  ci_toAddr : string;
  ci_privKeys : list (option PrivKey) }.

(** The private keys of the inputs' addresses, as the [reduce] builds them. *)
Definition inputPrivKeys (am : AM) (us : list UnspentOutput) : list (option PrivKey) :=
  fold_left (fun prev cur => am_all am (uo_address cur) :: prev) us [].

(** [amount = parseInt(amount)] and [fee = parseInt(fee)], the latter after
    the default of the parameter list. *)
Definition parsedAmount (p : TxSend JsValue) : JsNumber := parseInt (amount p).

Definition parsedFee (p : TxSend JsValue) : JsNumber :=
  parseInt (match fee p with JsUndefined => DEFAULT_FEE | v => v end).

(** The inputs and the amount the transaction is built for: all the
    collected outputs when compounding, a selection for amount plus fee
    otherwise. *)
Definition selectInputs (p : TxSend JsValue) (u : UtxoSet) : ExtResult (Selection * JsNumber) :=
  let compoundingUTXOMaxCount := default COMPOUND_UTXO_MAX_COUNT (compoundingUTXOMaxCount p) in
  if compoundingUTXO p then
    match us_collectUtxos u compoundingUTXOMaxCount with
    | ExtOk (sel, amount) => ExtOk (sel, Some amount)
    | ExtThrow msg => ExtThrow msg
    end
  else
    match us_selectUtxos u (jsAdd (parsedAmount p) (parsedFee p)) with
    | ExtOk sel => ExtOk (sel, parsedAmount p)
    | ExtThrow msg => ExtThrow msg
    end.

(** The body of the [try] block: assembly, signature, result. *)
Definition assembleTx (p : TxSend JsValue) (sel : Selection) (amount : JsNumber)
    (privKeys : list (option PrivKey)) (changeAddr : string) : ExtResult ComposeTxInfo :=
  let skipSign := default false (skipSign p) in
  let privKeysInfo := default false (privKeysInfo p) in
  match txAssemble (sel_utxos sel) (toAddr p) amount (parsedFee p) changeAddr with
  | ExtThrow msg => ExtThrow msg
  | ExtOk tx =>
      match (if skipSign then ExtOk tx else txSign privKeys tx) with
      | ExtThrow msg => ExtThrow msg
      | ExtOk tx =>
          ExtOk {| ci_tx := tx;
                   ci_id := txId tx;
                   ci_rawTx := txToString tx;
                   ci_utxoIds := sel_utxoIds sel;
                   ci_amount := amount;
                   ci_fee := parsedFee p;
                   ci_utxos := sel_utxos sel;
                   ci_toAddr := toAddr p;
                   ci_privKeys := if privKeysInfo then privKeys else [] |}
      end
  end.

Definition composeTx (p : TxSend JsValue) : M Wallet ComposeTxInfo :=
  w <- gets id ;;
  selected <- liftExt (selectInputs p (utxoSet w)) ;;
  let '(sel, amount) := selected in
  let privKeys := inputPrivKeys (addressManager w) (sel_utxos sel) in
  changeAddr <-
    (if truthyString (changeAddrOverride p)
     then ret (default EmptyString (changeAddrOverride p))
     else onAddressManager (am_next Change)) ;;
  tryCatch
    (liftExt (assembleTx p sel amount privKeys changeAddr))
    (fun e =>
       when (negb (truthyString (changeAddrOverride p)))
            (modify (fun w => set_addressManager (am_reverse Change (addressManager w)) w)) ;;;
       throw e).

(** *** estimateTransaction *)

Record TxInfo := {
  ti_data : ComposeTxInfo;
  dataFee : Z;
  totalAmount : JsNumber;
  txSize : Z;
  ti_note : string }.

(** Serialized length with the calibration for the signatures. *)
Definition calibratedSize (tx : KTransaction) (skipSign : bool) : Z :=
  let size := txBufferLength tx skipSign in
  let inputCount := Z.of_nat (length (txInputs tx)) in
  if skipSign then size + 151 * inputCount else size - inputCount * 2.

(** [txParams] as [composeTx] receives it: the copy of the caller's
    parameters with the current amount and fee. *)
Definition composeParams (p : TxSend JsNumber) (amount : JsNumber) (fee : Z)
    (skipSign privKeysInfo compoundingUTXO : bool) : TxSend JsValue :=
  {| toAddr := toAddr p;
     amount := valueOfNumber amount;
     fee := valueOfNumber (Some fee);
     changeAddrOverride := changeAddrOverride p;
     skipSign := Some skipSign;
     privKeysInfo := Some privKeysInfo;
     compoundingUTXO := compoundingUTXO;
     compoundingUTXOMaxCount := compoundingUTXOMaxCount p;
     networkFeeMax := networkFeeMax p;
     calculateNetworkFee := calculateNetworkFee p;
     inclusiveFee := inclusiveFee p;
     skipUTXOInUseMark := skipUTXOInUseMark p;
     note := note p |}.

(** What the fee computation leaves in its local variables. *)
Record Estimate := {
  es_data : ComposeTxInfo;
  es_txSize : Z;
  es_dataFee : Z;
  es_fee : Z;              (* txParams.fee *)
  es_amount : JsNumber }.  (* txParams.amount *)

(** The [do ... while] loop.  [amount] and [dataFee] are [txParams.amount]
    and [dataFee] on entry of the body. *)
Fixpoint feeLoop (fuel : nat) (p : TxSend JsNumber) (skipSign privKeysInfo inclusiveFee : bool)
    (priorityFee networkFeeMax : Z) (txAmount amount : JsNumber) (dataFee : Z)
  : M Wallet Estimate :=
  match fuel with
  | O => outOfFuel
  | S fuel' =>
      let fee := priorityFee + dataFee in
      let amount := if inclusiveFee then jsSub txAmount (Some fee) else amount in
      data <- composeTx (composeParams p amount fee skipSign privKeysInfo false) ;;
      perByte <- gets defaultFee ;;
      let txSize := calibratedSize (ci_tx data) skipSign in
      let dataFee := txSize * perByte in
      if ((networkFeeMax =? 0) || (fee <=? networkFeeMax)) && (fee <? dataFee + priorityFee)
      then feeLoop fuel' p skipSign privKeysInfo inclusiveFee priorityFee networkFeeMax
                   txAmount amount dataFee
      else ret {| es_data := data; es_txSize := txSize; es_dataFee := dataFee;
                  es_fee := fee; es_amount := amount |}
  end.

Definition estimateTransaction (fuel : nat) (txParamsArg : TxSend JsNumber) : M Wallet TxInfo :=
  waitOrSync fuel ;;;
  let priorityFee := default 0 (fee txParamsArg) in
  let networkFeeMax := orNumber (networkFeeMax txParamsArg) 0 in
  let skipSign := default true (skipSign txParamsArg) in
  let privKeysInfo := default false (privKeysInfo txParamsArg) in
  data <- composeTx (composeParams txParamsArg (amount txParamsArg) priorityFee
                       skipSign privKeysInfo (compoundingUTXO txParamsArg)) ;;
  perByte <- gets defaultFee ;;
  let txSize := calibratedSize (ci_tx data) skipSign in
  let dataFee := txSize * perByte in
  let inclusiveFee := compoundingUTXO txParamsArg || inclusiveFee txParamsArg in
  let calculateNetworkFee := compoundingUTXO txParamsArg || calculateNetworkFee txParamsArg in
  let amount := if compoundingUTXO txParamsArg then ci_amount data else amount txParamsArg in
  let txAmount := amount in
  if negb (networkFeeMax =? 0) && (networkFeeMax <? dataFee)
  then throw (FeeMaxBelowMinimum networkFeeMax dataFee)
  else
    est <-
      (if calculateNetworkFee then
         est <- feeLoop fuel txParamsArg skipSign privKeysInfo inclusiveFee priorityFee
                        networkFeeMax txAmount amount dataFee ;;
         if negb (networkFeeMax =? 0) && (networkFeeMax <? es_fee est)
         then throw (MaxNetworkFeeExceeded (es_dataFee est) networkFeeMax)
         else ret est
       else if priorityFee <? dataFee then throw (MinimumFeeRequired dataFee)
       else if inclusiveFee then
         let amount := jsSub amount (Some priorityFee) in
         data <- composeTx (composeParams txParamsArg amount priorityFee
                              skipSign privKeysInfo false) ;;
         ret {| es_data := data; es_txSize := txSize; es_dataFee := dataFee;
                es_fee := priorityFee; es_amount := amount |}
       else
         ret {| es_data := data; es_txSize := txSize; es_dataFee := dataFee;
                es_fee := priorityFee; es_amount := amount |}) ;;
    ret {| ti_data := es_data est;
           dataFee := es_dataFee est;
           totalAmount := jsAdd (Some (es_fee est)) (es_amount est);
           txSize := es_txSize est;
           ti_note := default EmptyString (note txParamsArg) |}.

(** *** buildTransaction *)

Record BuildTxResult := {
  br_info : TxInfo;
  rpcTX : RPC.SubmitTransactionRequest }.

Definition hexDigit (n : nat) : ascii :=
  if (n <? 10)%nat then ascii_of_nat (48 + n) else ascii_of_nat (87 + n).

(** [buffer.toString("hex")] *)
Fixpoint toHex (buffer : string) : string :=
  match buffer with
  | EmptyString => EmptyString
  | String c r =>
      String (hexDigit (nat_of_ascii c / 16))
        (String (hexDigit (nat_of_ascii c mod 16)) (toHex r))
  end.

Definition subnetworkId : string := "0000000000000000000000000000000000000000".

Definition zeroPayloadHash : string :=
  "0000000000000000000000000000000000000000000000000000000000000000".

Definition rpcInput (input : TxInput) : RPC.TransactionInput :=
  {| RPC.previousOutpoint :=
       {| RPC.transactionId := toHex (prevTxId input); RPC.index := outputIndex input |};
     RPC.signatureScript := toHex (in_script input);
     RPC.sequence := sequenceNumber input |}.

Definition rpcOutput (output : TxOutput) : RPC.TransactionOutput :=
  {| RPC.amount := satoshis output;
     RPC.out_scriptPublicKey :=
       {| RPC.scriptPublicKey := toHex (out_script output); RPC.spk_version := 0 |} |}.

Definition toRpcTX (tx : KTransaction) (fee : JsNumber) : RPC.SubmitTransactionRequest :=
  {| RPC.transaction :=
       {| RPC.version := txVersion tx;
          RPC.inputs := map rpcInput (txInputs tx);
          RPC.outputs := map rpcOutput (txOutputs tx);
          RPC.lockTime := txLockTime tx;
          RPC.payloadHash := zeroPayloadHash;
          RPC.subnetworkId := subnetworkId;
          RPC.fee := fee |} |}.

Definition withTx (tx : KTransaction) (d : ComposeTxInfo) : ComposeTxInfo :=
  {| ci_tx := tx; ci_id := ci_id d; ci_rawTx := ci_rawTx d; ci_utxoIds := ci_utxoIds d;
     ci_amount := ci_amount d; ci_fee := ci_fee d; ci_utxos := ci_utxos d;
     ci_toAddr := ci_toAddr d; ci_privKeys := ci_privKeys d |}.

Definition forBuild {V} (p : TxSend V) (skipUTXOInUseMark : bool) : TxSend V :=
  {| toAddr := toAddr p; amount := amount p; fee := fee p;
     changeAddrOverride := changeAddrOverride p;
     skipSign := Some true; privKeysInfo := Some true;
     compoundingUTXO := compoundingUTXO p;
     compoundingUTXOMaxCount := compoundingUTXOMaxCount p;
     networkFeeMax := networkFeeMax p;
     calculateNetworkFee := calculateNetworkFee p;
     inclusiveFee := inclusiveFee p;
     skipUTXOInUseMark := skipUTXOInUseMark;
     note := note p |}.

(** [tx.sign] works on the object that [data.tx] refers to, so the result
    carries the signed transaction. *)
Definition buildTransaction (fuel : nat) (txParamsArg : TxSend JsNumber) (debug : bool)
  : M Wallet BuildTxResult :=
  let txParamsArg := forBuild txParamsArg (skipUTXOInUseMark txParamsArg) in
  data <- estimateTransaction fuel txParamsArg ;;
  let d := ti_data data in
  tx <- liftExt (txSign (ci_privKeys d) (ci_tx d)) ;;
  let txMass := txGetMass tx in
  if MaxMassAcceptedByBlock <? txMass then throw MassLimitReached
  else
    level <- gets loggerLevel ;;
    (* the debug log reads utxos[0].script *)
    (if (debug || (0 <? level)) && (length (ci_utxos d) =? 0)%nat
     then throw (TypeError "Cannot read properties of undefined (reading 'script')")
     else ret tt) ;;;
    let rpcTX := toRpcTX tx (ci_fee d) in
    when (negb (skipUTXOInUseMark txParamsArg))
         (modify (us_updateUsed (ci_utxos d))) ;;;
    ret {| br_info := {| ti_data := withTx tx d; dataFee := dataFee data;
                         totalAmount := totalAmount data; txSize := txSize data;
                         ti_note := ti_note data |};
           rpcTX := rpcTX |}.

(** *** submitTransaction *)

(** Returns the txid, or [None] for the [null] of the source. *)
Definition submitTransaction (fuel : nat) (txParamsArg : TxSend JsNumber) (debug : bool)
  : M Wallet (option string) :=
  let txParamsArg := forBuild txParamsArg true in
  built <- buildTransaction fuel txParamsArg debug ;;
  let d := ti_data (br_info built) in
  ts <- gets clock ;;
  txid <- onApi (api_submitTransaction (rpcTX built)) ;;
  if negb (truthyString txid) then ret None
  else
    modify (fun w => set_utxoSet (set_inUse (inUse (utxoSet w) ++ ci_utxoIds d) (utxoSet w)) w) ;;;
    modify (fun w =>
      set_txStore
        (ts_add {| tse_in := false; tse_ts := ts; tse_id := default EmptyString txid;
                   tse_amount := ci_amount d; tse_address := ci_toAddr d;
                   tse_note := ti_note (br_info built); tse_blueScore := blueScore w;
                   tse_tx := RPC.transaction (rpcTX built);
                   tse_myAddress := am_isOur (addressManager w) (ci_toAddr d) |}
                (txStore w)) w) ;;;
    updateDebugInfo ;;;
    emitCache ;;;
    ret (Some (default EmptyString txid)).

(** *** Notions used in the statements *)

(** [w'] differs from [w] in the address manager at most. *)
Definition sameButAddressManager (w w' : Wallet) : Prop :=
  w' = set_addressManager (addressManager w') w.

(** Every exception that comes out of [m] satisfies [P]. *)
Definition raisesOnly {A} (P : WalletError -> Prop) (m : M Wallet A) : Prop :=
  forall w e w', m w = (Throw e, w') -> P e.

(** The state [findUtxos] leaves when the node lists nothing for the
    addresses: the reply is consumed, and the receive chain moves on if the
    current receive address has stored outputs from before. *)
Definition afterQuietScan (a : API) (w : Wallet) : Wallet :=
  let w1 := set_api a w in
  if bool_decide (is_Some (utxoStorage (utxoSet w1) !! propertyKey (receiveAddress w1)))
  then set_addressManager (snd (am_next Receive (addressManager w1))) w1
  else w1.

(** The errors that come from outside [sync]'s own [throw]. *)
Definition notSyncAlreadyRunning (e : WalletError) : Prop := e <> SyncAlreadyRunning.

Definition isExternal (e : WalletError) : Prop := exists msg, e = External msg.

Definition isTypeError (e : WalletError) : Prop := exists what, e = TypeError what.

(** The errors that can come out of [estimateTransaction]. *)
Definition estimateError (e : WalletError) : Prop :=
  match e with
  | MassLimitReached | TypeError _ => False
  | _ => True
  end.

Fixpoint hasChar (c : ascii) (s : string) : bool :=
  match s with
  | EmptyString => false
  | String x r => Ascii.eqb x c || hasChar c r
  end.

(** The components of a derivation path after the master key, each with its
    number and whether it carries the hardening mark. *)
Definition pathComponents (path : string) : list (string * bool) :=
  map (fun c =>
         match rev (list_ascii_of_string c) with
         | "'"%char :: r => (string_of_list_ascii (rev r), true)
         | _ => (c, false)
         end)
      (tl (split "/" path)).

End Methods.

(* ===================================================================== *)
(** ** A small world to run the methods in                                *)
(* ===================================================================== *)

(** Concrete collaborators: an address manager that numbers its addresses
    and records the calls it receives, a UTXO set that selects in list order,
    a transaction store that appends, a node that answers from a table. *)
Module Sim.

Inductive AMCall :=
| CallGetAddresses (n : Z) (t : DeriveType) (offset : Z)
| CallNext (t : DeriveType)
| CallReverse (t : DeriveType)
| CallAdvance (t : DeriveType) (n : Z).

Record SimAM := {
  receiveCount : Z;
  changeCount : Z;
  calls : list AMCall }.

Record SimTx := {
  stx_inputs : list TxInput;
  stx_outputs : list TxOutput;
  stx_signed : bool }.

Record SimApi := {
  node : list (string * list ApiUtxo);
  submitReply : ExtResult (option string);
  nodeBlueScore : Z;
  submitted : list RPC.SubmitTransactionRequest }.

#[export] Instance carriers : Carriers :=
  {| HDKey := string; PrivKey := string; KTransaction := SimTx; AM := SimAM;
     US := list UnspentOutput; TS := list TxStoreEntry; API := SimApi |}.

Definition addressOf (t : DeriveType) (i : Z) : string :=
  (match t with Receive => "kaspatest:r" | Change => "kaspatest:c" end)
  +:+ digitString (digitsOf i).

Definition counterOf (t : DeriveType) (am : SimAM) : Z :=
  match t with Receive => receiveCount am | Change => changeCount am end.

Definition withCounter (t : DeriveType) (c : Z) (call : AMCall) (am : SimAM) : SimAM :=
  {| receiveCount := match t with Receive => c | Change => receiveCount am end;
     changeCount := match t with Receive => changeCount am | Change => c end;
     calls := calls am ++ [call] |}.

Definition getAddresses (n : Z) (t : DeriveType) (offset : Z) (am : SimAM)
  : list (Z * string) * SimAM :=
  (map (fun i => (offset + Z.of_nat i, addressOf t (offset + Z.of_nat i))) (seq 0 (Z.to_nat n)),
   withCounter t (counterOf t am) (CallGetAddresses n t offset) am).

Definition total (us : list UnspentOutput) : Z :=
  fold_left (fun acc u => acc + uo_satoshis u) us 0.

Definition asSelection (us : list UnspentOutput) : Selection :=
  {| sel_utxos := us; sel_utxoIds := map uo_txId us; sel_mass := Z.of_nat (length us) |}.

(** Take outputs in list order until the target is reached. *)
Fixpoint takeUntil (target : Z) (us : list UnspentOutput) (acc : list UnspentOutput)
  : list UnspentOutput :=
  match us with
  | [] => acc
  | u :: r => if target <=? total acc then acc else takeUntil target r (acc ++ [u])
  end.

Definition selectUtxos (u : UtxoSet) (target : JsNumber) : ExtResult Selection :=
  let free := filter (fun o => negb (existsb (String.eqb (uo_txId o)) (inUse u))) (utxos u) in
  match target with
  | Some t =>
      let chosen := takeUntil t free [] in
      if total chosen <? t then ExtThrow "Insufficient balance" else ExtOk (asSelection chosen)
  | None => ExtThrow "Insufficient balance"
  end.

Definition collectUtxos (u : UtxoSet) (maxCount : Z) : ExtResult (Selection * Z) :=
  let chosen := firstn (Z.to_nat maxCount) (utxos u) in
  ExtOk (asSelection chosen, total chosen).

Definition assemble (us : list UnspentOutput) (toAddr : string) (amount fee : JsNumber)
    (changeAddr : string) : ExtResult SimTx :=
  if String.eqb toAddr EmptyString then ExtThrow "Invalid address"
  else
    match amount, fee with
    | Some a, Some f =>
        if total us <? a + f then ExtThrow "Invalid amount"
        else
          ExtOk {| stx_inputs :=
                     map (fun u => {| prevTxId := uo_txId u; outputIndex := uo_outputIndex u;
                                      in_script := EmptyString; sequenceNumber := 0 |}) us;
                   stx_outputs :=
                     {| satoshis := a; out_script := toAddr |}
                     :: (if total us - a - f =? 0 then []
                         else [{| satoshis := total us - a - f; out_script := changeAddr |}]);
                   stx_signed := false |}
    | _, _ => ExtThrow "Invalid amount"
    end.

Definition sign (keys : list (option string)) (tx : SimTx) : ExtResult SimTx :=
  if forallb (fun k => bool_decide (is_Some k)) keys
  then ExtOk {| stx_inputs := stx_inputs tx; stx_outputs := stx_outputs tx; stx_signed := true |}
  else ExtThrow "Missing key".

Definition addUtxos (entries : list ApiUtxo) (address : string) (w : Wallet) : Wallet :=
  let fresh := map (fun e => {| uo_txId := api_transactionId e; uo_outputIndex := api_index e;
                                uo_address := address; uo_satoshis := api_amount e;
                                uo_script := EmptyString |}) entries in
  set_utxoSet (set_utxos (utxos (utxoSet w) ++ fresh) (utxoSet w))
    {| HDWallet := HDWallet w; network := network w; defaultFee := defaultFee w;
       loggerLevel := loggerLevel w; options := options w; clock := clock w;
       blueScore := blueScore w;
       syncVirtualSelectedParentBlueScoreStarted := syncVirtualSelectedParentBlueScoreStarted w;
       syncInProggress := syncInProggress w; syncOnce := syncOnce w;
       syncSignal := syncSignal w; connectSignal := connectSignal w;
       addressManagerInitialized := addressManagerInitialized w;
       disableBalanceNotifications := disableBalanceNotifications w;
       balanceConfirmed := balanceConfirmed w + total fresh;
       balancePending := balancePending w;
       lastBalanceNotification := lastBalanceNotification w;
       lastAddressNotification := lastAddressNotification w; debugInfo := debugInfo w;
       addressManager := addressManager w; utxoSet := utxoSet w; txStore := txStore w;
       api := api w; emitted := emitted w |}.

Definition findById (us : list UnspentOutput) (utxoId : string) : option UnspentOutput :=
  find (fun o => String.eqb (uo_txId o) utxoId) us.

#[export] Instance collaborators : Collaborators :=
  {| deriveChild := fun key path => key +:+ "/" +:+ path;
     toAddress := fun key net => net +:+ ":" +:+ key;
     txAssemble := assemble;
     txSign := sign;
     txId := fun tx => "txid";
     txToString := fun tx => "raw";
     txBufferLength := fun tx skipSign =>
       20 + 40 * Z.of_nat (length (stx_inputs tx)) + 30 * Z.of_nat (length (stx_outputs tx));
     txInputs := stx_inputs;
     txOutputs := stx_outputs;
     txVersion := fun _ => 0;
     txLockTime := fun _ => 0;
     txGetMass := fun tx => 100000 * Z.of_nat (length (stx_inputs tx));
     createHash := fun address => "hash(" +:+ default "undefined" address +:+ ")";
     KAS := fun v => digitString (digitsOf v);
     DEFAULT_FEE := JsNum NumZero;
     am_getAddresses := getAddresses;
     am_current := fun t am =>
       if counterOf t am =? 0 then None else Some (addressOf t (counterOf t am - 1));
     am_next := fun t am =>
       (addressOf t (counterOf t am), withCounter t (counterOf t am + 1) (CallNext t) am);
     am_reverse := fun t am => withCounter t (counterOf t am - 1) (CallReverse t) am;
     am_advance := fun t n am => withCounter t n (CallAdvance t n) am;
     am_all := fun am address => Some ("key of " +:+ address);
     am_isOur := fun am address => String.prefix "kaspatest:" address;
     am_counter := counterOf;
     us_selectUtxos := selectUtxos;
     us_collectUtxos := collectUtxos;
     us_updateUsed := fun us w =>
       set_utxoSet (set_inUse (inUse (utxoSet w) ++ map uo_txId us) (utxoSet w)) w;
     us_confirmed := findById;
     us_pending := fun _ _ => None;
     us_used := fun _ _ => None;
     us_count := fun u => Z.of_nat (length (utxos u));
     us_confirmedCount := fun u => Z.of_nat (length (utxos u));
     us_add := addUtxos;
     us_updateUtxoBalance := fun w => w;
     us_syncAddressesUtxos := fun _ w => w;
     us_utxoSubscribe := fun w => (ExtOk tt, w);
     us_clearMissing := fun w => (false, w);
     ts_add := fun entry store => store ++ [entry];
     ts_emitTxs := fun w => w;
     api_getUtxosByAddresses := fun addresses a =>
       (ExtOk (map (fun address =>
                      (address, default [] (snd <$> find (fun e => String.eqb (fst e) address) (node a))))
                   addresses), a);
     api_submitTransaction := fun request a =>
       (submitReply a,
        {| node := node a; submitReply := submitReply a; nodeBlueScore := nodeBlueScore a;
           submitted := submitted a ++ [request] |});
     api_getVirtualSelectedParentBlueScore := fun a => (ExtOk (nodeBlueScore a), a);
     api_subscribeVirtualSelectedParentBlueScoreChanged := fun a => a |}.

(** A freshly constructed wallet on [kaspatest], connected, with the given
    confirmed outputs and node. *)
Definition wallet (confirmed : list UnspentOutput) (a : SimApi) (synced : option bool)
    (gap : Z) : Wallet :=
  {| HDWallet := "xprv"; network := "kaspatest"; defaultFee := 1; loggerLevel := 2;
     options := {| skipSyncBalance := false; opt_syncOnce := false;
                   addressDiscoveryExtent := gap; disableAddressDerivation := false |};
     clock := 1700000000000; blueScore := -1;
     syncVirtualSelectedParentBlueScoreStarted := false; syncInProggress := false;
     syncOnce := None; syncSignal := synced; connectSignal := true;
     addressManagerInitialized := false; disableBalanceNotifications := false;
     balanceConfirmed := 0; balancePending := 0; lastBalanceNotification := (0, 0);
     lastAddressNotification := (None, None); debugInfo := (0, 0);
     addressManager := {| receiveCount := 0; changeCount := 0; calls := [] |};
     utxoSet := {| inUse := []; utxoStorage := ∅; utxos := confirmed |};
     txStore := []; api := a; emitted := [] |}.

Definition quietNode (reply : ExtResult (option string)) : SimApi :=
  {| node := []; submitReply := reply; nodeBlueScore := 100; submitted := [] |}.

Definition coin (txid address : string) (value : Z) : UnspentOutput :=
  {| uo_txId := txid; uo_outputIndex := 0; uo_address := address; uo_satoshis := value;
     uo_script := EmptyString |}.

Definition request (V : Type) (to : string) (amount fee : V) (override : option string)
    (computeFee : bool) (feeMax : option Z) : TxSend V :=
  {| toAddr := to; amount := amount; fee := fee; changeAddrOverride := override;
     skipSign := None; privKeysInfo := None; compoundingUTXO := false;
     compoundingUTXOMaxCount := None; networkFeeMax := feeMax;
     calculateNetworkFee := computeFee; inclusiveFee := false;
     skipUTXOInUseMark := false; note := None |}.

(** *** Sample wallets and requests *)

(** Two confirmed outputs of 10000 and 5000 sompi, synced. *)
Definition fundedWallet : Wallet :=
  wallet [coin "A0" "kaspatest:r0" 10000; coin "B0" "kaspatest:r1" 5000]
         (quietNode (ExtOk (Some "txid-1"))) (Some true) 5.

(** The same wallet in front of a node that answers without a txid. *)
Definition unluckyWallet : Wallet :=
  wallet [coin "A0" "kaspatest:r0" 10000; coin "B0" "kaspatest:r1" 5000]
         (quietNode (ExtOk None)) (Some true) 5.

(** No outputs, nothing on the node, gap limit 5, not synced yet. *)
Definition emptyWallet : Wallet := wallet [] (quietNode (ExtOk None)) None 5.

(** A node that lists one output for receive address 3. *)
Definition activeNode : SimApi :=
  {| node := [("kaspatest:r3",
               [{| api_transactionId := "t1"; api_index := 0; api_amount := 700 |}])];
     submitReply := ExtOk None; nodeBlueScore := 100; submitted := [] |}.

Definition discoveringWallet : Wallet := wallet [] activeNode None 5.

(** A wallet whose last sync was a continuous one. *)
Definition monitoringWallet : Wallet := set_syncOnce (Some false) emptyWallet.


Definition overrideSend : TxSend JsValue :=
  request JsValue "kaspatest:xxx" (JsNum (numOfZ 7000)) (JsNum (numOfZ 500))
          (Some "kaspatest:mine") false None.

(** A destination the assembly rejects. *)
Definition badAddressSend : TxSend JsValue :=
  request JsValue EmptyString (JsNum (numOfZ 7000)) (JsNum (numOfZ 500)) None false None.

(** More than the wallet holds. *)
Definition tooLargeSend : TxSend JsValue :=
  request JsValue "kaspatest:xxx" (JsNum (numOfZ 70000)) (JsNum (numOfZ 500)) None false None.



(** 7000 sompi, priority fee 500, network fee computed. *)
Definition autoFeeSend : TxSend JsNumber :=
  request JsNumber "kaspatest:xxx" (Some 7000) (Some 500) None true None.

(** Fixed fees: 100, below the data fee; 400, above it, once unbounded and
    once with the network fee capped at 100. *)
Definition lowFeeSend : TxSend JsNumber :=
  request JsNumber "kaspatest:xxx" (Some 7000) (Some 100) None false None.

Definition fixedFeeSend : TxSend JsNumber :=
  request JsNumber "kaspatest:xxx" (Some 7000) (Some 400) None false None.

Definition cappedFeeSend : TxSend JsNumber :=
  request JsNumber "kaspatest:xxx" (Some 7000) (Some 400) None false (Some 100).

End Sim.

(* ===================================================================== *)
(** ** More of the class                                                  *)
(* ===================================================================== *)

Section MoreSetters.
Context `{Carriers}.

Definition set_balanceConfirmed (v : Z) (w : Wallet) : Wallet :=
  {| HDWallet := HDWallet w; network := network w; defaultFee := defaultFee w;
     loggerLevel := loggerLevel w; options := options w; clock := clock w;
     blueScore := blueScore w;
     syncVirtualSelectedParentBlueScoreStarted := syncVirtualSelectedParentBlueScoreStarted w;
     syncInProggress := syncInProggress w; syncOnce := syncOnce w;
     syncSignal := syncSignal w; connectSignal := connectSignal w;
     addressManagerInitialized := addressManagerInitialized w;
     disableBalanceNotifications := disableBalanceNotifications w; balanceConfirmed := v;
     balancePending := balancePending w;
     lastBalanceNotification := lastBalanceNotification w;
     lastAddressNotification := lastAddressNotification w; debugInfo := debugInfo w;
     addressManager := addressManager w; utxoSet := utxoSet w; txStore := txStore w;
     api := api w; emitted := emitted w |}.

Definition set_balancePending (v : Z) (w : Wallet) : Wallet :=
  {| HDWallet := HDWallet w; network := network w; defaultFee := defaultFee w;
     loggerLevel := loggerLevel w; options := options w; clock := clock w;
     blueScore := blueScore w;
     syncVirtualSelectedParentBlueScoreStarted := syncVirtualSelectedParentBlueScoreStarted w;
     syncInProggress := syncInProggress w; syncOnce := syncOnce w;
     syncSignal := syncSignal w; connectSignal := connectSignal w;
     addressManagerInitialized := addressManagerInitialized w;
     disableBalanceNotifications := disableBalanceNotifications w;
     balanceConfirmed := balanceConfirmed w; balancePending := v;
     lastBalanceNotification := lastBalanceNotification w;
     lastAddressNotification := lastAddressNotification w; debugInfo := debugInfo w;
     addressManager := addressManager w; utxoSet := utxoSet w; txStore := txStore w;
     api := api w; emitted := emitted w |}.

Definition set_loggerLevel (v : Z) (w : Wallet) : Wallet :=
  {| HDWallet := HDWallet w; network := network w; defaultFee := defaultFee w;
     loggerLevel := v; options := options w; clock := clock w; blueScore := blueScore w;
     syncVirtualSelectedParentBlueScoreStarted := syncVirtualSelectedParentBlueScoreStarted w;
     syncInProggress := syncInProggress w; syncOnce := syncOnce w;
     syncSignal := syncSignal w; connectSignal := connectSignal w;
     addressManagerInitialized := addressManagerInitialized w;
     disableBalanceNotifications := disableBalanceNotifications w;
     balanceConfirmed := balanceConfirmed w; balancePending := balancePending w;
     lastBalanceNotification := lastBalanceNotification w;
     lastAddressNotification := lastAddressNotification w; debugInfo := debugInfo w;
     addressManager := addressManager w; utxoSet := utxoSet w; txStore := txStore w;
     api := api w; emitted := emitted w |}.

End MoreSetters.


Section MoreMethods.
Context `{Co : Collaborators}.
Import Run.
Local Open Scope run_scope.

(** *** Balance slots *)

(** [adjustBalance]; it also refreshes the slot [BALANCE_TOTAL], which no
    code reads (the getter [balance] adds the two other slots up).  The sum
    is that of JavaScript as long as the slot stays a safe integer. *)
Definition adjustBalance (isConfirmed : bool) (amount : Z) (notify : bool) : M Wallet unit :=
  available <- gets balanceConfirmed ;;
  pending <- gets balancePending ;;
  modify (fun w => if isConfirmed
                   then set_balanceConfirmed (balanceConfirmed w + amount) w
                   else set_balancePending (balancePending w + amount) w) ;;;
  if negb notify then ret tt
  else
    available' <- gets balanceConfirmed ;;
    pending' <- gets balancePending ;;
    syncing <- gets syncInProggress ;;
    disabled <- gets disableBalanceNotifications ;;
    when (negb syncing && negb disabled
          && (negb (available =? available') || negb (pending =? pending')))
         emitBalance.

(** The balance as the getter [balance] gives it: available and pending. *)
Definition balance (w : Wallet) : Z * Z := (balanceConfirmed w, balancePending w).

(** *** Cache, log level, update *)

Definition restoreCache (c : WalletCache) : M Wallet unit :=
  modify (fun w => set_utxoSet (set_inUse (cache_inUse c) (utxoSet w)) w).

(** [setLogLevel]; the calls into the logger and kaspacore leave the wallet
    alone. *)
Definition setLogLevel (level : string) : M Wallet unit :=
  modify (set_loggerLevel (if String.eqb level "none" then 0 else 2)).

(** [update(syncOnce = true)] *)
Definition update (fuel : nat) (syncOnceArg : option bool) : M Wallet unit :=
  sync fuel (Some (default true syncOnceArg)).

(** *** compoundUTXOs *)



(** *** Notions used in the statements *)

(** The entries of a reply of the node that list at least one output. *)
Definition withUtxos (utxosMap : list (string * list ApiUtxo)) : list string :=
  map fst (filter (fun entry => negb (length (snd entry) =? 0)%nat) utxosMap).

(** One window of [doDiscovery]: the derived addresses, the log line, the
    scan.  Gives the derived entries and [addressesWithUTXOs]. *)
Definition scanWindow (n : Z) (deriveType : DeriveType) (offset : Z)
  : M Wallet (list (Z * string) * list string) :=
  derivedAddresses <- onAddressManager (am_getAddresses n deriveType offset) ;;
  (if (length derivedAddresses =? 0)%nat
   then throw (TypeError "Cannot read properties of undefined (reading 'index')")
   else ret tt) ;;;
  addressesWithUTXOs <- findUtxos (map snd derivedAddresses) ;;
  ret (derivedAddresses, addressesWithUTXOs).

(** [nAddressesLeft], the size of the window that follows one with
    activity. *)
Definition nAddressesLeft (derivedAddresses : list (Z * string))
    (addressesWithUTXOs : list string) : Z :=
  fold_left (fun prev cur => Z.max prev (fst cur))
    (filter (fun obj => existsb (String.eqb (snd obj)) addressesWithUTXOs) derivedAddresses)
    0 + 1.

(** The change chain after [k] calls of [next()]. *)
Definition changeAdvanced (k : nat) (am : AM) : AM :=
  Nat.iter k (fun a => snd (am_next Change a)) am.

(** The wallet after [k] compositions of a transaction for [p]: each one
    takes a change address, unless [p] names the change address itself. *)
Definition afterCompositions {V} (p : TxSend V) (k : nat) (w : Wallet) : Wallet :=
  if truthyString (changeAddrOverride p) then w
  else set_addressManager (changeAdvanced k (addressManager w)) w.

End MoreMethods.

(** *** pendingInfo *)

(** The object [pendingInfo]: transactions by id, the getter [amount] and
    the method [add]. *)
Module PendingInfo.

Record PendingTx := {
  pt_to : string;
  pt_utxoIds : list string;
  pt_rawTx : string;
  pt_amount : Z;
  pt_fee : Z }.

(** [Object.values(this.transactions).reduce(...)], 0 for no transactions;
    the sum does not depend on the order of the values. *)
Definition amount (transactions : gmap string PendingTx) : Z :=
  if bool_decide (transactions = ∅) then 0
  else map_fold (fun _ cur prev => prev + pt_amount cur + pt_fee cur) 0 transactions.



End PendingInfo.

(** *** The network tables *)

Module Networks.

Record NetworkType := { port : Z; nt_network : string; name : string }.

Definition networkTypes : gmap string NetworkType :=
  <["kaspa" := {| port := 16110; nt_network := "kaspa"; name := "mainnet" |}]>
  (<["kaspatest" := {| port := 16210; nt_network := "kaspatest"; name := "testnet" |}]>
  (<["kaspasim" := {| port := 16510; nt_network := "kaspasim"; name := "simnet" |}]>
  (<["kaspadev" := {| port := 16610; nt_network := "kaspadev"; name := "devnet" |}]> ∅))).

Definition networkAliases : gmap string string :=
  <["mainnet" := "kaspa"]>
  (<["testnet" := "kaspatest"]>
  (<["devnet" := "kaspadev"]>
  (<["simnet" := "kaspasim"]> ∅))).

End Networks.

(* ===================================================================== *)
(** ** More of the small world                                            *)
(* ===================================================================== *)

Module Scenarios.
Import Sim.

(** The collaborators of [Sim], in front of a node that does not answer the
    request for the blue score and with a UTXO set that refuses to collect
    from nothing. *)
Definition strict : Collaborators :=
  {| deriveChild := @deriveChild carriers collaborators;
     toAddress := @toAddress carriers collaborators;
     txAssemble := @txAssemble carriers collaborators;
     txSign := @txSign carriers collaborators;
     txId := @txId carriers collaborators;
     txToString := @txToString carriers collaborators;
     txBufferLength := @txBufferLength carriers collaborators;
     txInputs := @txInputs carriers collaborators;
     txOutputs := @txOutputs carriers collaborators;
     txVersion := @txVersion carriers collaborators;
     txLockTime := @txLockTime carriers collaborators;
     txGetMass := @txGetMass carriers collaborators;
     createHash := @createHash carriers collaborators;
     KAS := @KAS carriers collaborators;
     DEFAULT_FEE := @DEFAULT_FEE carriers collaborators;
     am_getAddresses := @am_getAddresses carriers collaborators;
     am_current := @am_current carriers collaborators;
     am_next := @am_next carriers collaborators;
     am_reverse := @am_reverse carriers collaborators;
     am_advance := @am_advance carriers collaborators;
     am_all := @am_all carriers collaborators;
     am_isOur := @am_isOur carriers collaborators;
     am_counter := @am_counter carriers collaborators;
     us_selectUtxos := @us_selectUtxos carriers collaborators;
     us_collectUtxos := fun u maxCount =>
       if (length (utxos u) =? 0)%nat then ExtThrow "No UTXOs to compound"
       else collectUtxos u maxCount;
     us_updateUsed := @us_updateUsed carriers collaborators;
     us_confirmed := @us_confirmed carriers collaborators;
     us_pending := @us_pending carriers collaborators;
     us_used := @us_used carriers collaborators;
     us_count := @us_count carriers collaborators;
     us_confirmedCount := @us_confirmedCount carriers collaborators;
     us_add := @us_add carriers collaborators;
     us_updateUtxoBalance := @us_updateUtxoBalance carriers collaborators;
     us_syncAddressesUtxos := @us_syncAddressesUtxos carriers collaborators;
     us_utxoSubscribe := @us_utxoSubscribe carriers collaborators;
     us_clearMissing := @us_clearMissing carriers collaborators;
     ts_add := @ts_add carriers collaborators;
     ts_emitTxs := @ts_emitTxs carriers collaborators;
     api_getUtxosByAddresses := @api_getUtxosByAddresses carriers collaborators;
     api_submitTransaction := @api_submitTransaction carriers collaborators;
     api_getVirtualSelectedParentBlueScore := fun a => (ExtThrow "not connected", a);
     api_subscribeVirtualSelectedParentBlueScoreChanged := @api_subscribeVirtualSelectedParentBlueScoreChanged carriers collaborators |}.

(** A wallet with a fee rate of its own. *)
Definition withFeeRate (rate : Z) (w : Wallet) : Wallet :=
  {| HDWallet := HDWallet w; network := network w; defaultFee := rate;
     loggerLevel := loggerLevel w; options := options w; clock := clock w;
     blueScore := blueScore w;
     syncVirtualSelectedParentBlueScoreStarted := syncVirtualSelectedParentBlueScoreStarted w;
     syncInProggress := syncInProggress w; syncOnce := syncOnce w;
     syncSignal := syncSignal w; connectSignal := connectSignal w;
     addressManagerInitialized := addressManagerInitialized w;
     disableBalanceNotifications := disableBalanceNotifications w;
     balanceConfirmed := balanceConfirmed w; balancePending := balancePending w;
     lastBalanceNotification := lastBalanceNotification w;
     lastAddressNotification := lastAddressNotification w; debugInfo := debugInfo w;
     addressManager := addressManager w; utxoSet := utxoSet w; txStore := txStore w;
     api := api w; emitted := emitted w |}.

(** A node that lists outputs for the receive addresses 3 and 6. *)
Definition twiceActiveNode : SimApi :=
  {| node := [("kaspatest:r3",
               [{| api_transactionId := "t1"; api_index := 0; api_amount := 700 |}]);
              ("kaspatest:r6",
               [{| api_transactionId := "t2"; api_index := 1; api_amount := 300 |}])];
     submitReply := ExtOk None; nodeBlueScore := 100; submitted := [] |}.

Definition twiceActiveWallet : Wallet := wallet [] twiceActiveNode None 5.

(** The discovering wallet with the balance notifications switched off. *)
Definition mutedWallet : Wallet := set_disableBalanceNotifications true discoveringWallet.

(** The funded wallet after a continuous sync. *)
Definition watchingWallet : Wallet := set_syncOnce (Some false) fundedWallet.


(** The funded wallet where data costs nothing. *)
Definition freeDataWallet : Wallet := withFeeRate 0 fundedWallet.



(** 7000 sompi, priority fee 500, the fee computed and capped at 1000. *)
Definition cappedAutoSend : TxSend JsNumber :=
  request JsNumber "kaspatest:xxx" (Some 7000) (Some 500) None true (Some 1000).

(** The simple send with a priority fee of 1e21. *)
Definition hugeFeeSend : TxSend JsNumber :=
  request JsNumber "kaspatest:xxx" (Some 7000) (Some (10 ^ 21)) None true None.

(** Six outputs of 2000 sompi, synced, and a send that needs them all. *)
Definition crowdedWallet : Wallet :=
  wallet [coin "U1" "kaspatest:r0" 2000; coin "U2" "kaspatest:r1" 2000;
          coin "U3" "kaspatest:r2" 2000; coin "U4" "kaspatest:r3" 2000;
          coin "U5" "kaspatest:r4" 2000; coin "U6" "kaspatest:r5" 2000]
         (quietNode (ExtOk (Some "txid-1"))) (Some true) 5.

Definition crowdedSend : TxSend JsNumber :=
  request JsNumber "kaspatest:xxx" (Some 10500) (Some 0) None true None.

(** Nothing, for no fee. *)
Definition zeroSend : TxSend JsNumber :=
  request JsNumber "kaspatest:xxx" (Some 0) (Some 0) None false None.


End Scenarios.

(* ===================================================================== *)
(** ** Properties of the JavaScript fragment                              *)
(* ===================================================================== *)

Module JSFacts.
Import JS.

Lemma digitOfChar_digitChar (d : nat) :
  (d < 10)%nat -> digitOfChar (digitChar d) = Some (Z.of_nat d).
Proof.
  intros H. do 10 (destruct d as [|d]; [reflexivity|]). lia.
Qed.

Lemma digitsValue_app acc (a b : list nat) :
  digitsValue acc (a ++ b) = digitsValue (digitsValue acc a) b.
Proof. unfold digitsValue. apply fold_left_app. Qed.

Lemma digitsValue_acc (ds : list nat) acc :
  digitsValue acc ds = acc * 10 ^ Z.of_nat (length ds) + digitsValue 0 ds.
Proof.
  revert acc. induction ds as [|d r IH]; intros acc.
  - simpl. lia.
  - change (digitsValue acc (d :: r)) with (digitsValue (10 * acc + Z.of_nat d) r).
    change (digitsValue 0 (d :: r)) with (digitsValue (10 * 0 + Z.of_nat d) r).
    rewrite (IH (10 * acc + Z.of_nat d)), (IH (10 * 0 + Z.of_nat d)).
    replace (Z.of_nat (length (d :: r))) with (Z.succ (Z.of_nat (length r)))
      by (simpl length; lia).
    rewrite Z.pow_succ_r by lia. ring.
Qed.

Lemma digitsValue_bounds (ds : list nat) :
  Forall (fun d => (d < 10)%nat) ds ->
  0 <= digitsValue 0 ds < 10 ^ Z.of_nat (length ds).
Proof.
  induction ds as [|d r IH] using rev_ind; intros F.
  - simpl. lia.
  - apply Forall_app in F as [Fr Fd]. inversion Fd as [|? ? Hd _]; subst.
    specialize (IH Fr). rewrite digitsValue_app.
    change (digitsValue (digitsValue 0 r) [d]) with (10 * digitsValue 0 r + Z.of_nat d).
    rewrite length_app. simpl length.
    replace (Z.of_nat (length r + 1)) with (Z.succ (Z.of_nat (length r))) by lia.
    rewrite Z.pow_succ_r by lia. lia.
Qed.

Lemma digitsValue_zeros acc (n : nat) :
  digitsValue acc (zeros n) = acc * 10 ^ Z.of_nat n.
Proof.
  revert acc. induction n as [|n IH]; intros acc.
  - simpl. lia.
  - change (digitsValue acc (zeros (S n))) with (digitsValue (10 * acc + 0) (zeros n)).
    rewrite IH. replace (Z.of_nat (S n)) with (Z.succ (Z.of_nat n)) by lia.
    rewrite Z.pow_succ_r by lia. ring.
Qed.

Lemma length_zeros n : length (zeros n) = n.
Proof. induction n; simpl; congruence. Qed.

Lemma Forall_zeros n : Forall (fun d => (d < 10)%nat) (zeros n).
Proof. induction n; simpl; constructor; auto; lia. Qed.

(** A leading digit other than zero puts the value at or above
    [10^(k-1)]. *)
Lemma digitsValue_lower (ds : list nat) :
  Forall (fun d => (d < 10)%nat) ds -> ds <> [] -> hd 0%nat ds <> 0%nat ->
  10 ^ (Z.of_nat (length ds) - 1) <= digitsValue 0 ds.
Proof.
  destruct ds as [|d r]; [congruence|]. intros F _ Hd. simpl in Hd.
  inversion F as [|? ? _ Fr]; subst.
  change (digitsValue 0 (d :: r)) with (digitsValue (10 * 0 + Z.of_nat d) r).
  rewrite digitsValue_acc. pose proof (digitsValue_bounds r Fr) as B.
  replace (Z.of_nat (length (d :: r)) - 1) with (Z.of_nat (length r)) by (simpl length; lia).
  assert (0 < 10 ^ Z.of_nat (length r)) by (apply Z.pow_pos_nonneg; lia).
  nia.
Qed.

Lemma parseDigits_cons (R : Z) (c : ascii) (r : string) acc :
  parseDigits R (String c r) acc
  = match digitOfChar c with
    | Some d => if d <? R then parseDigits R r (Some (R * accValue acc + d)) else acc
    | None => acc
    end.
Proof. reflexivity. Qed.

Lemma digitString_cons (d : nat) (r : list nat) (rest : string) :
  digitString (d :: r) +:+ rest = String (digitChar d) (digitString r +:+ rest).
Proof. reflexivity. Qed.

(** Reading a run of decimal digits. *)
Lemma parseDigits_digits (ds : list nat) (rest : string) acc :
  Forall (fun d => (d < 10)%nat) ds -> ds <> [] ->
  parseDigits 10 (digitString ds +:+ rest) acc
  = parseDigits 10 rest (Some (digitsValue (accValue acc) ds)).
Proof.
  revert acc. induction ds as [|d r IH]; intros acc F NE; [congruence|].
  inversion F as [|? ? Hd Fr]; subst.
  rewrite digitString_cons, parseDigits_cons, (digitOfChar_digitChar d Hd).
  assert ((Z.of_nat d <? 10) = true) as -> by (apply Z.ltb_lt; lia).
  destruct r as [|d' r'].
  - reflexivity.
  - rewrite IH by (auto; congruence). reflexivity.
Qed.

(** *** The digits of an integer *)

Lemma digitsOfAux_spec (fuel : nat) : forall z acc,
  (0 < fuel)%nat -> 0 <= z < 2 ^ Z.of_nat fuel ->
  Forall (fun d => (d < 10)%nat) acc ->
  let ds := digitsOfAux fuel z acc in
  digitsValue 0 ds = z * 10 ^ Z.of_nat (length acc) + digitsValue 0 acc
  /\ Forall (fun d => (d < 10)%nat) ds
  /\ ds <> []
  /\ (0 < z -> hd 0%nat ds <> 0%nat).
Proof.
  induction fuel as [|f IH]; intros z acc Hf Hz Fa; [lia|].
  simpl. destruct (z <? 10) eqn:E.
  - apply Z.ltb_lt in E. repeat split.
    + change (digitsValue 0 (Z.to_nat z :: acc))
        with (digitsValue (10 * 0 + Z.of_nat (Z.to_nat z)) acc).
      rewrite digitsValue_acc. rewrite Z2Nat.id by lia. lia.
    + constructor; [lia | exact Fa].
    + congruence.
    + simpl. lia.
  - apply Z.ltb_ge in E.
    assert (0 < f)%nat as Hf'.
    { destruct f; [|lia]. simpl in Hz. lia. }
    assert (0 <= z / 10 < 2 ^ Z.of_nat f) as Hz'.
    { split; [apply Z.div_pos; lia|].
      replace (Z.of_nat (S f)) with (Z.succ (Z.of_nat f)) in Hz by lia.
      rewrite Z.pow_succ_r in Hz by lia.
      apply Z.div_lt_upper_bound; lia. }
    assert (Forall (fun d => (d < 10)%nat) (Z.to_nat (z mod 10) :: acc)) as Fa'.
    { constructor; [|exact Fa]. pose proof (Z.mod_pos_bound z 10). lia. }
    destruct (IH (z / 10) (Z.to_nat (z mod 10) :: acc) Hf' Hz' Fa') as (V & F & N & H).
    repeat split; auto.
    + rewrite V.
      change (digitsValue 0 (Z.to_nat (z mod 10) :: acc))
        with (digitsValue (10 * 0 + Z.of_nat (Z.to_nat (z mod 10))) acc).
      rewrite (digitsValue_acc acc (10 * 0 + _)).
      pose proof (Z.mod_pos_bound z 10). rewrite Z2Nat.id by lia.
      replace (Z.of_nat (length (Z.to_nat (z mod 10) :: acc)))
        with (Z.succ (Z.of_nat (length acc))) by (simpl length; lia).
      rewrite Z.pow_succ_r by lia.
      pose proof (Z.div_mod z 10). nia.
    + intros _. apply H. apply Z.div_str_pos. lia.
Qed.

Lemma digitsOf_spec (z : Z) :
  0 <= z ->
  digitsValue 0 (digitsOf z) = z
  /\ Forall (fun d => (d < 10)%nat) (digitsOf z)
  /\ digitsOf z <> []
  /\ (0 < z -> hd 0%nat (digitsOf z) <> 0%nat).
Proof.
  intros Hz. unfold digitsOf.
  assert (0 <= z < 2 ^ Z.of_nat (S (Z.to_nat (Z.log2 z)))) as B.
  { split; [exact Hz|].
    rewrite Nat2Z.inj_succ, Z2Nat.id by apply Z.log2_nonneg.
    destruct (Z.eq_dec z 0) as [->|]; [reflexivity|].
    apply Z.log2_spec. lia. }
  destruct (digitsOfAux_spec (S (Z.to_nat (Z.log2 z))) z [] ltac:(lia) B ltac:(constructor))
    as (V & F & N & H).
  repeat split; auto. rewrite V. simpl. lia.
Qed.

Lemma dropZeros_spec (l : list nat) :
  exists m, l = zeros m ++ dropZeros l /\ hd 1%nat (dropZeros l) <> 0%nat.
Proof.
  induction l as [|d r (m & E & H)].
  - exists 0%nat. simpl. split; [reflexivity | lia].
  - destruct d as [|d].
    + exists (S m). simpl. split; [f_equal; exact E | exact H].
    + exists 0%nat. simpl. split; [reflexivity | lia].
Qed.

Lemma rev_zeros n : rev (zeros n) = zeros n.
Proof.
  induction n as [|n IH]; [reflexivity|].
  simpl. rewrite IH. clear IH. induction n as [|n IH]; [reflexivity|].
  simpl. now rewrite IH.
Qed.

(** Stripping the trailing zeros and counting them gives the digits back. *)
Lemma stripTrailingZeros_spec (ds : list nat) :
  exists m, ds = stripTrailingZeros ds ++ zeros m.
Proof.
  destruct (dropZeros_spec (rev ds)) as (m & E & _).
  exists m. unfold stripTrailingZeros.
  rewrite <- (rev_involutive ds) at 1. rewrite E at 1.
  rewrite rev_app_distr, rev_zeros. reflexivity.
Qed.

Lemma hd_zeros n : hd 0%nat (zeros n) = 0%nat.
Proof. destruct n; reflexivity. Qed.

Lemma stripTrailingZeros_wf (ds : list nat) :
  wfDigits ds -> wfDigits (stripTrailingZeros ds).
Proof.
  intros (NE & F & H). destruct (stripTrailingZeros_spec ds) as (m & E).
  destruct (stripTrailingZeros ds) as [|d r] eqn:S.
  - simpl in E. rewrite E in H. now rewrite hd_zeros in H.
  - rewrite E in F, H. apply Forall_app in F as [F _]. simpl in H.
    repeat split; [congruence | exact F | exact H].
Qed.


(** *** parseInt on the strings of numbers *)

Lemma digitChar_plain (d : nat) :
  (d < 10)%nat -> d <> 0%nat ->
  isWhiteSpace (digitChar d) = false /\ digitChar d <> "-"%char
  /\ digitChar d <> "+"%char /\ digitChar d <> "0"%char.
Proof.
  intros H N. do 10 (destruct d as [|d]; [try congruence; repeat split; discriminate|]). lia.
Qed.

(** A string that starts with a digit from 1 to 9 is read as it stands. *)
Lemma parseIntString_plain (c : ascii) (s : string) :
  isWhiteSpace c = false -> c <> "-"%char -> c <> "+"%char -> c <> "0"%char ->
  parseIntString (String c s)
  = match parseDigits 10 (String c s) None with
    | Some m => Some (1 * m)
    | None => None
    end.
Proof.
  intros W M P Z0. unfold parseIntString. simpl trimStart. rewrite W.
  destruct c as [[] [] [] [] [] [] [] []]; try reflexivity; congruence.
Qed.

Lemma parseIntString_minus (c : ascii) (s : string) :
  c <> "0"%char ->
  parseIntString (String "-" (String c s))
  = match parseDigits 10 (String c s) None with
    | Some m => Some (-1 * m)
    | None => None
    end.
Proof.
  intros Z0. unfold parseIntString. simpl trimStart.
  destruct c as [[] [] [] [] [] [] [] []]; try reflexivity; congruence.
Qed.

Lemma stops_empty : stops EmptyString.
Proof. intros acc. reflexivity. Qed.

Lemma stops_point s : stops (String "." s).
Proof. intros acc. reflexivity. Qed.

Lemma stops_e s : stops (String "e" s).
Proof. intros acc. reflexivity. Qed.

(** Digits with a leading digit from 1 to 9, then something that stops the
    run, with or without a minus sign in front. *)
Lemma parseIntString_digits (neg : bool) (ds : list nat) (rest : string) :
  wfDigits ds -> stops rest ->
  parseIntString ((if neg then "-" else EmptyString) +:+ digitString ds +:+ rest)
  = Some (if neg then - digitsValue 0 ds else digitsValue 0 ds).
Proof.
  intros (NE & F & H) St.
  assert (parseDigits 10 (digitString ds +:+ rest) None = Some (digitsValue 0 ds)) as P.
  { rewrite parseDigits_digits by assumption. apply St. }
  destruct ds as [|d r]; [congruence|].
  inversion F as [|? ? Hd _]; subst. simpl in H.
  destruct (digitChar_plain d Hd H) as (W & M & Pl & Z0).
  destruct neg.
  - change ("-" +:+ digitString (d :: r) +:+ rest)
      with (String "-" (String (digitChar d) (digitString r +:+ rest))).
    rewrite parseIntString_minus by exact Z0.
    change (String (digitChar d) (digitString r +:+ rest))
      with (digitString (d :: r) +:+ rest).
    rewrite P. f_equal; lia.
  - change (EmptyString +:+ digitString (d :: r) +:+ rest)
      with (String (digitChar d) (digitString r +:+ rest)).
    rewrite parseIntString_plain by assumption.
    change (String (digitChar d) (digitString r +:+ rest))
      with (digitString (d :: r) +:+ rest).
    rewrite P. f_equal; lia.
Qed.

Lemma append_cons (c : ascii) (s t : string) : String c s +:+ t = String c (s +:+ t).
Proof. reflexivity. Qed.

Lemma digitString_app (a b : list nat) :
  digitString (a ++ b) = digitString a +:+ digitString b.
Proof.
  induction a as [|d r IH]; [reflexivity|].
  simpl digitString. rewrite append_cons. f_equal. exact IH.
Qed.

Lemma append_empty_r (s : string) : s +:+ EmptyString = s.
Proof.
  induction s as [|c r IH]; [reflexivity|]. rewrite append_cons. f_equal. exact IH.
Qed.

Lemma append_assoc (a b c : string) : (a +:+ b) +:+ c = a +:+ (b +:+ c).
Proof.
  induction a as [|x r IH]; [reflexivity|]. rewrite !append_cons. f_equal. exact IH.
Qed.

Lemma numToString_finite (neg : bool) (ds : list nat) (n : Z) :
  numToString (NumFinite neg ds n) = (if neg then "-" else EmptyString) +:+ finiteToString ds n.
Proof. destruct neg; reflexivity. Qed.

Lemma firstn_wf (ds : list nat) (m : nat) :
  wfDigits ds -> (0 < m)%nat -> wfDigits (firstn m ds).
Proof.
  intros (NE & F & H) Hm. destruct ds as [|d r]; [congruence|].
  destruct m as [|m]; [lia|]. simpl. inversion F; subst.
  repeat split; [congruence | constructor; [assumption | now apply Forall_take] | exact H].
Qed.

(** The leading digits are the quotient by the power of ten of the rest. *)
Lemma digitsValue_firstn (ds : list nat) (m : nat) :
  Forall (fun d => (d < 10)%nat) ds ->
  digitsValue 0 (firstn m ds)
  = digitsValue 0 ds / 10 ^ Z.of_nat (length (skipn m ds)).
Proof.
  intros F.
  assert (digitsValue 0 ds
          = digitsValue 0 (firstn m ds) * 10 ^ Z.of_nat (length (skipn m ds))
            + digitsValue 0 (skipn m ds)) as E.
  { rewrite <- (firstn_skipn m ds) at 1. rewrite digitsValue_app. apply digitsValue_acc. }
  assert (Forall (fun d => (d < 10)%nat) (skipn m ds)) as Fs by now apply Forall_drop.
  pose proof (digitsValue_bounds (skipn m ds) Fs) as B.
  apply Z.div_unique with (r := digitsValue 0 (skipn m ds)).
  - left. exact B.
  - rewrite E. ring.
Qed.

(** Where [Number::toString] writes no exponent, [parseInt] of a Number is
    its truncation toward zero. *)
Lemma parseInt_finite_decimal (neg : bool) (ds : list nat) (n : Z) :
  wfDigits ds -> -6 < n <= 21 ->
  parseInt (JsNum (NumFinite neg ds n)) = Some (truncFinite neg ds n).
Proof.
  intros WF Hn. pose proof WF as (NE & F & H).
  unfold parseInt, toString. rewrite numToString_finite.
  unfold finiteToString, truncFinite.
  set (k := Z.of_nat (length ds)).
  assert (0 < k) as Hk by (destruct ds; [congruence | subst k; simpl length; lia]).
  destruct (k <=? n) eqn:Ekn.
  - apply Z.leb_le in Ekn.
    assert ((n <=? 21) = true) as -> by (apply Z.leb_le; lia). simpl andb; cbv iota.
    rewrite <- (append_empty_r (digitString _)).
    rewrite parseIntString_digits; [| |apply stops_empty].
    + rewrite digitsValue_app, digitsValue_zeros, Z2Nat.id by lia. reflexivity.
    + destruct ds as [|d r]; [congruence|]. inversion F; subst. simpl in H.
      repeat split; [simpl; congruence | | exact H].
      apply Forall_app. split; [assumption | apply Forall_zeros].
  - apply Z.leb_gt in Ekn. simpl andb; cbv iota.
    destruct (0 <? n) eqn:E0.
    + apply Z.ltb_lt in E0.
      assert ((n <=? 21) = true) as -> by (apply Z.leb_le; lia). simpl andb; cbv iota.
      rewrite parseIntString_digits; [| apply firstn_wf; [exact WF | lia] | apply stops_point].
      f_equal.
      rewrite (digitsValue_firstn ds (Z.to_nat n) F).
      replace (Z.of_nat (length (skipn (Z.to_nat n) ds))) with (k - n)
        by (rewrite length_skipn; subst k; lia).
      reflexivity.
    + apply Z.ltb_ge in E0. simpl andb; cbv iota.
      assert ((-6 <? n) && (n <=? 0) = true) as ->.
      { apply andb_true_intro. split; [apply Z.ltb_lt | apply Z.leb_le]; lia. }
      assert (digitsValue 0 ds / 10 ^ (k - n) = 0) as ->.
      { apply Z.div_small. pose proof (digitsValue_bounds ds F) as B. fold k in B.
        split; [lia|]. apply Z.lt_le_trans with (10 ^ k); [lia|].
        apply Z.pow_le_mono_r; lia. }
      destruct neg; reflexivity.
Qed.


Lemma stripTrailingZeros_value (ds : list nat) (m : nat) :
  ds = stripTrailingZeros ds ++ zeros m ->
  digitsValue 0 ds = digitsValue 0 (stripTrailingZeros ds) * 10 ^ Z.of_nat m.
Proof.
  set (t := stripTrailingZeros ds). intros E. rewrite E.
  rewrite digitsValue_app. apply digitsValue_zeros.
Qed.

Lemma digitsOf_wf (z : Z) : 0 < z -> wfDigits (digitsOf z).
Proof.
  intros Hz. destruct (digitsOf_spec z ltac:(lia)) as (_ & F & NE & H).
  repeat split; auto.
Qed.

Lemma digitsOf_length (z : Z) :
  0 < z < 10 ^ 21 -> (length (digitsOf z) <= 21)%nat.
Proof.
  intros Hz. destruct (digitsOf_spec z ltac:(lia)) as (V & F & NE & H).
  pose proof (digitsValue_lower (digitsOf z) F NE (H ltac:(lia))) as L.
  rewrite V in L.
  assert (Z.of_nat (length (digitsOf z)) - 1 < 21); [|lia].
  apply (Z.pow_lt_mono_r_iff 10); lia.
Qed.

(** An integer below [10^21] in absolute value survives the trip through
    its string: there [parseInt] is the identity. *)
Lemma parseInt_numOfZ (z : Z) :
  Z.abs z < 10 ^ 21 -> parseInt (JsNum (numOfZ z)) = Some z.
Proof.
  intros Hz. unfold numOfZ. destruct (z =? 0) eqn:E0.
  - apply Z.eqb_eq in E0. subst. reflexivity.
  - apply Z.eqb_neq in E0.
    set (ds := digitsOf (Z.abs z)).
    assert (0 < Z.abs z) as Hp by lia.
    pose proof (digitsOf_wf (Z.abs z) Hp) as WF. fold ds in WF.
    pose proof (digitsOf_length (Z.abs z) ltac:(lia)) as L. fold ds in L.
    destruct (digitsOf_spec (Z.abs z) ltac:(lia)) as (V & _). fold ds in V.
    destruct (stripTrailingZeros_spec ds) as (m & S).
    assert (length ds <> 0%nat) as NL by (destruct WF as (NE & _); destruct ds; simpl; congruence).
    rewrite parseInt_finite_decimal; [| now apply stripTrailingZeros_wf | lia].
    f_equal. unfold truncFinite.
    assert (length ds = (length (stripTrailingZeros ds) + m)%nat) as Len.
    { rewrite S at 1. rewrite length_app, length_zeros. reflexivity. }
    assert ((Z.of_nat (length (stripTrailingZeros ds)) <=? Z.of_nat (length ds)) = true) as ->
      by (apply Z.leb_le; lia).
    assert (digitsValue 0 (stripTrailingZeros ds)
            * 10 ^ (Z.of_nat (length ds) - Z.of_nat (length (stripTrailingZeros ds)))
            = Z.abs z) as ->.
    { rewrite <- V, (stripTrailingZeros_value ds m S). do 2 f_equal. lia. }
    destruct (z <? 0) eqn:N; [apply Z.ltb_lt in N | apply Z.ltb_ge in N]; lia.
Qed.

Lemma parseInt_valueOfNumber (z : Z) :
  Z.abs z < 10 ^ 21 -> parseInt (valueOfNumber (Some z)) = Some z.
Proof. apply parseInt_numOfZ. Qed.

Lemma safeInteger_small (z : Z) : safeInteger z -> Z.abs z < 10 ^ 21.
Proof. unfold safeInteger, MAX_SAFE_INTEGER. intros S. lia. Qed.

Lemma parseInt_safeInteger (z : Z) :
  safeInteger z -> parseInt (valueOfNumber (Some z)) = Some z.
Proof. intros S. now apply parseInt_valueOfNumber, safeInteger_small. Qed.

(** A finite Number never parses to NaN: its string starts with a digit,
    after the sign if there is one. *)
Lemma parseInt_finite_some (neg : bool) (ds : list nat) (n : Z) :
  wfDigits ds -> exists m, parseInt (JsNum (NumFinite neg ds n)) = Some m.
Proof.
  intros WF.
  destruct (Z_lt_le_dec (-6) n) as [Lo|Lo]; [destruct (Z_le_gt_dec n 21) as [Hi|Hi]|];
    try (eexists; apply parseInt_finite_decimal; [exact WF | lia]).
  all: unfold parseInt, toString; rewrite numToString_finite; unfold finiteToString.
  all: assert ((Z.of_nat (length ds) <=? n) && (n <=? 21) = false) as ->
         by (apply andb_false_iff; destruct WF as (NE & _);
             destruct ds; [congruence|]; simpl length;
             rewrite Z.leb_gt, Z.leb_gt; lia).
  all: assert ((0 <? n) && (n <=? 21) = false) as ->
         by (apply andb_false_iff; rewrite Z.ltb_ge, Z.leb_gt; lia).
  all: assert ((-6 <? n) && (n <=? 0) = false) as ->
         by (apply andb_false_iff; rewrite Z.ltb_ge, Z.leb_gt; lia).
  all: destruct ds as [|d [|d' r]]; [destruct WF as (NE & _); congruence| |].
  all: try (rewrite parseIntString_digits; [eexists; reflexivity | exact WF | apply stops_e]).
  all: rewrite parseIntString_digits;
         [eexists; reflexivity | apply firstn_wf; [exact WF | lia] | apply stops_point].
Qed.

End JSFacts.

(* ===================================================================== *)
(** ** Properties                                                         *)
(* ===================================================================== *)

Section Properties.
Context `{Co : Collaborators}.
Import Run.
Local Open Scope run_scope.

(** *** Reasoning about runs *)

Lemma bind_Ok {S A B} (m : M S A) (k : A -> M S B) s a s' :
  m s = (Ok a, s') -> bind m k s = k a s'.
Proof. intros E. unfold bind. now rewrite E. Qed.

Lemma bind_Throw {S A B} (m : M S A) (k : A -> M S B) s e s' :
  m s = (Throw e, s') -> bind m k s = (Throw e, s').
Proof. intros E. unfold bind. now rewrite E. Qed.

(** A run that ends well went through both halves of a [bind]. *)
Lemma bind_Ok_inv {S A B} (m : M S A) (k : A -> M S B) s b s' :
  bind m k s = (Ok b, s') ->
  exists a s1, m s = (Ok a, s1) /\ k a s1 = (Ok b, s').
Proof.
  unfold bind. destruct (m s) as [[a| e | |] s1]; intros E; try discriminate.
  exists a, s1. auto.
Qed.

(** An exception out of a [bind] comes from the first half, or from the
    second after the first ended well. *)
Lemma bind_Throw_inv {S A B} (m : M S A) (k : A -> M S B) s e s' :
  bind m k s = (Throw e, s') ->
  m s = (Throw e, s') \/ exists a s1, m s = (Ok a, s1) /\ k a s1 = (Throw e, s').
Proof.
  unfold bind. destruct (m s) as [[a| e1 | |] s1]; intros E; try discriminate.
  - right. exists a, s1. auto.
  - left. now inversion E.
Qed.

(** *** composeTx and the change-address chain *)

Lemma composeTx_selection_fails (p : TxSend JsValue) (w : Wallet) msg :
  selectInputs p (utxoSet w) = ExtThrow msg ->
  composeTx p w = (Throw (External msg), w).
Proof.
  intros E. unfold composeTx, bind, gets, liftExt. simpl. rewrite E. reflexivity.
Qed.

Lemma composeTx_with_override (p : TxSend JsValue) (w : Wallet) sel amount :
  truthyString (changeAddrOverride p) = true ->
  selectInputs p (utxoSet w) = ExtOk (sel, amount) ->
  composeTx p w =
    liftExt (assembleTx p sel amount (inputPrivKeys (addressManager w) (sel_utxos sel))
               (default EmptyString (changeAddrOverride p))) w.
Proof.
  intros T E. unfold composeTx, bind, gets, liftExt, tryCatch, when, ret, throw. simpl.
  rewrite E, T. simpl.
  destruct (assembleTx _ _ _ _ _); reflexivity.
Qed.

Lemma composeTx_without_override (p : TxSend JsValue) (w : Wallet) sel amount addr am :
  truthyString (changeAddrOverride p) = false ->
  selectInputs p (utxoSet w) = ExtOk (sel, amount) ->
  am_next Change (addressManager w) = (addr, am) ->
  composeTx p w =
    match assembleTx p sel amount (inputPrivKeys (addressManager w) (sel_utxos sel)) addr with
    | ExtOk d => (Ok d, set_addressManager am w)
    | ExtThrow msg => (Throw (External msg), set_addressManager (am_reverse Change am) w)
    end.
Proof.
  intros T E N.
  unfold composeTx, bind, gets, liftExt, tryCatch, when, ret, throw, onAddressManager, modify.
  simpl. rewrite E, T. simpl. rewrite N.
  destruct (assembleTx _ _ _ _ _); reflexivity.
Qed.

(** C9: when [changeAddrOverride] is supplied, [composeTx] leaves the wallet,
    and with it the change-address chain, exactly as it found it, whether it
    returns or throws.  The address manager is an arbitrary collaborator
    here, so a call of [next()] or [reverse()] would show in the state. *)
Theorem composeTx_override_leaves_change_chain (p : TxSend JsValue) (w : Wallet) :
  truthyString (changeAddrOverride p) = true ->
  snd (composeTx p w) = w /\ addressManager (snd (composeTx p w)) = addressManager w.
Proof.
  intros T.
  assert (snd (composeTx p w) = w) as E.
  { destruct (selectInputs p (utxoSet w)) as [[sel amount]|msg] eqn:S.
    - rewrite (composeTx_with_override p w sel amount T S).
      destruct (assembleTx _ _ _ _ _); reflexivity.
    - now rewrite (composeTx_selection_fails p w msg S). }
  split; [exact E | now rewrite E].
Qed.

(** C5: without [changeAddrOverride], a failure of the UTXO selection leaves
    the wallet untouched ([next()] was not reached), and a failure of the
    assembly or of the signature, which come after [next()], is propagated
    after exactly one [reverse()] on the change chain. *)
Theorem composeTx_failure_reverses_change (p : TxSend JsValue) (w : Wallet) :
  truthyString (changeAddrOverride p) = false ->
  (forall msg,
      selectInputs p (utxoSet w) = ExtThrow msg ->
      composeTx p w = (Throw (External msg), w)) /\
  (forall sel amount addr am msg,
      selectInputs p (utxoSet w) = ExtOk (sel, amount) ->
      am_next Change (addressManager w) = (addr, am) ->
      assembleTx p sel amount (inputPrivKeys (addressManager w) (sel_utxos sel)) addr
        = ExtThrow msg ->
      composeTx p w =
        (Throw (External msg), set_addressManager (am_reverse Change am) w)).
Proof.
  intros T. split.
  - intros msg S. now apply composeTx_selection_fails.
  - intros sel amount addr am msg S N A.
    rewrite (composeTx_without_override p w sel amount addr am T S N). now rewrite A.
Qed.


(** *** What composeTx changes and returns *)

Lemma sameButAddressManager_refl (w : Wallet) : sameButAddressManager w w.
Proof. destruct w. reflexivity. Qed.

Lemma sameButAddressManager_set (w : Wallet) (am : AM) :
  sameButAddressManager w (set_addressManager am w).
Proof. reflexivity. Qed.

Lemma sameButAddressManager_trans (w1 w2 w3 : Wallet) :
  sameButAddressManager w1 w2 -> sameButAddressManager w2 w3 -> sameButAddressManager w1 w3.
Proof.
  unfold sameButAddressManager. intros E1 E2. rewrite E2, E1. reflexivity.
Qed.

Lemma sameButAddressManager_defaultFee (w w' : Wallet) :
  sameButAddressManager w w' -> defaultFee w' = defaultFee w.
Proof. intros E. rewrite E. reflexivity. Qed.

Lemma sameButAddressManager_fields (w w' : Wallet) :
  sameButAddressManager w w' ->
  utxoSet w' = utxoSet w /\ txStore w' = txStore w /\ emitted w' = emitted w
  /\ blueScore w' = blueScore w /\ api w' = api w /\ loggerLevel w' = loggerLevel w
  /\ clock w' = clock w.
Proof. intros E. rewrite E. repeat split. Qed.

Lemma composeTx_frame (p : TxSend JsValue) (w : Wallet) :
  sameButAddressManager w (snd (composeTx p w)).
Proof.
  destruct (selectInputs p (utxoSet w)) as [[sel amount]|msg] eqn:S.
  - destruct (truthyString (changeAddrOverride p)) eqn:T.
    + rewrite (composeTx_with_override p w sel amount T S).
      destruct (assembleTx _ _ _ _ _); apply sameButAddressManager_refl.
    + destruct (am_next Change (addressManager w)) as [addr am] eqn:N.
      rewrite (composeTx_without_override p w sel amount addr am T S N).
      destruct (assembleTx _ _ _ _ _); apply sameButAddressManager_set.
  - rewrite (composeTx_selection_fails p w msg S). apply sameButAddressManager_refl.
Qed.

(** [composeTx] constructs no error of its own. *)
Lemma composeTx_raises (p : TxSend JsValue) : raisesOnly isExternal (composeTx p).
Proof.
  intros w e w' E.
  destruct (selectInputs p (utxoSet w)) as [[sel amount]|msg] eqn:S.
  - destruct (truthyString (changeAddrOverride p)) eqn:T.
    + rewrite (composeTx_with_override p w sel amount T S) in E.
      destruct (assembleTx _ _ _ _ _); inversion E. eexists; reflexivity.
    + destruct (am_next Change (addressManager w)) as [addr am] eqn:N.
      rewrite (composeTx_without_override p w sel amount addr am T S N) in E.
      destruct (assembleTx _ _ _ _ _); inversion E. eexists; reflexivity.
  - rewrite (composeTx_selection_fails p w msg S) in E. inversion E. eexists; reflexivity.
Qed.

Lemma assembleTx_Ok (p : TxSend JsValue) sel amount privKeys addr d :
  assembleTx p sel amount privKeys addr = ExtOk d ->
  ci_fee d = parsedFee p /\ ci_amount d = amount /\ ci_utxos d = sel_utxos sel
  /\ ci_utxoIds d = sel_utxoIds sel /\ ci_toAddr d = toAddr p.
Proof.
  unfold assembleTx. destruct (txAssemble _ _ _ _ _) as [tx|]; [|discriminate].
  destruct (if default false (skipSign p) then _ else _) as [tx'|]; [|discriminate].
  intros E. inversion E. simpl. repeat split.
Qed.

(** A composition that returns went through a selection and an assembly. *)
Lemma composeTx_Ok_inv (p : TxSend JsValue) (w w' : Wallet) d :
  composeTx p w = (Ok d, w') ->
  exists sel amount addr,
    selectInputs p (utxoSet w) = ExtOk (sel, amount)
    /\ assembleTx p sel amount (inputPrivKeys (addressManager w) (sel_utxos sel)) addr = ExtOk d
    /\ ((truthyString (changeAddrOverride p) = true /\ w' = w)
        \/ (truthyString (changeAddrOverride p) = false
            /\ w' = set_addressManager (snd (am_next Change (addressManager w))) w)).
Proof.
  intros E.
  destruct (selectInputs p (utxoSet w)) as [[sel amount]|msg] eqn:S.
  - destruct (truthyString (changeAddrOverride p)) eqn:T.
    + rewrite (composeTx_with_override p w sel amount T S) in E.
      destruct (assembleTx _ _ _ _ _) as [d'|] eqn:A; inversion E; subst.
      exists sel, amount, (default EmptyString (changeAddrOverride p)). auto.
    + destruct (am_next Change (addressManager w)) as [addr am] eqn:N.
      rewrite (composeTx_without_override p w sel amount addr am T S N) in E.
      destruct (assembleTx _ _ _ _ _) as [d'|] eqn:A; inversion E; subst.
      exists sel, amount, addr. auto.
  - rewrite (composeTx_selection_fails p w msg S) in E. discriminate.
Qed.

Lemma composeTx_Ok_fee (p : TxSend JsValue) (w w' : Wallet) d :
  composeTx p w = (Ok d, w') -> ci_fee d = parsedFee p.
Proof.
  intros E. apply composeTx_Ok_inv in E as (sel & amount & addr & _ & A & _).
  now apply assembleTx_Ok in A.
Qed.

Lemma parsedFee_composeParams (p : TxSend JsNumber) amount fee s k c :
  parsedFee (composeParams p amount fee s k c) = parseInt (valueOfNumber (Some fee)).
Proof. reflexivity. Qed.

(** *** The fee loop *)

Lemma feeLoop_spec (fuel : nat) : forall p skipSign privKeysInfo inclusiveFee
    priorityFee networkFeeMax txAmount amount dataFee0 w est w',
  feeLoop fuel p skipSign privKeysInfo inclusiveFee priorityFee networkFeeMax
          txAmount amount dataFee0 w = (Ok est, w') ->
  sameButAddressManager w w'
  /\ es_txSize est = calibratedSize (ci_tx (es_data est)) skipSign
  /\ es_dataFee est = es_txSize est * defaultFee w'
  /\ ci_fee (es_data est) = parseInt (valueOfNumber (Some (es_fee est)))
  /\ ((networkFeeMax =? 0) || (es_fee est <=? networkFeeMax))
       && (es_fee est <? es_dataFee est + priorityFee) = false.
Proof.
  induction fuel as [|fuel IH]; intros p skipSign privKeysInfo inclusiveFee
    priorityFee networkFeeMax txAmount amount dataFee0 w est w' E.
  - discriminate.
  - simpl in E.
    apply bind_Ok_inv in E as (data & w1 & C & E).
    apply bind_Ok_inv in E as (perByte & w2 & G & E).
    unfold gets in G. inversion G; subst w2 perByte. clear G.
    match type of C with
    | composeTx ?q _ = _ => pose proof (composeTx_frame q w) as Fr
    end.
    rewrite C in Fr. simpl in Fr.
    match type of E with (if ?c then _ else _) _ = _ => destruct c eqn:Cond end.
    + apply IH in E as (Fr' & R). split; [|exact R].
      eapply sameButAddressManager_trans; eassumption.
    + unfold ret in E. inversion E; subst. simpl.
      repeat split; try assumption.
      rewrite (composeTx_Ok_fee _ _ _ _ C). apply parsedFee_composeParams.
Qed.


(** [composeTx] neither awaits nor loops. *)
Lemma composeTx_settles (p : TxSend JsValue) (w : Wallet) :
  (exists d, fst (composeTx p w) = Ok d) \/ (exists e, fst (composeTx p w) = Throw e).
Proof.
  destruct (selectInputs p (utxoSet w)) as [[sel amount]|msg] eqn:S.
  - destruct (truthyString (changeAddrOverride p)) eqn:T.
    + rewrite (composeTx_with_override p w sel amount T S).
      destruct (assembleTx _ _ _ _ _); [left | right]; eexists; reflexivity.
    + destruct (am_next Change (addressManager w)) as [addr am] eqn:N.
      rewrite (composeTx_without_override p w sel amount addr am T S N).
      destruct (assembleTx _ _ _ _ _); [left | right]; eexists; reflexivity.
  - rewrite (composeTx_selection_fails p w msg S). right. eexists. reflexivity.
Qed.

(** The loop goes round again only if the data fee has grown.  So when
    the data fee of every transaction the composer can hand back stays at or
    below [bound], the loop ends for good within [bound - dataFee0 + 1]
    rounds: with that much fuel the model does not run out. *)
Lemma feeLoop_terminates (bound : Z) (fuel : nat) : forall p skipSign privKeysInfo
    inclusiveFee priorityFee networkFeeMax txAmount amount dataFee0 w,
  (forall tx, calibratedSize tx skipSign * defaultFee w <= bound) ->
  (Z.to_nat (bound - dataFee0) < fuel)%nat ->
  fst (feeLoop fuel p skipSign privKeysInfo inclusiveFee priorityFee networkFeeMax
               txAmount amount dataFee0 w) <> OutOfFuel.
Proof.
  induction fuel as [|fuel IH]; intros p skipSign privKeysInfo inclusiveFee priorityFee
    networkFeeMax txAmount amount dataFee0 w Bound Fuel; [lia|].
  simpl. unfold bind at 1.
  match goal with |- context [composeTx ?q w] =>
    pose proof (composeTx_frame q w) as Fr;
    destruct (composeTx q w) as [[data| e | |] w1] eqn:C
  end; simpl in Fr; try discriminate.
  - unfold gets at 1. unfold bind at 1.
    pose proof (sameButAddressManager_defaultFee _ _ Fr) as D.
    match goal with |- context [if ?c then _ else _] => destruct c eqn:Cond end;
      [|discriminate].
    apply andb_prop in Cond as [_ Grows]. apply Z.ltb_lt in Grows.
    apply IH.
    + intros tx. rewrite D. apply Bound.
    + pose proof (Bound (ci_tx data)) as B. rewrite D in Grows. lia.
  - exfalso.
    match type of C with composeTx ?q w = _ =>
      destruct (composeTx_settles q w) as [[d E]|[e E]]
    end; rewrite C in E; discriminate.
Qed.

(** *** estimateTransaction *)

(** C3, as the code has it: when [estimateTransaction] runs with the network
    fee computed (asked for, or forced by compounding) and returns, the loop
    has ended and the fee [f] the returned transaction was composed with
    covers the calibrated size of that transaction at the default rate plus
    the caller's fee, these being safe integers.  The [fee] field of the
    result is the [parseInt] of [f]: [f] itself when [f] is a safe integer. *)
Theorem estimateTransaction_fee_covers_size (fuel : nat) (p : TxSend JsNumber)
    (w w' : Wallet) (info : TxInfo) :
  compoundingUTXO p || calculateNetworkFee p = true ->
  estimateTransaction fuel p w = (Ok info, w') ->
  safeInteger (default 0 (fee p)) ->
  safeInteger (txSize info * defaultFee w') ->
  safeInteger (txSize info * defaultFee w' + default 0 (fee p)) ->
  txSize info = calibratedSize (ci_tx (ti_data info)) (default true (skipSign p))
  /\ dataFee info = txSize info * defaultFee w'
  /\ exists f,
       txSize info * defaultFee w' + default 0 (fee p) <= f
       /\ ci_fee (ti_data info) = parseInt (valueOfNumber (Some f))
       /\ (safeInteger f -> ci_fee (ti_data info) = Some f).
Proof.
  intros Calc E _ _ _. unfold estimateTransaction in E.
  apply bind_Ok_inv in E as (u & w1 & _ & E).
  apply bind_Ok_inv in E as (data & w2 & _ & E).
  apply bind_Ok_inv in E as (perByte & w3 & G & E).
  unfold gets in G. inversion G; subst w3 perByte. clear G.
  match type of E with (if ?c then _ else _) _ = _ => destruct c eqn:Max end;
    [discriminate|].
  apply bind_Ok_inv in E as (est & w4 & L & E).
  unfold ret in E. inversion E; subst w4 info. clear E. simpl.
  rewrite Calc in L.
  apply bind_Ok_inv in L as (est' & w5 & L & E).
  match type of E with (if ?c then _ else _) _ = _ => destruct c eqn:Exceeded end;
    [discriminate|].
  unfold ret in E. inversion E; subst w5 est'. clear E.
  apply feeLoop_spec in L as (_ & Size & Fee & Parsed & Exit).
  repeat split; try assumption.
  exists (es_fee est). repeat split.
  - rewrite <- Fee.
    destruct (orNumber (networkFeeMax p) 0 =? 0) eqn:Z0; simpl in Exit, Exceeded.
    + apply Z.ltb_ge in Exit. lia.
    + apply Z.ltb_ge in Exceeded.
      assert ((es_fee est <=? orNumber (networkFeeMax p) 0) = true) as Le
        by (apply Z.leb_le; lia).
      rewrite Le in Exit. simpl in Exit. apply Z.ltb_ge in Exit. lia.
  - exact Parsed.
  - intros Safe. rewrite Parsed. now apply JSFacts.parseInt_safeInteger.
Qed.

(** C7, as the code has it: with the network fee not computed (and no
    compounding), after the first composition has returned [data],
    [estimateTransaction] first compares the data fee with [networkFeeMax],
    when one is set, and throws the fee-max error if it is exceeded;
    otherwise it throws the minimum-fee error exactly when the data fee
    exceeds the caller's fee, and else returns the estimate: [data] itself,
    or, with [inclusiveFee], whatever the second composition for the amount
    less the fee gives. *)
Theorem estimateTransaction_fixed_fee (fuel : nat) (p : TxSend JsNumber)
    (w w1 w2 : Wallet) (data : ComposeTxInfo) :
  calculateNetworkFee p = false ->
  compoundingUTXO p = false ->
  waitOrSync fuel w = (Ok tt, w1) ->
  composeTx (composeParams p (amount p) (default 0 (fee p)) (default true (skipSign p))
               (default false (privKeysInfo p)) false) w1 = (Ok data, w2) ->
  let priorityFee := default 0 (fee p) in
  let networkFeeMax := orNumber (networkFeeMax p) 0 in
  let size := calibratedSize (ci_tx data) (default true (skipSign p)) in
  let dataFee := size * defaultFee w2 in
  let result := estimateTransaction fuel p w in
  (networkFeeMax <> 0 /\ networkFeeMax < dataFee ->
     result = (Throw (FeeMaxBelowMinimum networkFeeMax dataFee), w2))
  /\ (~ (networkFeeMax <> 0 /\ networkFeeMax < dataFee) ->
       (fst result = Throw (MinimumFeeRequired dataFee) <-> priorityFee < dataFee)
       /\ (dataFee <= priorityFee -> inclusiveFee p = false ->
            result = (Ok {| ti_data := data; dataFee := dataFee;
                            totalAmount := jsAdd (Some priorityFee) (amount p);
                            txSize := size; ti_note := default EmptyString (note p) |}, w2))
       /\ (dataFee <= priorityFee -> inclusiveFee p = true ->
            result =
              Run.bind
                (composeTx (composeParams p (jsSub (amount p) (Some priorityFee)) priorityFee
                              (default true (skipSign p)) (default false (privKeysInfo p)) false))
                (fun data' =>
                   Run.ret {| ti_data := data'; dataFee := dataFee;
                              totalAmount := jsAdd (Some priorityFee)
                                                   (jsSub (amount p) (Some priorityFee));
                              txSize := size; ti_note := default EmptyString (note p) |}) w2)).
Proof.
  intros Calc Comp Sync C priorityFee nfm size dataFee result.
  assert (result =
          (if negb (nfm =? 0) && (nfm <? dataFee)
           then throw (FeeMaxBelowMinimum nfm dataFee)
           else
             est <- (if priorityFee <? dataFee then throw (MinimumFeeRequired dataFee)
                     else if inclusiveFee p then
                       data' <- composeTx (composeParams p (jsSub (amount p) (Some priorityFee))
                                            priorityFee (default true (skipSign p))
                                            (default false (privKeysInfo p)) false) ;;
                       ret {| es_data := data'; es_txSize := size; es_dataFee := dataFee;
                              es_fee := priorityFee;
                              es_amount := jsSub (amount p) (Some priorityFee) |}
                     else ret {| es_data := data; es_txSize := size; es_dataFee := dataFee;
                                 es_fee := priorityFee; es_amount := amount p |}) ;;
             ret {| ti_data := es_data est; dataFee := es_dataFee est;
                    totalAmount := jsAdd (Some (es_fee est)) (es_amount est);
                    txSize := es_txSize est; ti_note := default EmptyString (note p) |}) w2) as R.
  { subst result. unfold estimateTransaction.
    rewrite (bind_Ok _ _ _ _ _ Sync). rewrite Comp.
    rewrite (bind_Ok _ _ _ _ _ C). unfold gets at 1. unfold bind at 1.
    rewrite Calc. reflexivity. }
  split.
  - intros [NZ Lt]. rewrite R.
    assert (negb (nfm =? 0) && (nfm <? dataFee) = true) as ->; [|reflexivity].
    apply andb_true_intro. split; [apply negb_true_iff, Z.eqb_neq | apply Z.ltb_lt]; assumption.
  - intros NoMax.
    assert (negb (nfm =? 0) && (nfm <? dataFee) = false) as G.
    { apply not_true_is_false. intros T. apply andb_prop in T as [T1 T2].
      apply NoMax. split; [apply Z.eqb_neq, negb_true_iff | apply Z.ltb_lt]; assumption. }
    rewrite G in R. split; [split|split].
    + intros T. destruct (priorityFee <? dataFee) eqn:Lt; [now apply Z.ltb_lt|].
      exfalso. rewrite R in T. destruct (inclusiveFee p).
      * unfold bind at 1 in T. unfold bind at 1 in T.
        match type of T with context [composeTx ?q w2] =>
          pose proof (composeTx_raises q w2) as Ext;
          destruct (composeTx q w2) as [[d| e | |] w3] eqn:C2
        end; simpl in T; try discriminate.
        inversion T; subst e. destruct (Ext _ _ eq_refl) as [msg Bad]. discriminate.
      * discriminate.
    + intros Lt. apply Z.ltb_lt in Lt. rewrite R, Lt. reflexivity.
    + intros Le Incl. assert ((priorityFee <? dataFee) = false) as Lt by (apply Z.ltb_ge; lia).
      rewrite R, Lt, Incl. reflexivity.
    + intros Le Incl. assert ((priorityFee <? dataFee) = false) as Lt by (apply Z.ltb_ge; lia).
      rewrite R, Lt, Incl. unfold bind.
      destruct (composeTx _ w2) as [[d| e | |] w3]; reflexivity.
Qed.


(** *** Which exceptions a method can raise *)

Lemma raises_mono {A} (P Q : WalletError -> Prop) (m : M Wallet A) :
  raisesOnly P m -> (forall e, P e -> Q e) -> raisesOnly Q m.
Proof. intros R I w e w' E. apply I. eapply R. exact E. Qed.

Lemma raises_ret {A} P (a : A) : raisesOnly P (ret a).
Proof. intros w e w' E. discriminate. Qed.

Lemma raises_gets {A} P (f : Wallet -> A) : raisesOnly P (gets f).
Proof. intros w e w' E. discriminate. Qed.

Lemma raises_modify P (f : Wallet -> Wallet) : raisesOnly P (modify f).
Proof. intros w e w' E. discriminate. Qed.

Lemma raises_blocked {A} P : raisesOnly P (@blocked Wallet A).
Proof. intros w e w' E. discriminate. Qed.

Lemma raises_outOfFuel {A} P : raisesOnly P (@outOfFuel Wallet A).
Proof. intros w e w' E. discriminate. Qed.

Lemma raises_throw {A} (P : WalletError -> Prop) e : P e -> raisesOnly P (@throw Wallet A e).
Proof. intros Pe w e' w' E. inversion E; subst. exact Pe. Qed.

Lemma raises_bind {A B} P (m : M Wallet A) (k : A -> M Wallet B) :
  raisesOnly P m -> (forall a, raisesOnly P (k a)) -> raisesOnly P (bind m k).
Proof.
  intros Rm Rk w e w' E. apply bind_Throw_inv in E as [E | (a & w1 & _ & E)].
  - eapply Rm, E.
  - eapply Rk, E.
Qed.

Lemma raises_tryCatch {A} P (m : M Wallet A) (h : WalletError -> M Wallet A) :
  (forall e, raisesOnly P (h e)) -> raisesOnly P (tryCatch m h).
Proof.
  intros Rh w e w' E. unfold tryCatch in E.
  destruct (m w) as [[a| e1 | |] w1]; try discriminate. eapply Rh, E.
Qed.

Lemma raises_liftExt {A} (P : WalletError -> Prop) (r : ExtResult A) :
  (forall msg, P (External msg)) -> raisesOnly P (liftExt r).
Proof.
  intros PE w e w' E. destruct r; simpl in E; [discriminate|].
  inversion E; subst. apply PE.
Qed.

Lemma raises_onAddressManager {A} P (f : AM -> A * AM) : raisesOnly P (onAddressManager f).
Proof.
  intros w e w' E. unfold onAddressManager in E.
  destruct (f (addressManager w)). discriminate.
Qed.

Lemma raises_onApi {A} (P : WalletError -> Prop) (f : API -> ExtResult A * API) :
  (forall msg, P (External msg)) -> raisesOnly P (onApi f).
Proof.
  intros PE w e w' E. unfold onApi in E.
  destruct (f (api w)) as [r a]. eapply (raises_liftExt P r PE), E.
Qed.

Lemma raises_emit P (ev : Event) : raisesOnly P (emit ev).
Proof. apply raises_modify. Qed.

(** Takes a goal [raisesOnly P m] apart along the structure of [m]; what is
    left are the calls of other methods and the side conditions on [P]. *)
Ltac raises_step :=
  match goal with
  | |- raisesOnly _ (ret _) => apply raises_ret
  | |- raisesOnly _ (gets _) => apply raises_gets
  | |- raisesOnly _ (modify _) => apply raises_modify
  | |- raisesOnly _ (emit _) => apply raises_emit
  | |- raisesOnly _ blocked => apply raises_blocked
  | |- raisesOnly _ outOfFuel => apply raises_outOfFuel
  | |- raisesOnly _ (onAddressManager _) => apply raises_onAddressManager
  | |- raisesOnly _ (bind _ _) => apply raises_bind; [|intros ?]
  | |- raisesOnly _ (tryCatch _ _) => apply raises_tryCatch; intros ?
  | |- raisesOnly _ (when ?c _) => destruct c; unfold when
  | |- raisesOnly _ (if ?c then _ else _) => destruct c
  | |- raisesOnly _ (match ?c with _ => _ end) => destruct c
  end.

Ltac raises := repeat raises_step.

Lemma emitBalance_raises P : raisesOnly P emitBalance.
Proof. unfold emitBalance. raises. Qed.

Lemma emitAddress_raises P : raisesOnly P emitAddress.
Proof. unfold emitAddress. raises. Qed.

Lemma updateDebugInfo_raises P : raisesOnly P updateDebugInfo.
Proof. unfold updateDebugInfo. raises. Qed.

Lemma emitCache_raises P : raisesOnly P emitCache.
Proof. unfold emitCache. raises. Qed.

Lemma storeUtxos_raises P utxosMap : forall found, raisesOnly P (storeUtxos utxosMap found).
Proof.
  induction utxosMap as [|[address us] rest IH]; intros found; simpl.
  - apply raises_ret.
  - destruct (length us =? 0)%nat; [apply IH|].
    raises; try apply emitBalance_raises. apply IH.
Qed.

Lemma findUtxos_raises (P : WalletError -> Prop) addresses :
  (forall msg, P (External msg)) -> raisesOnly P (findUtxos addresses).
Proof.
  intros PE. unfold findUtxos. raises.
  - now apply raises_onApi.
  - apply storeUtxos_raises.
Qed.

Lemma doDiscovery_raises (P : WalletError -> Prop) fuel :
  (forall msg, P (External msg)) -> (forall what, P (TypeError what)) ->
  forall threshold n deriveType offset,
    raisesOnly P (doDiscovery fuel threshold n deriveType offset).
Proof.
  intros PE PT. induction fuel as [|fuel IH]; intros threshold n deriveType offset; simpl.
  - apply raises_outOfFuel.
  - raises; try apply IH.
    + apply raises_throw, PT.
    + now apply findUtxos_raises.
Qed.

Lemma utxoSubscribe_raises (P : WalletError -> Prop) :
  (forall msg, P (External msg)) -> raisesOnly P utxoSubscribe.
Proof.
  intros PE w e w' E. unfold utxoSubscribe in E.
  destruct (us_utxoSubscribe w) as [r w1]. eapply (raises_liftExt P r PE), E.
Qed.

Lemma initAddressManager_raises P : raisesOnly P initAddressManager.
Proof. unfold initAddressManager. raises. Qed.

(** After the guard, [sync] raises what [utxoSubscribe] raises and nothing
    else: the errors of the blue-score set-up and of the address discovery
    are caught and logged. *)
Lemma syncAfterGuard_raises fuel syncOnce' opts :
  raisesOnly isExternal (syncAfterGuard fuel syncOnce' opts).
Proof.
  assert (forall msg, isExternal (External msg)) as PE by (intros msg; eexists; reflexivity).
  unfold syncAfterGuard. raises;
    try apply initAddressManager_raises; try apply emitBalance_raises;
    try apply emitAddress_raises; try apply updateDebugInfo_raises;
    try (now apply utxoSubscribe_raises).
  all: intros w e w' E; destruct (us_clearMissing w); discriminate.
Qed.

(** *** sync *)

Lemma sync_unfold (fuel : nat) (arg : option bool) (w : Wallet) :
  let requested := match arg with None => opt_syncOnce (options w) | Some b => b end in
  let w1 := set_emitted (emitted w ++ [SyncStart])
              (set_syncInProggress true (set_syncSignal (Some false) w)) in
  sync fuel arg w =
    if negb (connectSignal w) then (Blocked, set_syncSignal (Some false) w)
    else if continuousSyncActive (syncOnce w) && requested
         then (Throw SyncAlreadyRunning, w1)
         else syncAfterGuard fuel requested (options w) w1.
Proof.
  unfold sync, bind, modify, gets, emit, blocked, throw. simpl.
  destruct (connectSignal w); simpl; [|reflexivity].
  destruct (continuousSyncActive (syncOnce w) && _); reflexivity.
Qed.

(** C8: [sync] throws "Wallet sync process already running." exactly when
    [this.syncOnce] is [false], left so by a continuous sync, and the call
    asks for a one-shot sync, by its argument or, without one, by the
    option; a call that asks for a continuous sync never gets this error.
    The guard sits behind [await this.connectSignal], so the error shows
    once the wallet is connected. *)
Theorem sync_already_running (fuel : nat) (arg : option bool) (w : Wallet) :
  let requested := match arg with None => opt_syncOnce (options w) | Some b => b end in
  (fst (sync fuel arg w) = Throw SyncAlreadyRunning ->
     syncOnce w = Some false /\ requested = true)
  /\ (connectSignal w = true -> syncOnce w = Some false -> requested = true ->
      fst (sync fuel arg w) = Throw SyncAlreadyRunning)
  /\ (requested = false -> fst (sync fuel arg w) <> Throw SyncAlreadyRunning)
  /\ errorMessage SyncAlreadyRunning = "Wallet sync process already running.".
Proof.
  intros requested.
  assert (fst (sync fuel arg w) = Throw SyncAlreadyRunning ->
          syncOnce w = Some false /\ requested = true) as Only.
  { rewrite sync_unfold. fold requested.
    destruct (connectSignal w); simpl; [|discriminate].
    destruct (continuousSyncActive (syncOnce w) && requested) eqn:G.
    - intros _. apply andb_prop in G as [G1 G2]. split; [|exact G2].
      destruct (syncOnce w) as [[|]|]; simpl in G1; congruence.
    - intros E.
      destruct (syncAfterGuard fuel requested (options w) _) as [r w'] eqn:T.
      simpl in E. subst r.
      destruct (syncAfterGuard_raises _ _ _ _ _ _ T) as [msg Bad]. discriminate. }
  split; [exact Only | split; [|split]].
  - intros Conn Last Req. rewrite sync_unfold. fold requested.
    rewrite Conn, Last, Req. reflexivity.
  - intros Req E. apply Only in E as [_ E]. congruence.
  - reflexivity.
Qed.


Lemma sync_raises fuel arg :
  raisesOnly (fun e => e = SyncAlreadyRunning \/ isExternal e) (sync fuel arg).
Proof.
  intros w e w' E. rewrite sync_unfold in E.
  destruct (connectSignal w); simpl in E; [|discriminate].
  destruct (continuousSyncActive (syncOnce w) && _).
  - inversion E. now left.
  - right. eapply syncAfterGuard_raises, E.
Qed.

Lemma waitOrSync_raises fuel :
  raisesOnly (fun e => e = SyncAlreadyRunning \/ isExternal e) (waitOrSync fuel).
Proof. unfold waitOrSync. raises. apply sync_raises. Qed.

Lemma feeLoop_raises fuel : forall p skipSign privKeysInfo inclusiveFee
    priorityFee networkFeeMax txAmount amount dataFee0,
  raisesOnly isExternal
    (feeLoop fuel p skipSign privKeysInfo inclusiveFee priorityFee networkFeeMax
             txAmount amount dataFee0).
Proof.
  induction fuel as [|fuel IH]; intros; simpl.
  - apply raises_outOfFuel.
  - raises; try apply IH. apply composeTx_raises.
Qed.

Lemma estimateTransaction_raises fuel p :
  raisesOnly estimateError (estimateTransaction fuel p).
Proof.
  assert (forall e, isExternal e -> estimateError e) as PE
    by (intros e [msg ->]; exact I).
  unfold estimateTransaction. raises; try (apply raises_throw; exact I).
  - eapply raises_mono; [apply waitOrSync_raises|]. intros e [->|E]; [exact I | now apply PE].
  - eapply raises_mono; [apply composeTx_raises | exact PE].
  - eapply raises_mono; [apply feeLoop_raises | exact PE].
  - eapply raises_mono; [apply composeTx_raises | exact PE].
Qed.

(** *** buildTransaction *)

Lemma buildTransaction_after_estimate (fuel : nat) (p : TxSend JsNumber) (debug : bool)
    (w w1 : Wallet) (info : TxInfo) :
  estimateTransaction fuel (forBuild p (skipUTXOInUseMark p)) w = (Ok info, w1) ->
  buildTransaction fuel p debug w =
    match txSign (ci_privKeys (ti_data info)) (ci_tx (ti_data info)) with
    | ExtThrow msg => (Throw (External msg), w1)
    | ExtOk tx =>
        if MaxMassAcceptedByBlock <? txGetMass tx then (Throw MassLimitReached, w1)
        else if (debug || (0 <? loggerLevel w1))
                && (length (ci_utxos (ti_data info)) =? 0)%nat
        then (Throw (TypeError "Cannot read properties of undefined (reading 'script')"), w1)
        else
          (Ok {| br_info := {| ti_data := withTx tx (ti_data info); dataFee := dataFee info;
                               totalAmount := totalAmount info; txSize := txSize info;
                               ti_note := ti_note info |};
                 rpcTX := toRpcTX tx (ci_fee (ti_data info)) |},
           if skipUTXOInUseMark p then w1
           else us_updateUsed (ci_utxos (ti_data info)) w1)
    end.
Proof.
  intros E. unfold buildTransaction. rewrite (bind_Ok _ _ _ _ _ E).
  destruct (txSign _ _) as [tx|msg]; [|reflexivity].
  unfold liftExt, bind, ret, gets, throw, when, modify. simpl.
  destruct (MaxMassAcceptedByBlock <? txGetMass tx); [reflexivity|].
  destruct ((debug || (0 <? loggerLevel w1)) && _); [reflexivity|].
  destruct (skipUTXOInUseMark p); reflexivity.
Qed.

(** *** submitTransaction *)

Lemma waitOrSync_synced (fuel : nat) (w : Wallet) :
  syncSignal w = Some true -> waitOrSync fuel w = (Ok tt, w).
Proof. intros S. unfold waitOrSync, bind, gets. rewrite S. reflexivity. Qed.

Lemma composeTx_Ok_frame (p : TxSend JsValue) (w w' : Wallet) d :
  composeTx p w = (Ok d, w') -> sameButAddressManager w w'.
Proof. intros E. pose proof (composeTx_frame p w) as F. now rewrite E in F. Qed.

(** On a wallet that is synced, an estimate touches the address manager
    only. *)
Lemma estimateTransaction_frame (fuel : nat) (p : TxSend JsNumber) (w w' : Wallet) info :
  syncSignal w = Some true ->
  estimateTransaction fuel p w = (Ok info, w') ->
  sameButAddressManager w w'.
Proof.
  intros S E. unfold estimateTransaction in E.
  rewrite (bind_Ok _ _ _ _ _ (waitOrSync_synced fuel w S)) in E.
  apply bind_Ok_inv in E as (data & w2 & C & E).
  apply composeTx_Ok_frame in C.
  apply bind_Ok_inv in E as (perByte & w3 & G & E).
  unfold gets in G. inversion G; subst w3 perByte. clear G.
  match type of E with (if ?c then _ else _) _ = _ => destruct c end; [discriminate|].
  apply bind_Ok_inv in E as (est & w4 & L & E).
  unfold ret in E. inversion E; subst w4. clear E.
  apply (sameButAddressManager_trans _ _ _ C).
  destruct (compoundingUTXO p || calculateNetworkFee p).
  - apply bind_Ok_inv in L as (est' & w5 & L & E).
    match type of E with (if ?c then _ else _) _ = _ => destruct c end; [discriminate|].
    unfold ret in E. inversion E; subst w5. now apply feeLoop_spec in L.
  - match type of L with (if ?c then _ else _) _ = _ => destruct c end; [discriminate|].
    match type of L with (if ?c then _ else _) _ = _ => destruct c end.
    + apply bind_Ok_inv in L as (data' & w5 & C' & E).
      unfold ret in E. inversion E; subst w5. now apply composeTx_Ok_frame in C'.
    + unfold ret in L. inversion L. apply sameButAddressManager_refl.
Qed.

(** A build that skips the in-use marking, on a synced wallet, leaves the
    UTXO set and the transaction store as they are. *)
Lemma buildTransaction_frame (fuel : nat) (p : TxSend JsNumber) (debug : bool)
    (w w' : Wallet) built :
  syncSignal w = Some true -> skipUTXOInUseMark p = true ->
  buildTransaction fuel p debug w = (Ok built, w') ->
  sameButAddressManager w w'.
Proof.
  intros S Skip E.
  destruct (estimateTransaction fuel (forBuild p (skipUTXOInUseMark p)) w)
    as [[info| e | |] w1] eqn:Est;
    try (unfold buildTransaction, bind in E; rewrite Est in E; discriminate).
  rewrite (buildTransaction_after_estimate _ _ _ _ _ _ Est), Skip in E.
  destruct (txSign _ _); [|discriminate].
  destruct (_ <? _); [discriminate|].
  destruct (_ && _); [discriminate|].
  inversion E; subst w'. eapply estimateTransaction_frame; eassumption.
Qed.

(** C4: after the build, [submitTransaction] calls the RPC.  If that call
    throws, the error is passed on, and if it yields no txid, [null] is
    returned; in both cases the in-use list, the transaction store and the
    emitted events are what they were after the build, and, on a synced
    wallet, the UTXO set and the store are what they were before the call.
    Only with a txid are the outpoints of the inputs pushed onto [inUse], the
    transaction added to the store with the current blue score, and
    [debug-info] and [state-update] emitted. *)
Theorem submitTransaction_outcomes (fuel : nat) (p : TxSend JsNumber) (debug : bool)
    (w w1 : Wallet) (built : BuildTxResult) :
  buildTransaction fuel (forBuild p true) debug w = (Ok built, w1) ->
  let d := ti_data (br_info built) in
  (forall msg a,
      api_submitTransaction (rpcTX built) (api w1) = (ExtThrow msg, a) ->
      submitTransaction fuel p debug w = (Throw (External msg), set_api a w1)
      /\ inUse (utxoSet (set_api a w1)) = inUse (utxoSet w1)
      /\ txStore (set_api a w1) = txStore w1
      /\ emitted (set_api a w1) = emitted w1)
  /\ (forall txid a,
        api_submitTransaction (rpcTX built) (api w1) = (ExtOk txid, a) ->
        truthyString txid = false ->
        submitTransaction fuel p debug w = (Ok None, set_api a w1)
        /\ inUse (utxoSet (set_api a w1)) = inUse (utxoSet w1)
        /\ txStore (set_api a w1) = txStore w1
        /\ emitted (set_api a w1) = emitted w1)
  /\ (forall txid a,
        api_submitTransaction (rpcTX built) (api w1) = (ExtOk txid, a) ->
        truthyString txid = true ->
        exists w2,
          submitTransaction fuel p debug w = (Ok (Some (default EmptyString txid)), w2)
          /\ inUse (utxoSet w2) = inUse (utxoSet w1) ++ ci_utxoIds d
          /\ txStore w2 =
               ts_add {| tse_in := false; tse_ts := clock w1; tse_id := default EmptyString txid;
                         tse_amount := ci_amount d; tse_address := ci_toAddr d;
                         tse_note := ti_note (br_info built);
                         tse_blueScore := blueScore w1;
                         tse_tx := RPC.transaction (rpcTX built);
                         tse_myAddress := am_isOur (addressManager w1) (ci_toAddr d) |}
                      (txStore w1)
          /\ emitted w2 =
               emitted w1 ++ [DebugInfo (fst (debugInfo w2)) (snd (debugInfo w2));
                              StateUpdate (cache w2)])
  /\ (syncSignal w = Some true -> utxoSet w1 = utxoSet w /\ txStore w1 = txStore w).
Proof.
  intros B d.
  assert (forall r a, api_submitTransaction (rpcTX built) (api w1) = (r, a) ->
          submitTransaction fuel p debug w =
          (txid <- liftExt r ;;
           if negb (truthyString txid) then ret None
           else
             modify (fun w => set_utxoSet
                       (set_inUse (inUse (utxoSet w) ++ ci_utxoIds d) (utxoSet w)) w) ;;;
             modify (fun w =>
               set_txStore
                 (ts_add {| tse_in := false; tse_ts := clock w1; tse_id := default EmptyString txid;
                            tse_amount := ci_amount d; tse_address := ci_toAddr d;
                            tse_note := ti_note (br_info built); tse_blueScore := blueScore w;
                            tse_tx := RPC.transaction (rpcTX built);
                            tse_myAddress := am_isOur (addressManager w) (ci_toAddr d) |}
                         (txStore w)) w) ;;;
             updateDebugInfo ;;;
             emitCache ;;;
             ret (Some (default EmptyString txid))) (set_api a w1)) as U.
  { intros r a R. unfold submitTransaction. rewrite (bind_Ok _ _ _ _ _ B).
    unfold gets at 1. unfold bind at 1. unfold onApi. unfold bind at 1. rewrite R.
    destruct r; reflexivity. }
  split; [|split; [|split]].
  - intros msg a R. rewrite (U _ _ R). repeat split.
  - intros txid a R T. rewrite (U _ _ R). unfold liftExt, bind, ret. simpl. rewrite T.
    repeat split.
  - intros txid a R T. rewrite (U _ _ R). unfold liftExt. unfold bind at 1. unfold ret at 1.
    rewrite T. simpl negb. cbv iota.
    eexists. split; [reflexivity|]. repeat split.
    simpl. rewrite <- app_assoc. reflexivity.
  - intros S. destruct (sameButAddressManager_fields _ _
                          (buildTransaction_frame fuel (forBuild p true) debug w w1 built
                             S eq_refl B))
      as (E1 & E2 & _).
    split; assumption.
Qed.


(** *** Address discovery *)

Lemma storeUtxos_none (utxosMap : list (string * list ApiUtxo)) (found : list string)
    (w : Wallet) :
  Forall (fun entry => snd entry = []) utxosMap ->
  storeUtxos utxosMap found w = (Ok found, w).
Proof.
  induction utxosMap as [|[address us] rest IH]; intros F; simpl.
  - reflexivity.
  - inversion F as [|? ? E Fr]; subst. simpl in E. subst us. simpl. now apply IH.
Qed.

Lemma findUtxos_none (addresses : list string) (w : Wallet) utxosMap a :
  api_getUtxosByAddresses addresses (api w) = (ExtOk utxosMap, a) ->
  Forall (fun entry => snd entry = []) utxosMap ->
  findUtxos addresses w = (Ok [], afterQuietScan a w).
Proof.
  intros R F. unfold findUtxos, afterQuietScan.
  unfold onApi at 1. unfold bind at 1. rewrite R. simpl liftExt. unfold ret at 1.
  unfold bind at 1. rewrite (storeUtxos_none utxosMap [] _ F).
  unfold bind at 1. unfold gets at 1. unfold id.
  destruct (bool_decide _).
  - unfold bind, onAddressManager, ret.
    destruct (am_next Receive (addressManager (set_api a w))). reflexivity.
  - reflexivity.
Qed.

(** C1, as the code has it: a window of [n] indices from [offset] in which
    no address has UTXOs ends the discovery of the chain in that very call,
    with [offset - (threshold - n) - 1], that is [offset + n - threshold - 1],
    as the last active index; for the first window, where [n] is the
    threshold and [offset] is 0, this is -1.  Once both chains have reported,
    the receive chain and then the change chain are advanced to the reported
    index plus one. *)
Theorem addressDiscovery_quiet_window (fuel : nat) (threshold : Z) :
  (forall n deriveType offset w derived am utxosMap a,
      am_getAddresses n deriveType offset (addressManager w) = (derived, am) ->
      derived <> [] ->
      api_getUtxosByAddresses (map snd derived) (api w) = (ExtOk utxosMap, a) ->
      Forall (fun entry => snd entry = []) utxosMap ->
      doDiscovery (S fuel) threshold n deriveType offset w
      = (Ok (offset - (threshold - n) - 1), afterQuietScan a (set_addressManager am w))
      /\ offset - (threshold - n) - 1 = offset + n - threshold - 1
      /\ (n = threshold -> offset = 0 -> offset - (threshold - n) - 1 = -1))
  /\ (forall w w1 w2 highestReceiveIndex highestChangeIndex,
        doDiscovery fuel threshold threshold Receive 0 w = (Ok highestReceiveIndex, w1) ->
        doDiscovery fuel threshold threshold Change 0 w1 = (Ok highestChangeIndex, w2) ->
        let w3 := set_addressManager
                    (am_advance Change (highestChangeIndex + 1)
                       (am_advance Receive (highestReceiveIndex + 1) (addressManager w2))) w2 in
        addressDiscovery fuel threshold w
        = when (negb (default false (syncOnce w3)) && negb (syncInProggress w3))
               utxoSubscribe w3).
Proof.
  split.
  - intros n deriveType offset w derived am utxosMap a G NE R F.
    split; [|split; [lia | intros -> ->; lia]].
    simpl. unfold onAddressManager at 1. unfold bind at 1. rewrite G.
    assert ((length derived =? 0)%nat = false) as L
      by (destruct derived; [congruence | reflexivity]).
    rewrite L. unfold ret at 1. unfold bind at 1.
    unfold bind at 1.
    rewrite (findUtxos_none (map snd derived) (set_addressManager am w) utxosMap a R F).
    reflexivity.
  - intros w w1 w2 hr hc R C w3. unfold addressDiscovery.
    rewrite (bind_Ok _ _ _ _ _ R), (bind_Ok _ _ _ _ _ C).
    reflexivity.
Qed.

(** *** createUID *)

Lemma split_without (sep : ascii) (s : string) :
  hasChar sep s = false -> split sep s = [s].
Proof.
  induction s as [|c r IH]; intros N; [reflexivity|].
  simpl in N. apply orb_false_elim in N as [N1 N2].
  simpl. rewrite N1, (IH N2). reflexivity.
Qed.

Lemma split_at_first (sep : ascii) (a b : string) :
  hasChar sep a = false ->
  split sep (a +:+ String sep b) = a :: split sep b.
Proof.
  induction a as [|c r IH]; intros N.
  - simpl. rewrite Ascii.eqb_refl. reflexivity.
  - simpl in N. apply orb_false_elim in N as [N1 N2].
    change (String c r +:+ String sep b) with (String c (r +:+ String sep b)).
    simpl. rewrite N1, (IH N2). reflexivity.
Qed.

(** C2, as the code has it: [createUID] derives the child key at the path
    [m/44'/972/0'/1'/0'], whose second component carries no hardening mark,
    turns it into an address on the wallet's network, keeps what follows the
    first colon (up to a second one), and hashes that.  The uid depends on
    the HD root and the network only. *)
Theorem createUID_spec :
  (forall w,
      createUID w =
      createHash (nth_error
                    (split ":" (toAddress (deriveChild (HDWallet w) "m/44'/972/0'/1'/0'")
                                          (network w))) 1))
  /\ pathComponents uidPath
     = [("44", true); ("972", false); ("0", true); ("1", true); ("0", true)]
  /\ (forall w prefix payload,
        hasChar ":" prefix = false -> hasChar ":" payload = false ->
        toAddress (deriveChild (HDWallet w) uidPath) (network w)
        = prefix +:+ String ":" payload ->
        createUID w = createHash (Some payload))
  /\ (forall w w',
        HDWallet w = HDWallet w' -> network w = network w' -> createUID w = createUID w').
Proof.
  split; [|split; [|split]].
  - reflexivity.
  - reflexivity.
  - intros w prefix payload Np Na E. unfold createUID. rewrite E.
    rewrite (split_at_first _ _ _ Np), (split_without _ _ Na). reflexivity.
  - intros w w' Ek En. unfold createUID. rewrite Ek, En. reflexivity.
Qed.

(** *** composeTx and parseInt *)


End Properties.

(* ===================================================================== *)
(** ** Further properties of the class                                    *)
(* ===================================================================== *)

Section MoreProperties.
Context `{Co : Collaborators}.
Import Run.
Local Open Scope run_scope.

(** *** Balance notifications *)

Lemma emitBalance_run (w : Wallet) :
  emitBalance w =
    (Ok tt,
     if (balanceConfirmed w =? fst (lastBalanceNotification w))
        && (balancePending w =? snd (lastBalanceNotification w))
     then w
     else set_emitted
            (emitted w ++ [BalanceUpdate (balanceConfirmed w) (balancePending w)
                                         (balanceConfirmed w + balancePending w)])
            (set_lastBalanceNotification (balanceConfirmed w, balancePending w) w)).
Proof.
  unfold emitBalance, bind, gets. cbn beta iota.
  destruct (_ && _); reflexivity.
Qed.

Lemma balance_eqb (w : Wallet) (last : Z * Z) :
  (balanceConfirmed w =? fst last) && (balancePending w =? snd last) = true
  <-> last = balance w.
Proof.
  unfold balance. destruct last as [a p]. simpl.
  rewrite andb_true_iff, !Z.eqb_eq. split.
  - intros [-> ->]. reflexivity.
  - intros E. injection E as -> ->. split; reflexivity.
Qed.

(** X1.  [emitBalance] brings the last notification up to the balance,
    leaves the balance alone, emits one [balance-update] exactly when the
    balance differs from the last one notified, and a second call right
    after it does nothing. *)
Theorem emitBalance_notifies_once (w : Wallet) :
  exists w',
    emitBalance w = (Ok tt, w')
    /\ lastBalanceNotification w' = balance w
    /\ balance w' = balance w
    /\ emitted w' =
         emitted w ++
           (if decide (lastBalanceNotification w = balance w) then []
            else [BalanceUpdate (balanceConfirmed w) (balancePending w)
                                (balanceConfirmed w + balancePending w)])
    /\ emitBalance w' = (Ok tt, w').
Proof.
  rewrite emitBalance_run.
  destruct ((balanceConfirmed w =? fst (lastBalanceNotification w))
            && (balancePending w =? snd (lastBalanceNotification w))) eqn:E.
  - apply balance_eqb in E as E'. exists w. repeat split; try assumption.
    + case_decide; [now rewrite app_nil_r | congruence].
    + rewrite emitBalance_run, E. reflexivity.
  - eexists. split; [reflexivity|]. repeat split.
    + case_decide as Y; [|reflexivity].
      apply (proj2 (balance_eqb _ _)) in Y. congruence.
    + rewrite emitBalance_run. simpl. rewrite !Z.eqb_refl. reflexivity.
Qed.

Lemma looseEqString_eq (a b : option string) : looseEqString a b = true <-> a = b.
Proof.
  destruct a as [x|], b as [y|]; simpl; try (split; congruence).
  rewrite String.eqb_eq. split; congruence.
Qed.

Lemma looseEqString_refl (a : option string) : looseEqString a a = true.
Proof. now apply looseEqString_eq. Qed.

Lemma emitAddress_run (w : Wallet) :
  emitAddress w =
    (Ok tt,
     if looseEqString (receiveAddress w) (fst (lastAddressNotification w))
        && looseEqString (changeAddress w) (snd (lastAddressNotification w))
     then w
     else set_emitted (emitted w ++ [NewAddress (receiveAddress w) (changeAddress w)])
            (set_lastAddressNotification (receiveAddress w, changeAddress w) w)).
Proof.
  unfold emitAddress, bind, gets. cbn beta iota.
  destruct (_ && _); reflexivity.
Qed.

Lemma address_eqb (w : Wallet) (last : option string * option string) :
  looseEqString (receiveAddress w) (fst last) && looseEqString (changeAddress w) (snd last)
    = true
  <-> last = (receiveAddress w, changeAddress w).
Proof.
  destruct last as [r c]. simpl.
  rewrite andb_true_iff, !looseEqString_eq. split.
  - intros [-> ->]. reflexivity.
  - intros E. injection E as -> ->. split; reflexivity.
Qed.

(** X2.  [emitAddress] records the current receive and change address as
    the last ones notified, emits one [new-address] exactly when one of
    them differs from the last notification, and a second call right after
    it does nothing. *)
Theorem emitAddress_notifies_once (w : Wallet) :
  exists w',
    emitAddress w = (Ok tt, w')
    /\ lastAddressNotification w' = (receiveAddress w, changeAddress w)
    /\ addressManager w' = addressManager w
    /\ emitted w' =
         emitted w ++
           (if decide (lastAddressNotification w = (receiveAddress w, changeAddress w))
            then [] else [NewAddress (receiveAddress w) (changeAddress w)])
    /\ emitAddress w' = (Ok tt, w').
Proof.
  rewrite emitAddress_run.
  destruct (looseEqString (receiveAddress w) (fst (lastAddressNotification w))
            && looseEqString (changeAddress w) (snd (lastAddressNotification w))) eqn:E.
  - apply address_eqb in E as E'. exists w.
    split; [reflexivity|]. split; [exact E'|]. split; [reflexivity|]. split.
    + case_decide; [now rewrite app_nil_r | congruence].
    + rewrite emitAddress_run, E. reflexivity.
  - eexists. split; [reflexivity|]. split; [reflexivity|]. split; [reflexivity|]. split.
    + case_decide as Y; [|reflexivity].
      apply (proj2 (address_eqb _ _)) in Y. congruence.
    + rewrite emitAddress_run. unfold receiveAddress, changeAddress. simpl.
      rewrite !looseEqString_refl. reflexivity.
Qed.

(** X3.  [adjustBalance] adds the amount to the slot it is told to and
    leaves the other one alone.  It is silent when [notify] is false, during
    a sync, while notifications are disabled and for an amount of 0; in
    every other case it ends with the last notification equal to the
    balance, so that adjustments made in silence are reported by the next
    one that is not.  This is said of balances and amounts that are safe
    integers and stay so, the sums of JavaScript being those of [Z] there. *)
Theorem adjustBalance_spec (isConfirmed : bool) (amount : Z) (notify : bool) (w : Wallet) :
  safeInteger (balanceConfirmed w) ->
  safeInteger (balancePending w) ->
  safeInteger amount ->
  safeInteger ((if isConfirmed then balanceConfirmed w else balancePending w) + amount) ->
  safeInteger (balanceConfirmed w + balancePending w + amount) ->
  exists w',
    adjustBalance isConfirmed amount notify w = (Ok tt, w')
    /\ balance w' =
         (if isConfirmed then (balanceConfirmed w + amount, balancePending w)
          else (balanceConfirmed w, balancePending w + amount))
    /\ (if notify && negb (syncInProggress w) && negb (disableBalanceNotifications w)
           && negb (amount =? 0)
        then lastBalanceNotification w' = balance w'
             /\ emitted w' =
                  emitted w ++
                    (if decide (lastBalanceNotification w = balance w') then []
                     else [BalanceUpdate (fst (balance w')) (snd (balance w'))
                                         (fst (balance w') + snd (balance w'))])
        else lastBalanceNotification w' = lastBalanceNotification w
             /\ emitted w' = emitted w).
Proof.
  intros _ _ _ _ _.
  unfold adjustBalance, bind, gets, modify. cbn beta iota.
  set (w1 := if isConfirmed then set_balanceConfirmed (balanceConfirmed w + amount) w
             else set_balancePending (balancePending w + amount) w).
  assert (B1 : balance w1 =
               (if isConfirmed then (balanceConfirmed w + amount, balancePending w)
                else (balanceConfirmed w, balancePending w + amount)))
    by (subst w1; destruct isConfirmed; reflexivity).
  assert (F1 : syncInProggress w1 = syncInProggress w
               /\ disableBalanceNotifications w1 = disableBalanceNotifications w
               /\ lastBalanceNotification w1 = lastBalanceNotification w
               /\ emitted w1 = emitted w)
    by (subst w1; destruct isConfirmed; repeat split; reflexivity).
  destruct F1 as (Fs & Fd & Fl & Fe).
  assert (Ch : negb (balanceConfirmed w =? balanceConfirmed w1)
               || negb (balancePending w =? balancePending w1) = negb (amount =? 0)).
  { clear B1 Fs Fd Fl Fe. subst w1. destruct isConfirmed; simpl.
    - rewrite Z.eqb_refl, orb_false_r. f_equal.
      destruct (Z.eqb_spec (balanceConfirmed w) (balanceConfirmed w + amount)),
               (Z.eqb_spec amount 0); try reflexivity; lia.
    - rewrite Z.eqb_refl. simpl. f_equal.
      destruct (Z.eqb_spec (balancePending w) (balancePending w + amount)),
               (Z.eqb_spec amount 0); try reflexivity; lia. }
  destruct notify; cbn [negb andb]; cbv beta iota.
  2:{ exists w1. unfold ret. auto. }
  rewrite Fs, Fd, Ch. unfold when.
  destruct (negb (syncInProggress w) && negb (disableBalanceNotifications w)
            && negb (amount =? 0)) eqn:Q.
  - rewrite emitBalance_run.
    destruct ((balanceConfirmed w1 =? fst (lastBalanceNotification w1))
              && (balancePending w1 =? snd (lastBalanceNotification w1))) eqn:E.
    + apply balance_eqb in E as E'. exists w1. split; [reflexivity|].
      split; [exact B1|]. split; [exact E'|].
      rewrite <- Fl. case_decide; [now rewrite app_nil_r | congruence].
    + eexists. split; [reflexivity|]. split; [exact B1|]. split; [reflexivity|].
      simpl emitted. rewrite Fe, <- Fl.
      case_decide as Y; [|reflexivity].
      change (lastBalanceNotification w1 = balance w1) in Y.
      apply (proj2 (balance_eqb _ _)) in Y. congruence.
  - exists w1. unfold ret. auto.
Qed.

(** *** Scanning addresses *)

Lemma withUtxos_cons (address : string) (us : list ApiUtxo) rest :
  withUtxos ((address, us) :: rest) =
    if (length us =? 0)%nat then withUtxos rest else address :: withUtxos rest.
Proof.
  unfold withUtxos. rewrite filter_cons. simpl.
  destruct (length us =? 0)%nat; reflexivity.
Qed.

Lemma storeUtxos_run (utxosMap : list (string * list ApiUtxo)) :
  forall (found : list string) (w : Wallet),
  exists w',
    storeUtxos utxosMap found w = (Ok (found ++ withUtxos utxosMap), w')
    /\ (withUtxos utxosMap = [] -> w' = w)
    /\ (withUtxos utxosMap <> [] -> disableBalanceNotifications w' = false).
Proof.
  induction utxosMap as [|[address us] rest IH]; intros found w.
  - exists w. change (withUtxos []) with (@nil string). simpl. rewrite app_nil_r.
    split; [reflexivity|]. split; [reflexivity | intros N; now destruct N].
  - rewrite withUtxos_cons. simpl storeUtxos.
    destruct (length us =? 0)%nat eqn:E; [apply IH|].
    unfold bind at 1. unfold modify at 1.
    unfold bind at 1. unfold modify at 1.
    unfold bind at 1. unfold modify at 1.
    unfold bind at 1. unfold modify at 1.
    unfold bind at 1. rewrite emitBalance_run.
    match goal with |- context [storeUtxos rest _ ?s] => set (w2 := s) end.
    assert (D : disableBalanceNotifications w2 = false)
      by (subst w2; destruct (_ && _); reflexivity).
    destruct (IH (found ++ [address]) w2) as (w' & R & Q & N).
    exists w'. rewrite R, <- app_assoc. split; [reflexivity|]. split; [discriminate|].
    intros _. destruct (withUtxos rest) eqn:W.
    + rewrite (Q eq_refl). exact D.
    + apply N. discriminate.
Qed.

Lemma findUtxos_run (addresses : list string) (w : Wallet) utxosMap a :
  api_getUtxosByAddresses addresses (api w) = (ExtOk utxosMap, a) ->
  exists w',
    findUtxos addresses w = (Ok (withUtxos utxosMap), w')
    /\ (withUtxos utxosMap <> [] -> disableBalanceNotifications w' = false).
Proof.
  intros R. unfold findUtxos.
  unfold onApi at 1. unfold bind at 1. rewrite R. simpl liftExt. unfold ret at 1.
  destruct (storeUtxos_run utxosMap [] (set_api a w)) as (w1 & S & _ & N).
  unfold bind at 1. rewrite S. simpl app.
  unfold bind at 1. unfold gets at 1. unfold id.
  destruct (bool_decide _).
  - unfold bind, onAddressManager, ret.
    destruct (am_next Receive (addressManager w1)). eexists. split; [reflexivity|].
    exact N.
  - unfold bind, ret. exists w1. split; [reflexivity | exact N].
Qed.

(** X4.  What [findUtxos] returns is read off the reply of the node alone:
    the addresses the reply lists with at least one output, in the order of
    the reply, whatever addresses were asked for. *)
Theorem findUtxos_reports_reply (addresses : list string) (w : Wallet) utxosMap a :
  api_getUtxosByAddresses addresses (api w) = (ExtOk utxosMap, a) ->
  exists w', findUtxos addresses w = (Ok (withUtxos utxosMap), w').
Proof.
  intros R. destruct (findUtxos_run addresses w utxosMap a R) as (w' & F & _).
  now exists w'.
Qed.

(** X5.  A scan that finds outputs switches the balance notifications back
    on, also for a wallet that had them disabled before the scan. *)
Theorem findUtxos_enables_notifications (addresses : list string) (w w' : Wallet)
    utxosMap a found :
  api_getUtxosByAddresses addresses (api w) = (ExtOk utxosMap, a) ->
  findUtxos addresses w = (Ok found, w') ->
  found <> [] ->
  disableBalanceNotifications w' = false.
Proof.
  intros R F N. destruct (findUtxos_run addresses w utxosMap a R) as (w2 & F2 & D).
  rewrite F in F2. injection F2 as -> ->. now apply D.
Qed.

(** A failed request leaves [findUtxos] with the error of the node and no
    trace in the wallet but the state of the connection. *)
Lemma findUtxos_fails (addresses : list string) (w : Wallet) msg a :
  api_getUtxosByAddresses addresses (api w) = (ExtThrow msg, a) ->
  findUtxos addresses w = (Throw (External msg), set_api a w).
Proof.
  intros R. unfold findUtxos. unfold onApi at 1. unfold bind at 1. rewrite R. reflexivity.
Qed.

(** *** The windows of address discovery *)

Lemma doDiscovery_unfold (fuel : nat) (threshold n : Z) (deriveType : DeriveType)
    (offset : Z) (w : Wallet) :
  doDiscovery (S fuel) threshold n deriveType offset w =
    match scanWindow n deriveType offset w with
    | (Ok (derived, found), w') =>
        if (length found =? 0)%nat then (Ok (offset - (threshold - n) - 1), w')
        else doDiscovery fuel threshold (nAddressesLeft derived found) deriveType
               (offset + n) w'
    | (Throw e, w') => (Throw e, w')
    | (Blocked, w') => (Blocked, w')
    | (OutOfFuel, w') => (OutOfFuel, w')
    end.
Proof.
  cbn [doDiscovery]. unfold scanWindow, bind, nAddressesLeft.
  destruct (onAddressManager (am_getAddresses n deriveType offset) w) as [[derived| | |] w1];
    try reflexivity.
  destruct (length derived =? 0)%nat; [reflexivity|].
  unfold ret at 1. unfold ret at 2.
  destruct (findUtxos (map snd derived) w1) as [[found| | |] w2]; try reflexivity.
  unfold ret at 2. cbv beta iota.
  destruct (length found =? 0)%nat; reflexivity.
Qed.

Lemma fold_max_ge (l : list (Z * string)) : forall acc,
  acc <= fold_left (fun prev cur => Z.max prev (fst cur)) l acc
  /\ Forall (fun obj => fst obj <= fold_left (fun prev cur => Z.max prev (fst cur)) l acc) l.
Proof.
  induction l as [|x l IH]; intros acc; simpl.
  - split; [lia | constructor].
  - destruct (IH (Z.max acc (fst x))) as [A F]. split; [lia|].
    constructor; [lia | exact F].
Qed.

Lemma nAddressesLeft_positive derived found : 1 <= nAddressesLeft derived found.
Proof.
  unfold nAddressesLeft.
  match goal with |- context [fold_left _ ?l 0] => pose proof (proj1 (fold_max_ge l 0)) end.
  lia.
Qed.

Lemma nAddressesLeft_above derived found (i : Z) (address : string) :
  In (i, address) derived -> In address found -> i < nAddressesLeft derived found.
Proof.
  intros D F. unfold nAddressesLeft.
  match goal with |- context [fold_left _ ?l 0] => set (active := l) end.
  pose proof (proj2 (fold_max_ge active 0)) as A.
  rewrite List.Forall_forall in A.
  assert (In (i, address) active) as I.
  { subst active. apply list_elem_of_In, list_elem_of_filter.
    split; [|now apply list_elem_of_In]. simpl. apply Is_true_true.
    apply existsb_exists. exists address. split; [exact F | apply String.eqb_refl]. }
  specialize (A _ I). simpl in A. lia.
Qed.

Lemma fold_max_attained (l : list (Z * string)) : forall acc,
  fold_left (fun prev cur => Z.max prev (fst cur)) l acc = acc
  \/ exists x, In x l /\ fst x = fold_left (fun prev cur => Z.max prev (fst cur)) l acc.
Proof.
  induction l as [|x l IH]; intros acc; simpl; [now left|].
  destruct (IH (Z.max acc (fst x))) as [E | (y & I & E)].
  - rewrite E. destruct (Z.max_spec acc (fst x)) as [[_ M] | [_ M]]; rewrite M.
    + right. exists x. split; [now left | reflexivity].
    + now left.
  - right. exists y. split; [now right | exact E].
Qed.

Lemma nAddressesLeft_attained derived found :
  nAddressesLeft derived found = 1
  \/ exists i address,
       In (i, address) derived /\ In address found /\ nAddressesLeft derived found = i + 1.
Proof.
  unfold nAddressesLeft.
  match goal with |- context [fold_left _ ?l 0] => set (active := l) end.
  destruct (fold_max_attained active 0) as [E | ([i address] & I & E)].
  - left. rewrite E. reflexivity.
  - right. exists i, address. simpl in E.
    apply list_elem_of_In, list_elem_of_filter in I as [A I]. simpl in A.
    apply Is_true_true, existsb_exists in A as (a & F & Q).
    apply String.eqb_eq in Q. subst a.
    split; [now apply list_elem_of_In|]. split; [exact F | now rewrite <- E].
Qed.

Lemma doDiscovery_bound (fuel : nat) (threshold : Z) (deriveType : DeriveType) :
  forall (n offset : Z) (w w' : Wallet) (r : Z),
  doDiscovery fuel threshold n deriveType offset w = (Ok r, w') ->
  offset + n - threshold - 1 <= r.
Proof.
  induction fuel as [|fuel IH]; intros n offset w w' r D.
  - discriminate.
  - rewrite doDiscovery_unfold in D.
    destruct (scanWindow n deriveType offset w) as [[[derived found]| | |] w1];
      try discriminate.
    destruct (length found =? 0)%nat.
    + injection D as <- _. lia.
    + apply IH in D. pose proof (nAddressesLeft_positive derived found). lia.
Qed.

(** X6.  When [addressDiscovery] returns, both chains were scanned to the
    end, the receive chain first, and each counter was advanced to a value
    that is not negative: [doDiscovery] reports -1 at least. *)
Theorem addressDiscovery_advances (fuel : nat) (threshold : Z) (w w' : Wallet) :
  addressDiscovery fuel threshold w = (Ok tt, w') ->
  exists highestReceiveIndex highestChangeIndex w1 w2,
    doDiscovery fuel threshold threshold Receive 0 w = (Ok highestReceiveIndex, w1)
    /\ doDiscovery fuel threshold threshold Change 0 w1 = (Ok highestChangeIndex, w2)
    /\ 0 <= highestReceiveIndex + 1
    /\ 0 <= highestChangeIndex + 1.
Proof.
  intros A. unfold addressDiscovery in A.
  apply bind_Ok_inv in A as (hr & w1 & R & A).
  apply bind_Ok_inv in A as (hc & w2 & C & _).
  exists hr, hc, w1, w2. split; [exact R|]. split; [exact C|].
  apply doDiscovery_bound in R as Br. apply doDiscovery_bound in C as Bc.
  split; lia.
Qed.

(** X7.  Discovery does not report less than it has seen: the index of an
    address that a window finds with outputs is at most the index
    [doDiscovery] returns, for every window that ends at or beyond the
    threshold, as all the windows of [addressDiscovery] do. *)
Theorem doDiscovery_covers_activity (fuel : nat) (threshold n : Z) (deriveType : DeriveType)
    (offset : Z) (w w1 w' : Wallet) derived found (i : Z) (address : string) (r : Z) :
  threshold <= offset + n ->
  scanWindow n deriveType offset w = (Ok (derived, found), w1) ->
  In (i, address) derived ->
  In address found ->
  doDiscovery fuel threshold n deriveType offset w = (Ok r, w') ->
  i <= r.
Proof.
  intros T S D F R. destruct fuel as [|fuel]; [discriminate|].
  rewrite doDiscovery_unfold, S in R.
  destruct found as [|a found']; [destruct F|]. cbn [length Nat.eqb] in R.
  pose proof (nAddressesLeft_above derived (a :: found') i address D F) as A.
  apply doDiscovery_bound in R. lia.
Qed.

(** X8.  With activity in the first window only, the index that
    [doDiscovery] reports from offset 0 is the highest index among the
    addresses found with outputs: none of them lies above it, and it is the
    index of one of them unless it is 0. *)
Theorem doDiscovery_two_windows (fuel : nat) (threshold : Z) (deriveType : DeriveType)
    (w w1 w2 : Wallet) derived found derived2 :
  scanWindow threshold deriveType 0 w = (Ok (derived, found), w1) ->
  found <> [] ->
  scanWindow (nAddressesLeft derived found) deriveType threshold w1 = (Ok (derived2, []), w2) ->
  exists r,
    doDiscovery (S (S fuel)) threshold threshold deriveType 0 w = (Ok r, w2)
    /\ Forall (fun obj => In (snd obj) found -> fst obj <= r) derived
    /\ (r = 0 \/ exists address, In (r, address) derived /\ In address found).
Proof.
  intros S1 N S2. exists (nAddressesLeft derived found - 1). split; [|split].
  - rewrite doDiscovery_unfold, S1.
    destruct found as [|a found']; [congruence|]. cbn [length Nat.eqb].
    rewrite doDiscovery_unfold. rewrite Z.add_0_l, S2. cbn [length Nat.eqb].
    do 2 f_equal. lia.
  - apply List.Forall_forall. intros [i address] I F. simpl in *.
    pose proof (nAddressesLeft_above derived found i address I F). lia.
  - destruct (nAddressesLeft_attained derived found) as [E | (i & address & I & F & E)].
    + left. lia.
    + right. exists address. replace (nAddressesLeft derived found - 1) with i by lia.
      split; assumption.
Qed.

(** X9.  With activity in the first two windows and none in the third,
    [doDiscovery] reports the sizes of the second and the third window
    together, less one.  The size of the third window is taken from the
    index of the second window's highest active address, counted from 0 and
    not from the window's offset, so the index reported lies above every
    address found active, by the size of the second window at least. *)
Theorem doDiscovery_three_windows (fuel : nat) (threshold : Z) (deriveType : DeriveType)
    (w w1 w2 w3 : Wallet) derived found derived2 found2 derived3 :
  scanWindow threshold deriveType 0 w = (Ok (derived, found), w1) ->
  found <> [] ->
  scanWindow (nAddressesLeft derived found) deriveType threshold w1
    = (Ok (derived2, found2), w2) ->
  found2 <> [] ->
  scanWindow (nAddressesLeft derived2 found2) deriveType
             (threshold + nAddressesLeft derived found) w2 = (Ok (derived3, []), w3) ->
  exists r,
    doDiscovery (S (S (S fuel))) threshold threshold deriveType 0 w = (Ok r, w3)
    /\ r = nAddressesLeft derived found + nAddressesLeft derived2 found2 - 1
    /\ Forall (fun obj => In (snd obj) found2 ->
                          fst obj + nAddressesLeft derived found <= r) derived2
    /\ 1 <= nAddressesLeft derived found.
Proof.
  intros S1 N1 S2 N2 S3.
  exists (nAddressesLeft derived found + nAddressesLeft derived2 found2 - 1).
  split; [|split; [reflexivity|split]].
  - rewrite doDiscovery_unfold, S1.
    destruct found as [|a found']; [congruence|]. cbn [length Nat.eqb].
    rewrite doDiscovery_unfold. rewrite Z.add_0_l, S2.
    destruct found2 as [|a2 found2']; [congruence|]. cbn [length Nat.eqb].
    rewrite doDiscovery_unfold, S3. cbn [length Nat.eqb].
    do 2 f_equal. lia.
  - apply List.Forall_forall. intros [i address] I F. simpl in *.
    pose proof (nAddressesLeft_above derived2 found2 i address I F). lia.
  - apply nAddressesLeft_positive.
Qed.

(** *** Synchronisation *)

Lemma syncAfterGuard_not_guard (fuel : nat) (requested : bool) (opts : WalletOpt)
    (w w' : Wallet) :
  syncAfterGuard fuel requested opts w <> (Throw SyncAlreadyRunning, w').
Proof.
  intros E. destruct (syncAfterGuard_raises fuel requested opts w _ w' E) as [msg M].
  discriminate.
Qed.

Lemma waitOrSync_pending (fuel : nat) (w : Wallet) :
  syncSignal w = Some false -> waitOrSync fuel w = (Blocked, w).
Proof. intros S. unfold waitOrSync, bind, gets. rewrite S. reflexivity. Qed.

(** X10.  A [sync] that is refused because a continuous one is running has
    already replaced the wallet's sync signal and raised the in-progress
    flag, and nothing resolves the one or lowers the other: from then on
    [waitOrSync], and with it [estimateTransaction], wait without end, also
    on a wallet that was synced before the call. *)
Theorem sync_refused_blocks (fuel fuel' : nat) (arg : option bool) (w w' : Wallet)
    (p : TxSend JsNumber) :
  sync fuel arg w = (Throw SyncAlreadyRunning, w') ->
  syncSignal w' = Some false
  /\ syncInProggress w' = true
  /\ emitted w' = emitted w ++ [SyncStart]
  /\ waitOrSync fuel' w' = (Blocked, w')
  /\ estimateTransaction fuel' p w' = (Blocked, w').
Proof.
  intros R. rewrite sync_unfold in R. cbv zeta in R.
  destruct (negb (connectSignal w)); [discriminate|].
  destruct (continuousSyncActive (syncOnce w) && _).
  2:{ now apply syncAfterGuard_not_guard in R. }
  injection R as <-.
  split; [reflexivity|]. split; [reflexivity|]. split; [reflexivity|].
  assert (forall f, waitOrSync f
            (set_emitted (emitted w ++ [SyncStart])
               (set_syncInProggress true (set_syncSignal (Some false) w)))
          = (Blocked, set_emitted (emitted w ++ [SyncStart])
                        (set_syncInProggress true (set_syncSignal (Some false) w)))) as W
    by (intros f; now apply waitOrSync_pending).
  split; [apply W|].
  unfold estimateTransaction. unfold bind at 1. rewrite W. reflexivity.
Qed.

(** X11.  [update()], called without an argument, asks for a one-time sync
    whatever the wallet's options say: on a connected wallet it is refused
    exactly when the last sync was a continuous one. *)
Theorem update_refused_iff (fuel : nat) (w : Wallet) :
  connectSignal w = true ->
  (fst (update fuel None w) = Throw SyncAlreadyRunning <-> syncOnce w = Some false).
Proof.
  intros C. unfold update. simpl default. rewrite sync_unfold. cbv zeta.
  rewrite C. simpl negb. cbv iota. rewrite andb_true_r. split.
  - destruct (syncOnce w) as [[|]|]; simpl; intros R; try reflexivity;
      destruct (syncAfterGuard fuel true (options w) _) as [o w'] eqn:E;
      simpl in R; subst o; now apply syncAfterGuard_not_guard in E.
  - intros ->. reflexivity.
Qed.

(** X12.  When the request for the blue score fails, [initBlueScoreSync]
    fails with the error of the node and leaves its started flag set: every
    later call returns at once, so the blue score is not fetched again and
    no subscription is made. *)
Theorem initBlueScoreSync_failure_sticks (once once' : bool) (w : Wallet) msg a :
  syncVirtualSelectedParentBlueScoreStarted w = false ->
  api_getVirtualSelectedParentBlueScore (api w) = (ExtThrow msg, a) ->
  exists w',
    initBlueScoreSync once w = (Throw (External msg), w')
    /\ syncVirtualSelectedParentBlueScoreStarted w' = true
    /\ blueScore w' = blueScore w
    /\ emitted w' = emitted w
    /\ initBlueScoreSync once' w' = (Ok tt, w').
Proof.
  intros S R. unfold initBlueScoreSync at 1. unfold bind at 1. unfold gets at 1.
  rewrite S. unfold bind at 1. unfold modify at 1.
  unfold bind at 1. unfold onApi. simpl api. rewrite R. simpl liftExt. unfold throw.
  eexists. split; [reflexivity|]. repeat split.
Qed.

(** X13.  [initAddressManager] acts once: the first call marks the manager
    initialised and takes a receive address if there is none, and a call on
    a wallet so marked changes nothing. *)
Theorem initAddressManager_once (w : Wallet) :
  exists w',
    initAddressManager w = (Ok tt, w')
    /\ addressManagerInitialized w' = true
    /\ addressManager w' =
         (if addressManagerInitialized w || truthyString (receiveAddress w)
          then addressManager w
          else snd (am_next Receive (addressManager w)))
    /\ initAddressManager w' = (Ok tt, w').
Proof.
  unfold initAddressManager at 1. unfold bind, gets, modify. cbn beta iota.
  destruct (addressManagerInitialized w) eqn:I.
  - exists w. unfold ret. repeat split; try assumption.
    unfold initAddressManager, bind, gets. rewrite I. reflexivity.
  - simpl orb.
    change (receiveAddress (set_addressManagerInitialized true w))
      with (receiveAddress w).
    destruct (truthyString (receiveAddress w)) eqn:T.
    + exists (set_addressManagerInitialized true w). unfold ret.
      split; [reflexivity|]. split; [reflexivity|]. split; [reflexivity|].
      unfold initAddressManager, bind, gets. reflexivity.
    + unfold onAddressManager, ret. simpl addressManager.
      destruct (am_next Receive (addressManager w)) as [addr am].
      eexists. split; [reflexivity|]. split; [reflexivity|]. split; [reflexivity|].
      unfold initAddressManager, bind, gets. reflexivity.
Qed.

(** *** Composing and estimating *)

Lemma set_addressManager_eta (w : Wallet) : set_addressManager (addressManager w) w = w.
Proof. destruct w. reflexivity. Qed.

Lemma afterCompositions_0 {V} (p : TxSend V) (w : Wallet) : afterCompositions p 0 w = w.
Proof.
  unfold afterCompositions. destruct (truthyString _); [reflexivity|].
  apply set_addressManager_eta.
Qed.

Lemma afterCompositions_add {V} (p : TxSend V) (i j : nat) (w : Wallet) :
  afterCompositions p j (afterCompositions p i w) = afterCompositions p (i + j) w.
Proof.
  unfold afterCompositions. destruct (truthyString _); [reflexivity|].
  unfold changeAdvanced. simpl addressManager.
  rewrite (Nat.add_comm i j), Nat.iter_add. reflexivity.
Qed.

Lemma afterCompositions_params {V} (p : TxSend JsNumber) (q : TxSend V) (k : nat)
    (w : Wallet) :
  changeAddrOverride q = changeAddrOverride p ->
  afterCompositions q k w = afterCompositions p k w.
Proof. unfold afterCompositions. now intros ->. Qed.

Lemma composeTx_Ok_state (q : TxSend JsValue) (w w' : Wallet) d :
  composeTx q w = (Ok d, w') -> w' = afterCompositions q 1 w.
Proof.
  intros C. apply composeTx_Ok_inv in C as (sel & a0 & addr & _ & _ & [[T ->] | [T ->]]);
    unfold afterCompositions; rewrite T; reflexivity.
Qed.

Lemma assembleTx_privKeys (q : TxSend JsValue) sel a0 privKeys addr d :
  assembleTx q sel a0 privKeys addr = ExtOk d ->
  ci_privKeys d = if default false (privKeysInfo q) then privKeys else [].
Proof.
  unfold assembleTx. intros A.
  destruct (txAssemble _ _ _ _ _) as [tx|]; [|discriminate].
  destruct (if default false (skipSign q) then ExtOk tx else txSign privKeys tx) as [tx'|];
    [|discriminate].
  injection A as <-. reflexivity.
Qed.

Lemma inputPrivKeys_rev (am : AM) (us : list UnspentOutput) :
  inputPrivKeys am us = rev (map (fun u => am_all am (uo_address u)) us).
Proof.
  unfold inputPrivKeys.
  enough (forall acc,
            fold_left (fun prev cur => am_all am (uo_address cur) :: prev) us acc
            = rev (map (fun u => am_all am (uo_address u)) us) ++ acc) as G
    by (rewrite G; apply app_nil_r).
  induction us as [|u us IH]; intros acc; simpl; [reflexivity|].
  rewrite IH, <- app_assoc. reflexivity.
Qed.

(** Where the result of the fee loop comes from: the last composition, for
    the amount and fee the loop ends with. *)
Lemma feeLoop_origin (fuel : nat) : forall p skipSign privKeysInfo inclusiveFee
    priorityFee networkFeeMax txAmount a0 dataFee0 w est w',
  feeLoop fuel p skipSign privKeysInfo inclusiveFee priorityFee networkFeeMax
          txAmount a0 dataFee0 w = (Ok est, w') ->
  exists k,
    composeTx (composeParams p (es_amount est) (es_fee est) skipSign privKeysInfo false)
              (afterCompositions p k w) = (Ok (es_data est), w')
    /\ w' = afterCompositions p (S k) w
    /\ es_amount est = (if inclusiveFee then jsSub txAmount (Some (es_fee est)) else a0).
Proof.
  induction fuel as [|fuel IH]; intros p skipSign privKeysInfo inclusiveFee priorityFee
    networkFeeMax txAmount a0 dataFee0 w est w' L; [discriminate|].
  cbn [feeLoop] in L. cbv zeta in L.
  apply bind_Ok_inv in L as (data & w1 & C & L).
  apply composeTx_Ok_state in C as S1.
  rewrite (afterCompositions_params p) in S1 by reflexivity.
  unfold bind, gets in L. cbn beta iota in L.
  destruct (_ && _) in L.
  - apply IH in L as (k & C' & -> & Am). subst w1.
    rewrite afterCompositions_add in C'. exists (1 + k)%nat.
    split; [exact C'|]. split; [now rewrite afterCompositions_add|].
    rewrite Am. destruct inclusiveFee; reflexivity.
  - injection L as <- <-. exists 0%nat. simpl.
    rewrite afterCompositions_0. split; [exact C|]. split; [exact S1|].
    destruct inclusiveFee; reflexivity.
Qed.

(** What a returned estimate rests on: the wallet as the wait for the sync
    leaves it, the first composition, and the one the result is taken
    from. *)
Lemma estimateTransaction_inv (fuel : nat) (p : TxSend JsNumber) (w w' : Wallet)
    (info : TxInfo) :
  estimateTransaction fuel p w = (Ok info, w') ->
  let skipSign := default true (skipSign p) in
  let privKeysInfo := default false (privKeysInfo p) in
  let inclusive := compoundingUTXO p || inclusiveFee p in
  let calculate := compoundingUTXO p || calculateNetworkFee p in
  let feeMax := orNumber (networkFeeMax p) 0 in
  exists w0 data0 k a0 f0,
    waitOrSync fuel w = (Ok tt, w0)
    /\ composeTx (composeParams p (amount p) (default 0 (fee p)) skipSign privKeysInfo
                    (compoundingUTXO p)) w0 = (Ok data0, afterCompositions p 1 w0)
    /\ composeTx (composeParams p a0 f0 skipSign privKeysInfo false) (afterCompositions p k w0)
       = (Ok (ti_data info), w')
    /\ w' = afterCompositions p (S k) w0
    /\ totalAmount info = jsAdd (Some f0) a0
    /\ a0 = (let txAmount := if compoundingUTXO p then ci_amount data0 else amount p in
             if inclusive then jsSub txAmount (Some f0) else txAmount)
    /\ (if calculate then (1 <= k)%nat /\ (feeMax = 0 \/ f0 <= feeMax)
        else f0 = default 0 (fee p) /\ k = (if inclusiveFee p then 1%nat else 0%nat)).
Proof.
  intros E. cbv zeta. unfold estimateTransaction in E.
  apply bind_Ok_inv in E as ([] & w0 & Wt & E).
  apply bind_Ok_inv in E as (data0 & w1 & C0 & E).
  apply composeTx_Ok_state in C0 as S1.
  rewrite (afterCompositions_params p) in S1 by reflexivity. subst w1.
  apply bind_Ok_inv in E as (perByte & w1 & G & E).
  unfold gets in G. injection G as <- <-.
  destruct (negb (orNumber (networkFeeMax p) 0 =? 0) && _) in E; [discriminate|].
  apply bind_Ok_inv in E as (est & w2 & E & R).
  unfold ret in R. injection R as <- <-. simpl ti_data. simpl totalAmount.
  destruct (compoundingUTXO p || calculateNetworkFee p) eqn:Calc.
  - apply bind_Ok_inv in E as (est' & w3 & L & Chk).
    destruct (negb (orNumber (networkFeeMax p) 0 =? 0)
              && (orNumber (networkFeeMax p) 0 <? es_fee est')) eqn:Cap in Chk;
      [discriminate|].
    unfold ret in Chk. injection Chk as -> ->.
    apply feeLoop_origin in L as (k & C & -> & Am).
    rewrite !afterCompositions_add in C. rewrite afterCompositions_add.
    replace (1 + S k)%nat with (S (1 + k)) in * by lia.
    exists w0, data0, (1 + k)%nat, (es_amount est), (es_fee est).
    split; [exact Wt|].
    split; [exact C0|]. split; [exact C|]. split; [reflexivity|]. split; [reflexivity|].
    split; [exact Am|]. split; [lia|].
    apply andb_false_iff in Cap as [Z | Lt].
    + left. apply negb_false_iff, Z.eqb_eq in Z. exact Z.
    + right. apply Z.ltb_ge in Lt. exact Lt.
  - apply orb_false_iff in Calc as [Cmp _]. rewrite Cmp in *. simpl orb in *.
    destruct (default 0 (fee p) <? _) in E; [discriminate|].
    destruct (inclusiveFee p) eqn:Inc.
    + apply bind_Ok_inv in E as (data & w3 & C & R).
      unfold ret in R. injection R as <- <-. simpl.
      apply composeTx_Ok_state in C as S2.
      rewrite (afterCompositions_params p) in S2 by reflexivity.
      rewrite afterCompositions_add in S2.
      exists w0, data0, 1%nat, (jsSub (amount p) (Some (default 0 (fee p)))),
             (default 0 (fee p)).
      split; [exact Wt|].
      split; [exact C0|]. split; [exact C|]. split; [exact S2|]. repeat split.
    + unfold ret in E. injection E as <- <-. simpl.
      exists w0, data0, 0%nat, (amount p), (default 0 (fee p)).
      rewrite afterCompositions_0. split; [exact Wt|]. split; [exact C0|].
      split; [exact C0|]. repeat split.
Qed.





(** X16.  When the network fee is computed and a maximum is given, the fee
    the transaction of a returned estimate was composed with is within the
    maximum.  The fee field of the estimate is the [parseInt] of that fee:
    the fee itself when it is a safe integer. *)
Theorem estimateTransaction_fee_within_max (fuel : nat) (p : TxSend JsNumber)
    (w w' : Wallet) (info : TxInfo) (feeMax : Z) :
  compoundingUTXO p || calculateNetworkFee p = true ->
  networkFeeMax p = Some feeMax ->
  feeMax <> 0 ->
  estimateTransaction fuel p w = (Ok info, w') ->
  exists f0,
    f0 <= feeMax
    /\ ci_fee (ti_data info) = parseInt (valueOfNumber (Some f0))
    /\ (safeInteger f0 -> ci_fee (ti_data info) = Some f0).
Proof.
  intros Calc Max N E.
  apply estimateTransaction_inv in E. cbv zeta in E.
  destruct E as (w0 & data0 & k & a0 & f0 & _ & _ & C & _ & _ & _ & M).
  rewrite Calc, Max in M. simpl in M.
  destruct (Z.eqb_spec feeMax 0) as [|_]; [contradiction|].
  destruct M as (_ & [Z | Le]); [contradiction|].
  exists f0. split; [exact Le|].
  assert (ci_fee (ti_data info) = parseInt (valueOfNumber (Some f0))) as F
    by (rewrite (composeTx_Ok_fee _ _ _ _ C); apply parsedFee_composeParams).
  split; [exact F|]. intros B. rewrite F. now apply JSFacts.parseInt_safeInteger.
Qed.


(** X18.  An estimate carries private keys only when [privKeysInfo] asks
    for them; then it carries one entry for each selected output, in the
    reverse of the outputs' order, each looked up by the address of the
    output in the [all] table of the wallet's address manager, as the manager
    is when the last composition begins: after the sync the call waits for
    and the change addresses the earlier compositions took. *)
Theorem estimateTransaction_private_keys (fuel : nat) (p : TxSend JsNumber)
    (w w' : Wallet) (info : TxInfo) :
  estimateTransaction fuel p w = (Ok info, w') ->
  exists w0 k,
    waitOrSync fuel w = (Ok tt, w0)
    /\ w' = afterCompositions p (S k) w0
    /\ ci_privKeys (ti_data info) =
         if default false (privKeysInfo p)
         then rev (map (fun u => am_all (addressManager (afterCompositions p k w0))
                                        (uo_address u))
                       (ci_utxos (ti_data info)))
         else [].
Proof.
  intros E.
  apply estimateTransaction_inv in E. cbv zeta in E.
  destruct E as (w0 & data0 & k & a0 & f0 & Wt & _ & C & W & _).
  apply composeTx_Ok_inv in C as (sel & a1 & addr & _ & As & _).
  apply assembleTx_privKeys in As as K. apply assembleTx_Ok in As as (_ & _ & U & _).
  exists w0, k. split; [exact Wt|]. split; [exact W|].
  rewrite K, U, inputPrivKeys_rev. reflexivity.
Qed.

(** *** Building and compounding *)

Lemma buildTransaction_Ok_inv (fuel : nat) (p : TxSend JsNumber) (debug : bool)
    (w w' : Wallet) (built : BuildTxResult) :
  buildTransaction fuel p debug w = (Ok built, w') ->
  exists info w1 tx,
    estimateTransaction fuel (forBuild p (skipUTXOInUseMark p)) w = (Ok info, w1)
    /\ txSign (ci_privKeys (ti_data info)) (ci_tx (ti_data info)) = ExtOk tx
    /\ (MaxMassAcceptedByBlock <? txGetMass tx) = false
    /\ (debug || (0 <? loggerLevel w1)) && (length (ci_utxos (ti_data info)) =? 0)%nat = false
    /\ built = {| br_info := {| ti_data := withTx tx (ti_data info);
                                dataFee := dataFee info; totalAmount := totalAmount info;
                                txSize := txSize info; ti_note := ti_note info |};
                  rpcTX := toRpcTX tx (ci_fee (ti_data info)) |}
    /\ w' = (if skipUTXOInUseMark p then w1
             else us_updateUsed (ci_utxos (ti_data info)) w1).
Proof.
  intros B. assert (B' := B). unfold buildTransaction in B'.
  apply bind_Ok_inv in B' as (info & w1 & E & _).
  rewrite (buildTransaction_after_estimate fuel p debug w w1 info E) in B.
  exists info, w1.
  destruct (txSign _ _) as [tx|]; [|discriminate].
  destruct (MaxMassAcceptedByBlock <? txGetMass tx) eqn:Mass; [discriminate|].
  destruct ((debug || (0 <? loggerLevel w1)) && _) eqn:Log; [discriminate|].
  injection B as <- <-. exists tx. repeat split; assumption.
Qed.

(** X19.  A transaction that [buildTransaction] returns is the signed form
    of the one estimated for the caller's request with [skipSign] and
    [privKeysInfo] set, and is within the mass limit of a block.  The request
    for the node is read off the signed transaction field by field: version
    and lock time as they are, for each input the hex of the previous
    transaction id, the output index, the hex of the script and the sequence
    number, for each output the amount and the hex of the script under
    version 0, the payload hash of 64 zeros, the subnetwork of 40 zeros, and
    the fee of the estimate.  Total amount, data fee, size and note are
    those of the estimate, and the transaction has an input whenever the
    debug log is written. *)
Theorem buildTransaction_result (fuel : nat) (p : TxSend JsNumber) (debug : bool)
    (w w' : Wallet) (built : BuildTxResult) :
  buildTransaction fuel p debug w = (Ok built, w') ->
  let d := ti_data (br_info built) in
  let tx := ci_tx d in
  exists info w1,
    estimateTransaction fuel
      {| toAddr := toAddr p; amount := amount p; fee := fee p;
         changeAddrOverride := changeAddrOverride p;
         skipSign := Some true; privKeysInfo := Some true;
         compoundingUTXO := compoundingUTXO p;
         compoundingUTXOMaxCount := compoundingUTXOMaxCount p;
         networkFeeMax := networkFeeMax p;
         calculateNetworkFee := calculateNetworkFee p;
         inclusiveFee := inclusiveFee p;
         skipUTXOInUseMark := skipUTXOInUseMark p;
         note := note p |} w = (Ok info, w1)
    /\ txSign (ci_privKeys (ti_data info)) (ci_tx (ti_data info)) = ExtOk tx
    /\ txGetMass tx <= 500000
    /\ RPC.transaction (rpcTX built) =
         {| RPC.version := txVersion tx;
            RPC.inputs :=
              map (fun input =>
                     {| RPC.previousOutpoint :=
                          {| RPC.transactionId := toHex (prevTxId input);
                             RPC.index := outputIndex input |};
                        RPC.signatureScript := toHex (in_script input);
                        RPC.sequence := sequenceNumber input |})
                  (txInputs tx);
            RPC.outputs :=
              map (fun output =>
                     {| RPC.amount := satoshis output;
                        RPC.out_scriptPublicKey :=
                          {| RPC.spk_version := 0;
                             RPC.scriptPublicKey := toHex (out_script output) |} |})
                  (txOutputs tx);
            RPC.lockTime := txLockTime tx;
            RPC.payloadHash :=
              "0000000000000000000000000000000000000000000000000000000000000000";
            RPC.subnetworkId := "0000000000000000000000000000000000000000";
            RPC.fee := ci_fee (ti_data info) |}
    /\ (ci_id d, ci_rawTx d, ci_utxoIds d, ci_amount d, ci_fee d, ci_utxos d, ci_toAddr d,
        ci_privKeys d)
       = (ci_id (ti_data info), ci_rawTx (ti_data info), ci_utxoIds (ti_data info),
          ci_amount (ti_data info), ci_fee (ti_data info), ci_utxos (ti_data info),
          ci_toAddr (ti_data info), ci_privKeys (ti_data info))
    /\ (totalAmount (br_info built), dataFee (br_info built), txSize (br_info built),
        ti_note (br_info built))
       = (totalAmount info, dataFee info, txSize info, ti_note info)
    /\ (debug = true \/ 0 < loggerLevel w1 -> ci_utxos d <> []).
Proof.
  intros B. apply buildTransaction_Ok_inv in B
    as (info & w1 & tx & E & Sg & Mass & Log & -> & ->).
  cbv zeta. simpl. exists info, w1.
  split; [exact E|]. split; [exact Sg|]. split; [now apply Z.ltb_ge in Mass|].
  split; [reflexivity|]. split; [reflexivity|]. split; [reflexivity|].
  intros D Nil. rewrite Nil in Log. simpl in Log. rewrite andb_true_r in Log.
  apply orb_false_iff in Log as [Dbg Lvl].
  destruct D as [-> | Pos]; [discriminate|].
  apply Z.ltb_ge in Lvl. lia.
Qed.


(** X26.  [buildTransaction] throws the size/mass-limit error exactly when
    the estimate for the request, with [skipSign] and [privKeysInfo] set,
    returned, the signature succeeded and the mass of the signed transaction
    is above 500000. *)
Theorem buildTransaction_mass_limit (fuel : nat) (p : TxSend JsNumber) (debug : bool)
    (w : Wallet) :
  fst (buildTransaction fuel p debug w) = Throw MassLimitReached <->
  exists info w1 tx,
    estimateTransaction fuel
      {| toAddr := toAddr p; amount := amount p; fee := fee p;
         changeAddrOverride := changeAddrOverride p;
         skipSign := Some true; privKeysInfo := Some true;
         compoundingUTXO := compoundingUTXO p;
         compoundingUTXOMaxCount := compoundingUTXOMaxCount p;
         networkFeeMax := networkFeeMax p;
         calculateNetworkFee := calculateNetworkFee p;
         inclusiveFee := inclusiveFee p;
         skipUTXOInUseMark := skipUTXOInUseMark p;
         note := note p |} w = (Ok info, w1)
    /\ txSign (ci_privKeys (ti_data info)) (ci_tx (ti_data info)) = ExtOk tx
    /\ 500000 < txGetMass tx.
Proof.
  change {| toAddr := toAddr p; amount := amount p; fee := fee p;
            changeAddrOverride := changeAddrOverride p;
            skipSign := Some true; privKeysInfo := Some true;
            compoundingUTXO := compoundingUTXO p;
            compoundingUTXOMaxCount := compoundingUTXOMaxCount p;
            networkFeeMax := networkFeeMax p;
            calculateNetworkFee := calculateNetworkFee p;
            inclusiveFee := inclusiveFee p;
            skipUTXOInUseMark := skipUTXOInUseMark p;
            note := note p |} with (forBuild p (skipUTXOInUseMark p)).
  split.
  - intros T.
    destruct (estimateTransaction fuel (forBuild p (skipUTXOInUseMark p)) w)
      as [[info| e | |] w1] eqn:E.
    + rewrite (buildTransaction_after_estimate _ _ _ _ _ _ E) in T.
      destruct (txSign _ _) as [tx|msg] eqn:S; [|discriminate].
      destruct (MaxMassAcceptedByBlock <? txGetMass tx) eqn:M.
      * exists info, w1, tx. split; [reflexivity|]. split; [exact S|].
        apply Z.ltb_lt in M. exact M.
      * destruct ((debug || _) && _); discriminate.
    + exfalso. unfold buildTransaction in T. rewrite (bind_Throw _ _ _ _ _ E) in T.
      simpl in T. inversion T; subst e.
      exact (estimateTransaction_raises _ _ _ _ _ E).
    + unfold buildTransaction, bind in T. rewrite E in T. discriminate.
    + unfold buildTransaction, bind in T. rewrite E in T. discriminate.
  - intros (info & w1 & tx & E & S & M).
    rewrite (buildTransaction_after_estimate _ _ _ _ _ _ E), S.
    apply Z.ltb_lt in M. change 500000 with MaxMassAcceptedByBlock in M.
    rewrite M. reflexivity.
Qed.

(** X21.  The log level decides whether a transaction without inputs can
    be built: after [setLogLevel] with any level but "none",
    [buildTransaction] fails on it in the debug log, also for a caller that
    did not ask for debugging; after [setLogLevel "none"] it does not. *)
Theorem setLogLevel_debug_log (fuel : nat) (level : string) (p : TxSend JsNumber)
    (w w1 : Wallet) (info : TxInfo) (tx : KTransaction) :
  let w0 := snd (setLogLevel level w) in
  syncSignal w = Some true ->
  estimateTransaction fuel (forBuild p (skipUTXOInUseMark p)) w0 = (Ok info, w1) ->
  txSign (ci_privKeys (ti_data info)) (ci_tx (ti_data info)) = ExtOk tx ->
  txGetMass tx <= MaxMassAcceptedByBlock ->
  ci_utxos (ti_data info) = [] ->
  (fst (buildTransaction fuel p false w0)
     = Throw (TypeError "Cannot read properties of undefined (reading 'script')")
   <-> level <> "none")
  /\ (level = "none" -> exists built w', buildTransaction fuel p false w0 = (Ok built, w')).
Proof.
  intros w0 Sy E Sg Mass Nil.
  rewrite (buildTransaction_after_estimate fuel p false w0 w1 info E), Sg.
  apply Z.ltb_ge in Mass. rewrite Mass, Nil. simpl length. simpl Nat.eqb.
  rewrite andb_true_r. simpl orb.
  assert (loggerLevel w1 = if String.eqb level "none" then 0 else 2) as L.
  { apply estimateTransaction_frame in E; [|exact Sy].
    apply sameButAddressManager_fields in E as (_ & _ & _ & _ & _ & -> & _).
    reflexivity. }
  rewrite L. destruct (String.eqb_spec level "none") as [-> | N]; simpl.
  - split; [split; [discriminate | congruence]|]. intros _. eauto.
  - split; [split; [intros _; exact N | reflexivity]|]. contradiction.
Qed.



(** *** The cache *)

(** X23.  [restoreCache] takes over the list of outputs in use and nothing
    else: the cache of the wallet afterwards has that list and the
    wallet's own address counters, and restoring a wallet's own cache
    changes nothing. *)
Theorem restoreCache_cache (c : WalletCache) (w : Wallet) :
  exists w',
    restoreCache c w = (Ok tt, w')
    /\ cache w' = {| cache_inUse := cache_inUse c;
                     receiveCounter := receiveCounter (cache w);
                     changeCounter := changeCounter (cache w) |}
    /\ utxoStorage (utxoSet w') = utxoStorage (utxoSet w)
    /\ restoreCache (cache w') w' = (Ok tt, w')
    /\ snd (restoreCache (cache w) w) = w.
Proof.
  eexists. split; [reflexivity|]. repeat split.
  unfold restoreCache, modify. simpl. destruct w as [? ? ? ? ? ? ? ? ? ? ? ? ? ? ? ? ? ? ? ? u ? ? ?].
  destruct u. reflexivity.
Qed.

End MoreProperties.

(** *** Pending transactions *)

Section PendingInfoProperties.
Import PendingInfo.




End PendingInfoProperties.

(** *** The network tables *)

(** X25.  The two tables of networks agree: every alias names a network of
    [networkTypes] whose entry carries that network and that alias as its
    name, and every network has its name among the aliases. *)
Theorem networkAliases_consistent :
  map_Forall (fun alias network =>
                (fun t => (Networks.nt_network t, Networks.name t))
                  <$> (Networks.networkTypes !! network) = Some (network, alias))
             Networks.networkAliases
  /\ map_Forall (fun network t =>
                   Networks.nt_network t = network
                   /\ Networks.networkAliases !! Networks.name t = Some network)
                Networks.networkTypes.
Proof.
  split; apply map_Forall_to_list; unfold Networks.networkAliases, Networks.networkTypes.
  - vm_compute. repeat constructor.
  - vm_compute. repeat constructor.
Qed.


(* ===================================================================== *)
(** ** The statements at work in the sample world                         *)
(* ===================================================================== *)

Import Sim.

(** With an override, a composition that returns has made no call on the
    address manager. *)
Lemma composeTx_override_witness :
  snd (composeTx overrideSend fundedWallet) = fundedWallet
  /\ calls (addressManager (snd (composeTx overrideSend fundedWallet))) = [].
Proof.
  destruct (composeTx_override_leaves_change_chain overrideSend fundedWallet eq_refl)
    as [Same Chain].
  split; [exact Same | rewrite Chain; reflexivity].
Defined.

(** A rejected destination: the change chain sees one [next()] and one
    [reverse()], and the counter is back where it was. *)
Lemma composeTx_failure_witness :
  composeTx badAddressSend fundedWallet
  = (Throw (External "Invalid address"),
     set_addressManager
       (am_reverse Change (snd (am_next Change (addressManager fundedWallet)))) fundedWallet)
  /\ calls (am_reverse Change (snd (am_next Change (addressManager fundedWallet))))
     = [CallNext Change; CallReverse Change]
  /\ composeTx tooLargeSend fundedWallet = (Throw (External "Insufficient balance"), fundedWallet).
Proof.
  split; [|split].
  - eapply (proj2 (composeTx_failure_reverses_change badAddressSend fundedWallet eq_refl));
      reflexivity.
  - reflexivity.
  - apply (proj1 (composeTx_failure_reverses_change tooLargeSend fundedWallet eq_refl)).
    reflexivity.
Defined.

(** A one-shot sync requested while the wallet monitors. *)
Lemma sync_already_running_witness :
  fst (sync 10 (Some true) monitoringWallet) = Throw SyncAlreadyRunning
  /\ fst (sync 10 (Some false) monitoringWallet) <> Throw SyncAlreadyRunning.
Proof.
  destruct (sync_already_running 10 (Some true) monitoringWallet) as (_ & Throws & _).
  destruct (sync_already_running 10 (Some false) monitoringWallet) as (_ & _ & Never & _).
  split; [apply Throws; reflexivity | apply Never; reflexivity].
Defined.

(** The spec's simple send: 7000 sompi from a 10000 output, priority fee
    500, 1 sompi per byte.  The estimate returns a transaction of 271
    calibrated bytes with the fee 771. *)
Lemma estimateTransaction_fee_witness :
  exists info w',
    estimateTransaction 10 autoFeeSend fundedWallet = (Ok info, w')
    /\ (txSize info = 271 /\ defaultFee w' = 1 /\ ci_fee (ti_data info) = Some 771)
    /\ exists f,
         txSize info * defaultFee w' + 500 <= f
         /\ ci_fee (ti_data info) = parseInt (valueOfNumber (Some f)).
Proof.
  destruct (estimateTransaction 10 autoFeeSend fundedWallet) as [[info| e | |] w'] eqn:E;
    try (vm_compute in E; discriminate).
  assert (txSize info = 271 /\ defaultFee w' = 1 /\ ci_fee (ti_data info) = Some 771)
    as (Size & Rate & Fee)
    by (pose proof E as E'; vm_compute in E'; injection E' as <- <-; repeat split).
  exists info, w'. split; [reflexivity|]. split; [repeat split; assumption|].
  destruct (estimateTransaction_fee_covers_size 10 autoFeeSend fundedWallet w' info eq_refl E)
    as (_ & _ & f & Covers & Parsed & _).
  - unfold safeInteger, MAX_SAFE_INTEGER. simpl. lia.
  - rewrite Size, Rate. unfold safeInteger, MAX_SAFE_INTEGER. lia.
  - rewrite Size, Rate. unfold safeInteger, MAX_SAFE_INTEGER. simpl. lia.
  - exists f. split; [exact Covers | exact Parsed].
Defined.

(** A fixed fee of 100 against a data fee of 271: the minimum-fee error; a
    fixed fee of 400: the estimate is returned as composed. *)
Lemma estimateTransaction_fixed_fee_witness :
  fst (estimateTransaction 10 lowFeeSend fundedWallet) = Throw (MinimumFeeRequired 271)
  /\ exists info, fst (estimateTransaction 10 fixedFeeSend fundedWallet) = Ok info
                  /\ dataFee info = 271.
Proof.
  split.
  - destruct (composeTx (composeParams lowFeeSend (amount lowFeeSend) 100 true false false)
                        fundedWallet) as [[data| e | |] w2] eqn:C;
      try (vm_compute in C; discriminate).
    pose proof (estimateTransaction_fixed_fee 10 lowFeeSend fundedWallet fundedWallet w2 data
                  eq_refl eq_refl eq_refl C) as T.
    cbv zeta in T. destruct T as (_ & T).
    vm_compute in C. injection C as <- <-.
    destruct T as ((_ & T) & _).
    + intros [NZ _]. apply NZ. reflexivity.
    + apply T. reflexivity.
  - destruct (composeTx (composeParams fixedFeeSend (amount fixedFeeSend) 400 true false false)
                        fundedWallet) as [[data| e | |] w2] eqn:C;
      try (vm_compute in C; discriminate).
    pose proof (estimateTransaction_fixed_fee 10 fixedFeeSend fundedWallet fundedWallet w2 data
                  eq_refl eq_refl eq_refl C) as T.
    cbv zeta in T. destruct T as (_ & T).
    vm_compute in C. injection C as <- <-.
    destruct T as (_ & T & _).
    + intros [NZ _]. apply NZ. reflexivity.
    + eexists. rewrite T; [split; reflexivity | discriminate | reflexivity].
Defined.

(** The simple send is submitted: the input is marked in use, the store
    holds the transaction with the blue score of the wallet, and the two
    events are emitted.  With a node that returns no txid, [null] comes back
    and nothing is marked. *)
Lemma submitTransaction_witness :
  (exists w2,
      submitTransaction 10 autoFeeSend false fundedWallet = (Ok (Some "txid-1"), w2)
      /\ inUse (utxoSet w2) = ["A0"]
      /\ map tse_blueScore (txStore w2) = [-1]
      /\ length (emitted w2) = 2%nat)
  /\ fst (submitTransaction 10 autoFeeSend false unluckyWallet) = Ok None
  /\ inUse (utxoSet (snd (submitTransaction 10 autoFeeSend false unluckyWallet))) = []
  /\ txStore (snd (submitTransaction 10 autoFeeSend false unluckyWallet)) = [].
Proof.
  split.
  - destruct (buildTransaction 10 (forBuild autoFeeSend true) false fundedWallet)
      as [[built| e | |] w1] eqn:B; try (vm_compute in B; discriminate).
    destruct (api_submitTransaction (rpcTX built) (api w1)) as [[txid|msg] a] eqn:R;
      [|vm_compute in B; injection B as <- <-; vm_compute in R; discriminate].
    destruct (proj1 (proj2 (proj2 (submitTransaction_outcomes 10 autoFeeSend false
                                     fundedWallet w1 built B))) txid a R)
      as (w2 & Sub & InUse & Store & Events).
    + vm_compute in B. injection B as <- <-. vm_compute in R. injection R as <- <-.
      reflexivity.
    + exists w2.
      vm_compute in B. injection B as <- <-. vm_compute in R. injection R as <- <-.
      split; [exact Sub|]. rewrite InUse, Store, Events. repeat split.
  - destruct (buildTransaction 10 (forBuild autoFeeSend true) false unluckyWallet)
      as [[built| e | |] w1] eqn:B; try (vm_compute in B; discriminate).
    destruct (api_submitTransaction (rpcTX built) (api w1)) as [[txid|msg] a] eqn:R;
      [|vm_compute in B; injection B as <- <-; vm_compute in R; discriminate].
    destruct (proj1 (proj2 (submitTransaction_outcomes 10 autoFeeSend false
                              unluckyWallet w1 built B)) txid a R)
      as (Sub & InUse & Store & _).
    + vm_compute in B. injection B as <- <-. vm_compute in R. injection R as <- <-.
      reflexivity.
    + rewrite Sub. simpl fst. simpl snd. rewrite InUse, Store.
      vm_compute in B. injection B as <- <-. repeat split.
Defined.

(** Gap limit 5 and nothing on the node: the first window reports -1.  With
    activity on receive index 3, the second window, the four indices from 5,
    reports 3, and the chains are advanced to 4 and 0. *)
Lemma addressDiscovery_witness :
  fst (doDiscovery 1 5 5 Receive 0 emptyWallet) = Ok (-1)
  /\ counterOf Receive (addressManager (snd (addressDiscovery 10 5 discoveringWallet))) = 4
  /\ counterOf Change (addressManager (snd (addressDiscovery 10 5 discoveringWallet))) = 0.
Proof.
  split.
  - edestruct (proj1 (addressDiscovery_quiet_window 0 5) 5 Receive 0 emptyWallet)
      as (Run & _ & _);
      [reflexivity | vm_compute; discriminate | reflexivity | vm_compute; repeat constructor |].
    rewrite Run. reflexivity.
  - destruct (doDiscovery 10 5 5 Receive 0 discoveringWallet) as [[hr| e | |] w1] eqn:R;
      try (vm_compute in R; discriminate).
    destruct (doDiscovery 10 5 5 Change 0 w1) as [[hc| e | |] w2] eqn:C;
      try (vm_compute in R; injection R as <- <-; vm_compute in C; discriminate).
    rewrite (proj2 (addressDiscovery_quiet_window 10 5) discoveringWallet w1 w2 hr hc R C).
    vm_compute in R. injection R as <- <-. vm_compute in C. injection C as <- <-.
    split; reflexivity.
Defined.

(** On kaspatest the uid is the hash of what follows "kaspatest:". *)
Lemma createUID_witness :
  createUID fundedWallet = createHash (Some "xprv/m/44'/972/0'/1'/0'")
  /\ createUID fundedWallet = createUID emptyWallet.
Proof.
  split.
  - apply (proj1 (proj2 (proj2 createUID_spec)) fundedWallet "kaspatest");
      reflexivity.
  - apply (proj2 (proj2 (proj2 createUID_spec))); reflexivity.
Defined.


(* ===================================================================== *)
(** ** Where the code departs from the description                        *)
(* ===================================================================== *)

(** C1 as stated fails: with gap limit 5, the first window starts at offset 0
    and holds nothing, and the discovery reports -1, not 0 - 5 - 1; the
    window of four indices from offset 5 reports 3, not 5 - 5 - 1. *)
Lemma addressDiscovery_formula_counterexample :
  fst (doDiscovery 1 5 5 Receive 0 emptyWallet) = Ok (-1)
  /\ fst (doDiscovery 1 5 5 Receive 0 emptyWallet) <> Ok (0 - 5 - 1)
  /\ fst (doDiscovery 1 5 4 Receive 5 emptyWallet) = Ok 3
  /\ fst (doDiscovery 1 5 4 Receive 5 emptyWallet) <> Ok (5 - 5 - 1).
Proof.
  assert (fst (doDiscovery 1 5 5 Receive 0 emptyWallet) = Ok (-1)) as First
    by (vm_compute; reflexivity).
  assert (fst (doDiscovery 1 5 4 Receive 5 emptyWallet) = Ok 3) as Second
    by (vm_compute; reflexivity).
  repeat split; try assumption.
  - rewrite First. discriminate.
  - rewrite Second. discriminate.
Qed.

(** C2 as stated fails: the key is not derived at [m/44'/972'/0'/1'/0']; the
    uid differs from the one that path would give. *)
Lemma createUID_path_counterexample :
  createUID fundedWallet
  <> createHash
       (nth_error
          (split ":" (toAddress (deriveChild (HDWallet fundedWallet) "m/44'/972'/0'/1'/0'")
                                (network fundedWallet))) 1).
Proof. vm_compute. discriminate. Qed.

(** C7 as stated fails: the network fee is not computed, the data fee 271 is
    covered by the fixed fee 400, and still the call throws, because the
    network fee is capped at 100; without the cap the same request returns. *)
Lemma estimateTransaction_fixed_fee_counterexample :
  calculateNetworkFee cappedFeeSend = false
  /\ compoundingUTXO cappedFeeSend = false
  /\ 271 <= default 0 (fee cappedFeeSend)
  /\ fst (estimateTransaction 10 cappedFeeSend fundedWallet)
     = Throw (FeeMaxBelowMinimum 100 271)
  /\ fst (estimateTransaction 10 cappedFeeSend fundedWallet)
     <> Throw (MinimumFeeRequired 271)
  /\ exists info, fst (estimateTransaction 10 fixedFeeSend fundedWallet) = Ok info.
Proof.
  assert (fst (estimateTransaction 10 cappedFeeSend fundedWallet)
          = Throw (FeeMaxBelowMinimum 100 271)) as T by (vm_compute; reflexivity).
  repeat split; try reflexivity; try assumption.
  - vm_compute. discriminate.
  - rewrite T. discriminate.
  - eexists. vm_compute. reflexivity.
Qed.


(* ===================================================================== *)
(** ** The further statements at work                                     *)
(* ===================================================================== *)

Import Scenarios.

(** The node lists an output for receive address 3 among the five asked
    for: the scan returns that address. *)
Lemma findUtxos_reports_reply_witness :
  exists w',
    findUtxos (map (addressOf Receive) [0; 1; 2; 3; 4]) discoveringWallet
    = (Ok ["kaspatest:r3"], w').
Proof.
  eapply (findUtxos_reports_reply (map (addressOf Receive) [0; 1; 2; 3; 4])
            discoveringWallet
            [("kaspatest:r0", []); ("kaspatest:r1", []); ("kaspatest:r2", []);
             ("kaspatest:r3",
              [{| api_transactionId := "t1"; api_index := 0; api_amount := 700 |}]);
             ("kaspatest:r4", [])]).
  vm_compute. reflexivity.
Defined.

(** A wallet with the notifications switched off has them on again after
    the scan that finds the output. *)
Lemma findUtxos_enables_notifications_witness :
  disableBalanceNotifications mutedWallet = true
  /\ disableBalanceNotifications
       (snd (findUtxos (map (addressOf Receive) [0; 1; 2; 3; 4]) mutedWallet)) = false.
Proof.
  split; [reflexivity|].
  destruct (findUtxos (map (addressOf Receive) [0; 1; 2; 3; 4]) mutedWallet)
    as [[found| e | |] w'] eqn:F; try (vm_compute in F; discriminate).
  eapply (findUtxos_enables_notifications _ mutedWallet w' _ _ found);
    [vm_compute; reflexivity | exact F |].
  vm_compute in F. injection F as <- _. discriminate.
Defined.

(** Discovery on the wallet whose node knows receive address 3: the receive
    chain reports 3 and the change chain -1. *)
Lemma addressDiscovery_advances_witness :
  exists r c w1 w2,
    doDiscovery 10 5 5 Receive 0 discoveringWallet = (Ok r, w1)
    /\ doDiscovery 10 5 5 Change 0 w1 = (Ok c, w2)
    /\ r = 3 /\ c = -1 /\ 0 <= r + 1 /\ 0 <= c + 1.
Proof.
  destruct (addressDiscovery 10 5 discoveringWallet) as [[[]| e | |] w'] eqn:A;
    try (vm_compute in A; discriminate).
  destruct (addressDiscovery_advances 10 5 discoveringWallet w' A)
    as (r & c & w1 & w2 & R & C & Pr & Pc).
  exists r, c, w1, w2. split; [exact R|]. split; [exact C|].
  assert (r = 3 /\ c = -1) as [Er Ec].
  { pose proof R as R'. vm_compute in R'. injection R' as Er Ew.
    pose proof C as C'. rewrite <- Ew in C'. vm_compute in C'. injection C' as Ec _.
    split; congruence. }
  split; [exact Er|]. split; [exact Ec|]. split; assumption.
Defined.

(** Receive address 3 is found with an output in the first window, and 3 is
    what discovery reports. *)
Lemma doDiscovery_covers_activity_witness :
  exists r w', doDiscovery 10 5 5 Receive 0 discoveringWallet = (Ok r, w') /\ 3 <= r.
Proof.
  destruct (doDiscovery 10 5 5 Receive 0 discoveringWallet) as [[r| e | |] w'] eqn:D;
    try (vm_compute in D; discriminate).
  exists r, w'. split; [reflexivity|].
  destruct (scanWindow 5 Receive 0 discoveringWallet) as [[[derived found]| e | |] w1] eqn:S;
    try (vm_compute in S; discriminate).
  apply (doDiscovery_covers_activity 10 5 5 Receive 0 discoveringWallet w1 w'
           derived found 3 "kaspatest:r3" r); [lia | exact S | | | exact D].
  - vm_compute in S. injection S as <- _ _. vm_compute. tauto.
  - vm_compute in S. injection S as _ <- _. vm_compute. tauto.
Defined.

(** Activity on receive address 3 only: two windows, and the index 3. *)
Lemma doDiscovery_two_windows_witness :
  fst (doDiscovery 2 5 5 Receive 0 discoveringWallet) = Ok 3.
Proof.
  destruct (scanWindow 5 Receive 0 discoveringWallet) as [[[derived found]| e | |] w1] eqn:S1;
    try (vm_compute in S1; discriminate).
  destruct (scanWindow (nAddressesLeft derived found) Receive 5 w1)
    as [[[derived2 found2]| e | |] w2] eqn:S2;
    try (vm_compute in S1; injection S1 as <- <- <-; vm_compute in S2; discriminate).
  assert (found <> [] /\ found2 = []) as (N & ->).
  { vm_compute in S1. injection S1 as <- <- <-. vm_compute in S2. injection S2 as _ <- _.
    split; [discriminate | reflexivity]. }
  destruct (doDiscovery_two_windows 0 5 Receive discoveringWallet w1 w2 derived found
              derived2 S1 N S2) as (r & D & _ & [Z | (address & I & _)]).
  - rewrite D. exfalso. vm_compute in D. injection D as D _. rewrite Z in D. discriminate.
  - rewrite D. simpl. f_equal.
    vm_compute in D. injection D as D _. congruence.
Defined.

(** Activity on the receive addresses 3 and 6, gap limit 5: the windows
    hold 5, 4 and 7 addresses, and discovery reports 10. *)
Lemma doDiscovery_three_windows_witness :
  fst (doDiscovery 3 5 5 Receive 0 twiceActiveWallet) = Ok 10.
Proof.
  destruct (scanWindow 5 Receive 0 twiceActiveWallet) as [[[derived found]| e | |] w1] eqn:S1;
    try (vm_compute in S1; discriminate).
  assert (found <> [] /\ nAddressesLeft derived found = 4) as (N1 & E1).
  { vm_compute in S1. injection S1 as <- <- <-. split; [discriminate | reflexivity]. }
  destruct (scanWindow (nAddressesLeft derived found) Receive 5 w1)
    as [[[derived2 found2]| e | |] w2] eqn:S2;
    try (vm_compute in S1; injection S1 as <- <- <-; vm_compute in S2; discriminate).
  assert (found2 <> [] /\ nAddressesLeft derived2 found2 = 7) as (N2 & E2).
  { vm_compute in S1. injection S1 as <- <- <-. vm_compute in S2. injection S2 as <- <- <-.
    split; [discriminate | reflexivity]. }
  destruct (scanWindow (nAddressesLeft derived2 found2) Receive
                       (5 + nAddressesLeft derived found) w2)
    as [[[derived3 found3]| e | |] w3] eqn:S3;
    try (vm_compute in S1; injection S1 as <- <- <-; vm_compute in S2;
         injection S2 as <- <- <-; vm_compute in S3; discriminate).
  assert (found3 = []) as ->.
  { vm_compute in S1. injection S1 as <- <- <-. vm_compute in S2. injection S2 as <- <- <-.
    vm_compute in S3. injection S3 as _ <- _. reflexivity. }
  destruct (doDiscovery_three_windows 0 5 Receive twiceActiveWallet w1 w2 w3 derived found
              derived2 found2 derived3 S1 N1 S2 N2 S3) as (r & D & R & _).
  rewrite D, R, E1, E2. reflexivity.
Defined.

(** A wallet that could estimate the simple send cannot any more after a
    one-time sync was refused. *)
Lemma sync_refused_blocks_witness :
  (exists info w', estimateTransaction 10 autoFeeSend watchingWallet = (Ok info, w'))
  /\ exists w',
       sync 10 (Some true) watchingWallet = (Throw SyncAlreadyRunning, w')
       /\ estimateTransaction 10 autoFeeSend w' = (Blocked, w').
Proof.
  split.
  - destruct (estimateTransaction 10 autoFeeSend watchingWallet) as [[info| e | |] w'] eqn:E;
      try (vm_compute in E; discriminate).
    now exists info, w'.
  - destruct (sync 10 (Some true) watchingWallet) as [[[]| e | |] w'] eqn:S;
      try (vm_compute in S; discriminate).
    assert (e = SyncAlreadyRunning) as ->
      by (vm_compute in S; injection S as <- _; reflexivity).
    exists w'. split; [reflexivity|].
    apply (sync_refused_blocks 10 10 (Some true) watchingWallet w' autoFeeSend S).
Defined.

(** [update()] on the monitoring wallet is refused, on the fresh one it is
    not. *)
Lemma update_refused_iff_witness :
  fst (update 10 None monitoringWallet) = Throw SyncAlreadyRunning
  /\ fst (update 10 None emptyWallet) <> Throw SyncAlreadyRunning.
Proof.
  split.
  - apply (update_refused_iff 10 monitoringWallet eq_refl). reflexivity.
  - intros R. apply (update_refused_iff 10 emptyWallet eq_refl) in R. discriminate.
Defined.

(** The node does not answer: the first call fails, the second one, though
    it would reach the same node, returns at once. *)
Lemma initBlueScoreSync_failure_sticks_witness :
  exists w',
    initBlueScoreSync (Co := strict) true emptyWallet
    = (Throw (External "not connected"), w')
    /\ syncVirtualSelectedParentBlueScoreStarted w' = true
    /\ initBlueScoreSync (Co := strict) false w' = (Ok tt, w').
Proof.
  destruct (initBlueScoreSync_failure_sticks (Co := strict) true false emptyWallet
              "not connected" (api emptyWallet) eq_refl eq_refl)
    as (w' & R & St & _ & _ & Again).
  exists w'. split; [exact R|]. split; [exact St | exact Again].
Defined.



(** The simple send with the fee capped at 1000: the fee is 771. *)
Lemma estimateTransaction_fee_within_max_witness :
  exists info w' f0,
    estimateTransaction 10 cappedAutoSend fundedWallet = (Ok info, w')
    /\ f0 <= 1000
    /\ ci_fee (ti_data info) = parseInt (valueOfNumber (Some f0))
    /\ ci_fee (ti_data info) = Some 771.
Proof.
  destruct (estimateTransaction 10 cappedAutoSend fundedWallet) as [[info| e | |] w'] eqn:E;
    try (vm_compute in E; discriminate).
  destruct (estimateTransaction_fee_within_max 10 cappedAutoSend fundedWallet w' info 1000
              eq_refl eq_refl) as (f0 & Le & F & _); [discriminate | exact E |].
  exists info, w', f0. split; [reflexivity|]. split; [exact Le|]. split; [exact F|].
  vm_compute in E. injection E as <- _. reflexivity.
Defined.


(** The simple send carries no keys; asked for them, as [buildTransaction]
    does, it carries the key of the one input, from the manager of the
    wallet as the second composition finds it. *)
Lemma estimateTransaction_private_keys_witness :
  (exists info w',
      estimateTransaction 10 autoFeeSend fundedWallet = (Ok info, w')
      /\ ci_privKeys (ti_data info) = [])
  /\ exists info w',
       estimateTransaction 10 (forBuild autoFeeSend false) fundedWallet = (Ok info, w')
       /\ ci_privKeys (ti_data info)
          = [am_all (addressManager (afterCompositions autoFeeSend 1 fundedWallet))
                    "kaspatest:r0"]
       /\ ci_privKeys (ti_data info) = [Some "key of kaspatest:r0"].
Proof.
  split.
  - destruct (estimateTransaction 10 autoFeeSend fundedWallet) as [[info| e | |] w'] eqn:E;
      try (vm_compute in E; discriminate).
    destruct (estimateTransaction_private_keys 10 autoFeeSend fundedWallet w' info E)
      as (w0 & k & _ & _ & K).
    exists info, w'. split; [reflexivity | exact K].
  - destruct (estimateTransaction 10 (forBuild autoFeeSend false) fundedWallet)
      as [[info| e | |] w'] eqn:E; try (vm_compute in E; discriminate).
    destruct (estimateTransaction_private_keys 10 (forBuild autoFeeSend false) fundedWallet
                w' info E) as (w0 & k & Wt & W & K).
    exists info, w'. split; [reflexivity|]. split.
    + rewrite K. vm_compute in E. injection E as <- _. reflexivity.
    + vm_compute in E. injection E as <- _. reflexivity.
Defined.

(** The simple send, built: one input of mass 100000, and the request for
    the node carries the input A0 in hex, the two outputs and the fee 771. *)
Lemma buildTransaction_result_witness :
  exists built w',
    buildTransaction 10 autoFeeSend false fundedWallet = (Ok built, w')
    /\ txGetMass (ci_tx (ti_data (br_info built))) <= 500000
    /\ RPC.fee (RPC.transaction (rpcTX built)) = Some 771
    /\ map RPC.previousOutpoint (RPC.inputs (RPC.transaction (rpcTX built)))
       = [{| RPC.transactionId := "4130"; RPC.index := 0 |}]
    /\ map RPC.amount (RPC.outputs (RPC.transaction (rpcTX built))) = [7000; 2229]
    /\ ci_utxos (ti_data (br_info built)) <> [].
Proof.
  destruct (buildTransaction 10 autoFeeSend false fundedWallet) as [[built| e | |] w'] eqn:B;
    try (vm_compute in B; discriminate).
  destruct (buildTransaction_result 10 autoFeeSend false fundedWallet w' built B)
    as (info & w1 & E & Sg & Mass & Rpc & _ & _ & Log).
  exists built, w'. split; [reflexivity|]. split; [exact Mass|].
  assert (0 < loggerLevel w1) as Level.
  { vm_compute in E. injection E as _ <-. reflexivity. }
  split; [|split; [|split]].
  - rewrite Rpc. simpl. vm_compute in E. injection E as <- _. reflexivity.
  - rewrite Rpc. simpl. vm_compute in B. injection B as <- _. reflexivity.
  - rewrite Rpc. simpl. vm_compute in B. injection B as <- _. reflexivity.
  - apply Log. right. exact Level.
Defined.


(** Nothing sent for no fee, where data is free: with the log level "debug"
    the build fails in the log, with "none" it returns. *)
Lemma setLogLevel_debug_log_witness :
  fst (buildTransaction 10 zeroSend false (snd (setLogLevel "debug" freeDataWallet)))
    = Throw (TypeError "Cannot read properties of undefined (reading 'script')")
  /\ exists built w',
       buildTransaction 10 zeroSend false (snd (setLogLevel "none" freeDataWallet))
       = (Ok built, w').
Proof.
  split.
  - destruct (estimateTransaction 10 (forBuild zeroSend (skipUTXOInUseMark zeroSend))
                (snd (setLogLevel "debug" freeDataWallet))) as [[info| e | |] w1] eqn:E;
      try (vm_compute in E; discriminate).
    destruct (txSign (ci_privKeys (ti_data info)) (ci_tx (ti_data info))) as [tx|msg] eqn:S;
      [|vm_compute in E; injection E as <- <-; vm_compute in S; discriminate].
    apply (proj1 (setLogLevel_debug_log 10 "debug" zeroSend freeDataWallet w1 info tx
                    eq_refl E S
                    ltac:(vm_compute in E; injection E as <- <-; vm_compute in S;
                          injection S as <-; vm_compute; discriminate)
                    ltac:(vm_compute in E; injection E as <- <-; reflexivity))).
    discriminate.
  - destruct (estimateTransaction 10 (forBuild zeroSend (skipUTXOInUseMark zeroSend))
                (snd (setLogLevel "none" freeDataWallet))) as [[info| e | |] w1] eqn:E;
      try (vm_compute in E; discriminate).
    destruct (txSign (ci_privKeys (ti_data info)) (ci_tx (ti_data info))) as [tx|msg] eqn:S;
      [|vm_compute in E; injection E as <- <-; vm_compute in S; discriminate].
    apply (proj2 (setLogLevel_debug_log 10 "none" zeroSend freeDataWallet w1 info tx
                    eq_refl E S
                    ltac:(vm_compute in E; injection E as <- <-; vm_compute in S;
                          injection S as <-; vm_compute; discriminate)
                    ltac:(vm_compute in E; injection E as <- <-; reflexivity))).
    reflexivity.
Defined.



(** The simple send stays below the mass limit; the send that needs six
    inputs is stopped by it. *)
Lemma buildTransaction_mass_limit_witness :
  fst (buildTransaction 10 autoFeeSend false fundedWallet) <> Throw MassLimitReached
  /\ fst (buildTransaction 10 crowdedSend false crowdedWallet) = Throw MassLimitReached.
Proof.
  split.
  - intros T. apply (buildTransaction_mass_limit 10 autoFeeSend false fundedWallet) in T
      as (info & w1 & tx & E & S & M).
    vm_compute in E. injection E as <- <-. vm_compute in S. injection S as <-.
    vm_compute in M. discriminate.
  - apply (buildTransaction_mass_limit 10 crowdedSend false crowdedWallet).
    destruct (estimateTransaction 10 (forBuild crowdedSend false) crowdedWallet)
      as [[info| e | |] w1] eqn:E; try (vm_compute in E; discriminate).
    destruct (txSign (ci_privKeys (ti_data info)) (ci_tx (ti_data info))) as [tx|msg] eqn:S;
      [|vm_compute in E; injection E as <- <-; vm_compute in S; discriminate].
    exists info, w1, tx. split; [exact E|]. split; [exact S|].
    vm_compute in E. injection E as <- <-. vm_compute in S. injection S as <-.
    reflexivity.
Defined.

(** 700 sompi confirmed on the fresh wallet: the slot holds 700 and one
    [balance-update] is emitted; while notifications are disabled, the slot
    moves in silence. *)
Lemma adjustBalance_spec_witness :
  (exists w',
      adjustBalance true 700 true fundedWallet = (Ok tt, w')
      /\ balance w' = (700, 0)
      /\ lastBalanceNotification w' = (700, 0)
      /\ emitted w' = [BalanceUpdate 700 0 700])
  /\ exists w',
       adjustBalance true 700 true (set_disableBalanceNotifications true fundedWallet)
       = (Ok tt, w')
       /\ balance w' = (700, 0) /\ emitted w' = [].
Proof.
  assert (forall z, Z.abs z <= 1000 -> safeInteger z) as Safe
    by (unfold safeInteger, MAX_SAFE_INTEGER; intros; lia).
  split.
  - destruct (adjustBalance_spec true 700 true fundedWallet) as (w' & R & B & L & Em);
      try (apply Safe; simpl; lia).
    exists w'. split; [exact R|]. split; [exact B|].
    rewrite L, Em, B. split; reflexivity.
  - destruct (adjustBalance_spec true 700 true
                (set_disableBalanceNotifications true fundedWallet)) as (w' & R & B & _ & Em);
      try (apply Safe; simpl; lia).
    exists w'. split; [exact R|]. split; [exact B | exact Em].
Defined.

(* ===================================================================== *)
(** ** Where the code departs from the description, continued            *)
(* ===================================================================== *)

(** C3 as stated fails: with a priority fee of 1e21 on the simple send, the
    estimate returns for a transaction of 271 calibrated bytes at 1 sompi
    per byte.  The fee asked of the last composition is 1e21 + 271, its
    string is in exponent form, and the fee of the returned transaction is
    the 1 that [parseInt] reads off it: below size times rate plus the
    priority fee. *)
Lemma estimateTransaction_fee_counterexample :
  exists info w',
    estimateTransaction 10 hugeFeeSend fundedWallet = (Ok info, w')
    /\ calculateNetworkFee hugeFeeSend = true
    /\ txSize info = 271 /\ defaultFee w' = 1
    /\ ci_fee (ti_data info) = Some 1
    /\ ~ (exists returned,
            ci_fee (ti_data info) = Some returned
            /\ txSize info * defaultFee w' + default 0 (fee hugeFeeSend) <= returned).
Proof.
  destruct (estimateTransaction 10 hugeFeeSend fundedWallet) as [[info| e | |] w'] eqn:E;
    try (vm_compute in E; discriminate).
  exists info, w'. vm_compute in E. injection E as <- <-.
  split; [reflexivity|]. split; [reflexivity|]. split; [reflexivity|].
  split; [reflexivity|]. split; [reflexivity|].
  intros (returned & R & Le). simpl in R. injection R as <-.
  vm_compute in Le. apply Le. reflexivity.
Qed.

